(** * Batch evaluation pipeline of pain_narratives: a shallow embedding

    Sources:
    - src/pain_narratives/core/questionnaire_runner.py
      (QuestionnaireResult, extract_json_from_text, parse_questionnaire_response,
       run_questionnaire, calculate_pcs_total_score, calculate_pcs_subscales,
       calculate_bpi_is_subscales)
    - src/pain_narratives/batch/processor.py
      (BatchConfig, BatchProgress, NarrativeEvaluationResult,
       _run_questionnaire_with_retry, _save_questionnaire_result,
       process_single_narrative, _save_checkpoint, _load_checkpoint,
       run_batch, run_batch_with_existing_narratives)

    Python values are modelled by [pyval] (JSON-like values: None, bool,
    int, str, list, dict); a float result (an average, a rounded average)
    is modelled by its exact value in [Q], rounded to the nearest binary64
    double as Python does; a str is a string of code points 0..255, one
    [ascii] each.  Python exceptions are
    modelled by the result type [res]. *)

From Stdlib Require Import ZArith QArith List String Ascii Bool Lia Permutation.
From Stdlib Require Import DecimalPos DecimalFacts.
Import ListNotations.
Open Scope string_scope.
Open Scope Z_scope.

(** ** Python values and exceptions *)

#[local] Set Warnings "-register-all".
Inductive pyval : Type :=
| PNone
| PBool (b : bool)
| PInt (z : Z)
| PStr (s : string)
| PList (l : list pyval)
| PDict (d : list (pyval * pyval)).

Inductive py_exn : Type :=
| TypeError
| AttributeError
| IndexError
| ValueError
| UnboundLocalError
| ZeroDivisionError
| JSONDecodeError (msg : string)
| OverflowError (msg : string)
| RaisedBy (msg : string).

Inductive res (A : Type) : Type :=
| Ok (a : A)
| Raise (e : py_exn).
Arguments Ok {A} a.
Arguments Raise {A} e.

Definition bind {A B} (m : res A) (k : A -> res B) : res B :=
  match m with
  | Ok a => k a
  | Raise e => Raise e
  end.

Notation "'let*' x := m 'in' k" := (bind m (fun x => k))
  (at level 200, x name, m at level 100, k at level 200).

(** Hashability and key equality of dictionary keys ([1 == True] in Python). *)
Definition hashable (v : pyval) : bool :=
  match v with
  | PList _ | PDict _ => false
  | _ => true
  end.

Definition py_key_eq (a b : pyval) : bool :=
  match a, b with
  | PNone, PNone => true
  | PStr x, PStr y => String.eqb x y
  | PInt x, PInt y => Z.eqb x y
  | PInt x, PBool y | PBool y, PInt x => Z.eqb x (Z.b2z y)
  | PBool x, PBool y => Bool.eqb x y
  | _, _ => false
  end.

(** [dict.get(key, default)] on a dict stored in insertion order. *)
Fixpoint dict_lookup (d : list (pyval * pyval)) (k : pyval) : option pyval :=
  match d with
  | [] => None
  | (k', v) :: d' => if py_key_eq k' k then Some v else dict_lookup d' k
  end.

Definition dict_get (d : list (pyval * pyval)) (k dflt : pyval) : pyval :=
  match dict_lookup d k with Some v => v | None => dflt end.

(** [obj.get(key, default)]: only dicts have a [get] method. *)
Definition py_get (o k dflt : pyval) : res pyval :=
  match o with
  | PDict d => Ok (dict_get d k dflt)
  | _ => Raise AttributeError
  end.

(** [d[k] = v]: replaces the value of an equal key in place, appends otherwise. *)
Fixpoint dict_set (d : list (pyval * pyval)) (k v : pyval) : list (pyval * pyval) :=
  match d with
  | [] => [(k, v)]
  | (k', v') :: d' =>
      if py_key_eq k' k then (k', v) :: d' else (k', v') :: dict_set d' k v
  end.

(** ** int() coercion *)

(** [c.isspace()]: the characters of [Py_UNICODE_ISSPACE] among the code
    points 0..255. *)
Definition is_space (c : ascii) : bool :=
  match nat_of_ascii c with
  | 9 | 10 | 11 | 12 | 13 | 28 | 29 | 30 | 31 | 32 | 133 | 160 => true
  | _ => false
  end%nat.

Fixpoint lstrip (s : string) : string :=
  match s with
  | String c s' => if is_space c then lstrip s' else s
  | EmptyString => EmptyString
  end.

Fixpoint rev_str (s : string) (acc : string) : string :=
  match s with
  | EmptyString => acc
  | String c s' => rev_str s' (String c acc)
  end.

(** [str.strip()] with no argument. *)
Definition strip (s : string) : string :=
  rev_str (lstrip (rev_str (lstrip s) EmptyString)) EmptyString.

Definition digit_val (c : ascii) : option Z :=
  let n := nat_of_ascii c in
  if (48 <=? n)%nat && (n <=? 57)%nat then Some (Z.of_nat n - 48) else None.

Fixpoint digits_val (s : string) (acc : Z) : option Z :=
  match s with
  | EmptyString => Some acc
  | String c s' =>
      match digit_val c with
      | Some d => digits_val s' (10 * acc + d)
      | None => None
      end
  end.

(** The blanks [int()] skips around a literal.  [int()] first maps every
    non-ASCII [isspace()] character to a space
    ([_PyUnicode_TransformDecimalAndSpaceToASCII]), then skips the ASCII
    blanks [Py_ISSPACE]: the separators 28..31 are not skipped. *)
Definition int_space (c : ascii) : bool :=
  match nat_of_ascii c with
  | 9 | 10 | 11 | 12 | 13 | 32 | 133 | 160 => true
  | _ => false
  end%nat.

Fixpoint skip_int_space (s : string) : string :=
  match s with
  | String c s' => if int_space c then skip_int_space s' else s
  | EmptyString => EmptyString
  end.

Definition int_strip (s : string) : string :=
  rev_str (skip_int_space (rev_str (skip_int_space s) EmptyString)) EmptyString.

(** The digits of a base-10 literal ([long_from_string_base]): decimal
    digits, an underscore only singly between two digits.  [prev_us] holds
    at the start and after an underscore; the result is the value and the
    number of digits. *)
Fixpoint int_body (s : string) (prev_us : bool) (acc n : Z) : option (Z * Z) :=
  match s with
  | EmptyString => if prev_us then None else Some (acc, n)
  | String c s' =>
      if Ascii.eqb c "_" then
        if prev_us then None else int_body s' true acc n
      else
        match digit_val c with
        | Some d => int_body s' false (10 * acc + d) (n + 1)
        | None => None
        end
  end.

(** [sys.get_int_max_str_digits()] at its default. *)
Definition int_max_str_digits : Z := 4300.

Definition int_digits (s : string) : option Z :=
  match int_body s true 0 0 with
  | Some (z, n) => if n <=? int_max_str_digits then Some z else None
  | None => None
  end.

(** [int(s)] for a str [s]: blanks around, an optional sign directly before
    the digits; [None] where Python raises [ValueError]. *)
Definition int_of_string (s : string) : option Z :=
  match int_strip s with
  | String "-" r => option_map Z.opp (int_digits r)
  | String "+" r => int_digits r
  | r => int_digits r
  end.

Definition py_int (v : pyval) : res Z :=
  match v with
  | PInt z => Ok z
  | PBool b => Ok (Z.b2z b)
  | PStr s => match int_of_string s with Some z => Ok z | None => Raise ValueError end
  | _ => Raise TypeError
  end.

(** [sum(xs)]: [0 + x1 + x2 + ...] over ints and bools, [TypeError] otherwise. *)
Definition py_num (v : pyval) : res Z :=
  match v with
  | PInt z => Ok z
  | PBool b => Ok (Z.b2z b)
  | _ => Raise TypeError
  end.

Fixpoint py_sum_from (acc : Z) (xs : list pyval) : res Z :=
  match xs with
  | [] => Ok acc
  | x :: xs' => let* n := py_num x in py_sum_from (acc + n) xs'
  end.

Definition py_sum (xs : list pyval) : res Z := py_sum_from 0 xs.

(** [sum(f(x) for x in xs)] where [f] may raise. *)
Fixpoint sum_gen {A} (f : A -> res Z) (acc : Z) (xs : list A) : res Z :=
  match xs with
  | [] => Ok acc
  | x :: xs' => let* n := f x in sum_gen f (acc + n) xs'
  end.

(** ** QuestionnaireResult *)

Record QuestionnaireResult : Type := mkQR {
  questionnaire_type : string;
  success : bool;
  data : list (pyval * pyval);
  raw_response : pyval;
  messages : list (string * pyval);
  error : option string
}.

(** The [scores] and [responses] properties. *)
Definition qr_scores (r : QuestionnaireResult) : pyval :=
  dict_get (data r) (PStr "scores") (PDict []).

Definition qr_responses (r : QuestionnaireResult) : pyval :=
  dict_get (data r) (PStr "responses") (PList []).

(** [dict.values()] *)
Definition py_values (o : pyval) : res (list pyval) :=
  match o with
  | PDict d => Ok (map snd d)
  | _ => Raise AttributeError
  end.

(** ** ScoreCalculator: PCS *)

Definition calculate_pcs_total_score (r : QuestionnaireResult) : res Z :=
  let* vs := py_values (qr_scores r) in
  sum_gen py_int 0 vs.

Definition rumination_items : list string := ["8"; "9"; "10"; "11"].
Definition magnification_items : list string := ["6"; "7"; "13"].
Definition helplessness_items : list string := ["1"; "2"; "3"; "4"; "5"; "12"].

Record PcsSubscales : Type := mkPcsSubscales {
  rumination : Z;
  magnification : Z;
  helplessness : Z
}.

(** [int(scores.get(item, 0))] *)
Definition pcs_item_value (scores : pyval) (item : string) : res Z :=
  let* v := py_get scores (PStr item) (PInt 0) in py_int v.

(** The local [sum_items] of [calculate_pcs_subscales]. *)
Definition sum_items (scores : pyval) (items : list string) : res Z :=
  sum_gen (pcs_item_value scores) 0 items.

Definition calculate_pcs_subscales (r : QuestionnaireResult) : res PcsSubscales :=
  let scores := qr_scores r in
  let* ru := sum_items scores rumination_items in
  let* ma := sum_items scores magnification_items in
  let* he := sum_items scores helplessness_items in
  Ok (mkPcsSubscales ru ma he).

(** The same two methods over a scores dict whose values are Python objects
    of any type [V] (floats, Decimals, ...), [int_] standing for [int()] on
    them and [zero] for the default [0] of [scores.get(item, 0)]; the keys
    are compared as in [dict_lookup]. *)
Section PcsAnyValues.
Context {V : Type} (int_ : V -> res Z) (zero : V).

Fixpoint lookup_gen (d : list (pyval * V)) (k : pyval) : option V :=
  match d with
  | [] => None
  | (k', v) :: d' => if py_key_eq k' k then Some v else lookup_gen d' k
  end.

(** [sum(int(v) for v in scores.values())] *)
Definition pcs_total_gen (d : list (pyval * V)) : res Z :=
  sum_gen int_ 0 (map snd d).

(** [int(scores.get(item, 0))] *)
Definition pcs_item_gen (d : list (pyval * V)) (item : string) : res Z :=
  int_ (match lookup_gen d (PStr item) with Some v => v | None => zero end).

Definition pcs_subscales_gen (d : list (pyval * V)) : res PcsSubscales :=
  let* ru := sum_gen (pcs_item_gen d) 0 rumination_items in
  let* ma := sum_gen (pcs_item_gen d) 0 magnification_items in
  let* he := sum_gen (pcs_item_gen d) 0 helplessness_items in
  Ok (mkPcsSubscales ru ma he).

(** The integer an item contributes (0 if [int()] raises). *)
Definition pcs_value_gen (d : list (pyval * V)) (item : string) : Z :=
  match pcs_item_gen d item with Ok z => z | Raise _ => 0 end.

End PcsAnyValues.

(** ** ScoreCalculator: BPI-IS *)

(** Iterating over a Python value: lists yield elements, dicts their keys,
    strings their one-character strings; other values are not iterable. *)
Definition py_iter (o : pyval) : res (list pyval) :=
  match o with
  | PList l => Ok l
  | PDict d => Ok (map fst d)
  | PStr s => Ok (map (fun c => PStr (String c EmptyString)) (list_ascii_of_string s))
  | _ => Raise TypeError
  end.

(** [{r.get("code"): r.get("value", 0) for r in responses}] *)
Fixpoint build_scores_by_code (acc : list (pyval * pyval)) (rs : list pyval)
  : res (list (pyval * pyval)) :=
  match rs with
  | [] => Ok acc
  | r :: rs' =>
      let* k := py_get r (PStr "code") PNone in
      let* v := py_get r (PStr "value") (PInt 0) in
      if hashable k then build_scores_by_code (dict_set acc k v) rs'
      else Raise TypeError
  end.

Definition interference_codes : list string :=
  ["BPI_Q1_1"; "BPI_Q1_2"; "BPI_Q1_3"; "BPI_Q1_5"; "BPI_Q1_6"; "BPI_Q1_7"].
Definition intensity_codes : list string :=
  ["BPI_Q2_8"; "BPI_Q3_9"; "BPI_Q4_10"; "BPI_Q5_11"].

(** Floats.  A float is modelled by its exact value, a rational in [Q]:
    the binary64 number [m * 2^e] with [|m| < 2^53] and [-1074 <= e]. *)

(** [num / den] rounded to the nearest integer, ties to even ([0 <= num], [0 < den]). *)
Definition round_div_even (num den : Z) : Z :=
  let q := num / den in
  let r := num mod den in
  match Z.compare (2 * r) den with
  | Lt => q
  | Gt => q + 1
  | Eq => if Z.even q then q else q + 1
  end.

(** [floor(log2(a / d))] for [0 < a], [0 < d]. *)
Definition log2_ratio (a d : Z) : Z :=
  let k := Z.log2 a - Z.log2 d in
  if a * 2 ^ Z.max (- k) 0 <? d * 2 ^ Z.max k 0 then k - 1 else k.

(** The binary64 value nearest to [q], ties to even (subnormals included);
    [None] when that rounding reaches [2^1024], where Python raises
    [OverflowError]. *)
Definition to_double (q : Q) : option Q :=
  let n := Qnum q in
  let d := Zpos (Qden q) in
  let a := Z.abs n in
  if a =? 0 then Some 0%Q else
  let e := Z.max (log2_ratio a d - 52) (-1074) in
  let m := round_div_even (a * 2 ^ Z.max (- e) 0) (d * 2 ^ Z.max e 0) in
  if 2 ^ 1024 * 2 ^ Z.max (- e) 0 <=? m * 2 ^ Z.max e 0 then None
  else Some (Qmake (Z.sgn n * m * 2 ^ Z.max e 0) (Z.to_pos (2 ^ Z.max (- e) 0))).

(** [a / b] on two ints: the correctly rounded quotient ([long_true_divide]). *)
Definition int_truediv (a b : Z) : res Q :=
  if b =? 0 then Raise ZeroDivisionError else
  match to_double (Qmake (a * Z.sgn b) (Z.to_pos (Z.abs b))) with
  | Some x => Ok x
  | None => Raise (OverflowError "integer division result too large for a float")
  end.

(** [round(x, 2)] on a float [x] ([double_round]): [x] rounded to two
    decimals, ties to even on its exact value, then read back as a float. *)
Definition py_round2 (x : Q) : res Q :=
  let n := Qnum x * 100 in
  let y := Z.sgn n * round_div_even (Z.abs n) (Zpos (Qden x)) in
  match to_double (Qmake y 100) with
  | Some r => Ok r
  | None => Raise (OverflowError "rounded value too large to represent")
  end.

(** [sum(values) / len(values) if values else 0] *)
Definition py_avg (values : list pyval) : res Q :=
  match values with
  | [] => Ok 0%Q
  | _ => let* s := py_sum values in int_truediv s (Z.of_nat (List.length values))
  end.

Record BpiSubscales : Type := mkBpiSubscales {
  interference_avg : Q;
  intensity_avg : Q;
  interference_total : Z;
  intensity_total : Z
}.

(** The returned dict, its values evaluated in order: [round(interference_avg, 2)],
    [round(intensity_avg, 2)], then the two sums.  Both averages are floats
    ([round(0, 2)] on the int 0 of the empty case would be 0 as well). *)
Definition calculate_bpi_is_subscales (r : QuestionnaireResult) : res BpiSubscales :=
  let* responses := py_iter (qr_responses r) in
  let* scores_by_code := build_scores_by_code [] responses in
  let interference_values :=
    map (fun c => dict_get scores_by_code (PStr c) (PInt 0)) interference_codes in
  let* i_avg := py_avg interference_values in
  let intensity_values :=
    map (fun c => dict_get scores_by_code (PStr c) (PInt 0)) intensity_codes in
  let* n_avg := py_avg intensity_values in
  let* i_round := py_round2 i_avg in
  let* n_round := py_round2 n_avg in
  let* i_tot := py_sum interference_values in
  let* n_tot := py_sum intensity_values in
  Ok (mkBpiSubscales i_round n_round i_tot n_tot).

(** ** JSON: the [json] module on [pyval]

    [json.dumps(obj, indent=2)] and [json.loads(s)].  Numbers are integers
    only; the decoder reports an error at the first offending character.
    String escapes follow [ensure_ascii=True]: the short escapes, and
    [\u00XX] for every other character outside [' '..'~']. *)

Definition qchar : ascii := "034"%char.
Definition bslash : ascii := "092"%char.
Definition nlchar : ascii := "010"%char.

(** [str(n)] for Python ints. *)
Fixpoint uint_str (d : Decimal.uint) : string :=
  match d with
  | Decimal.Nil => EmptyString
  | Decimal.D0 d => String "0" (uint_str d)
  | Decimal.D1 d => String "1" (uint_str d)
  | Decimal.D2 d => String "2" (uint_str d)
  | Decimal.D3 d => String "3" (uint_str d)
  | Decimal.D4 d => String "4" (uint_str d)
  | Decimal.D5 d => String "5" (uint_str d)
  | Decimal.D6 d => String "6" (uint_str d)
  | Decimal.D7 d => String "7" (uint_str d)
  | Decimal.D8 d => String "8" (uint_str d)
  | Decimal.D9 d => String "9" (uint_str d)
  end.

Definition str_of_Z (z : Z) : string :=
  match z with
  | Z0 => "0"
  | Zpos p => uint_str (Pos.to_uint p)
  | Zneg p => String "-" (uint_str (Pos.to_uint p))
  end.

Definition hex_digit (n : nat) : ascii :=
  if (n <? 10)%nat then ascii_of_nat (48 + n) else ascii_of_nat (87 + n).

Definition escape_char (c : ascii) : string :=
  let n := nat_of_ascii c in
  if Ascii.eqb c qchar then String bslash (String qchar EmptyString)
  else if Ascii.eqb c bslash then String bslash (String bslash EmptyString)
  else if (n =? 8)%nat then String bslash "b"
  else if (n =? 12)%nat then String bslash "f"
  else if (n =? 10)%nat then String bslash "n"
  else if (n =? 13)%nat then String bslash "r"
  else if (n =? 9)%nat then String bslash "t"
  else if (32 <=? n)%nat && (n <=? 126)%nat then String c EmptyString
  else String bslash (String "u" (String "0" (String "0"
         (String (hex_digit (n / 16)) (String (hex_digit (n mod 16)) EmptyString))))).

Fixpoint escape_str (s : string) : string :=
  match s with
  | EmptyString => EmptyString
  | String c s' => escape_char c ++ escape_str s'
  end.

Definition quote (s : string) : string :=
  String qchar (escape_str s ++ String qchar EmptyString).

Fixpoint spaces (n : nat) : string :=
  match n with O => EmptyString | S n' => String " " (spaces n') end.

(** Newline followed by the indentation of nesting level [lvl]. *)
Definition nl_ind (lvl : nat) : string := String nlchar (spaces (2 * lvl)).

(** Keys of a JSON object: str, int, bool and None keys are converted. *)
Definition key_str (k : pyval) : res string :=
  match k with
  | PStr s => Ok (quote s)
  | PInt z => Ok (quote (str_of_Z z))
  | PBool true => Ok (quote "true")
  | PBool false => Ok (quote "false")
  | PNone => Ok (quote "null")
  | _ => Raise TypeError
  end.

Fixpoint dump_elems (f : pyval -> res string) (lvl : nat) (l : list pyval) : res string :=
  match l with
  | [] => Ok EmptyString
  | x :: xs =>
      let* s := f x in
      match xs with
      | [] => Ok (nl_ind (S lvl) ++ s ++ nl_ind lvl ++ "]")
      | _ => let* t := dump_elems f lvl xs in Ok (nl_ind (S lvl) ++ s ++ "," ++ t)
      end
  end.

Fixpoint dump_members (f : pyval -> res string) (lvl : nat)
  (d : list (pyval * pyval)) : res string :=
  match d with
  | [] => Ok EmptyString
  | (k, v) :: d' =>
      let* ks := key_str k in
      let* s := f v in
      match d' with
      | [] => Ok (nl_ind (S lvl) ++ ks ++ ": " ++ s ++ nl_ind lvl ++ "}")
      | _ => let* t := dump_members f lvl d' in
             Ok (nl_ind (S lvl) ++ ks ++ ": " ++ s ++ "," ++ t)
      end
  end.

Fixpoint dumps_at (lvl : nat) (v : pyval) : res string :=
  match v with
  | PNone => Ok "null"
  | PBool true => Ok "true"
  | PBool false => Ok "false"
  | PInt z => Ok (str_of_Z z)
  | PStr s => Ok (quote s)
  | PList [] => Ok "[]"
  | PList l => let* t := dump_elems (dumps_at (S lvl)) lvl l in Ok (String "[" t)
  | PDict [] => Ok "{}"
  | PDict d => let* t := dump_members (dumps_at (S lvl)) lvl d in Ok (String "{" t)
  end.

(** [json.dumps(obj, indent=2)] *)
Definition json_dumps (v : pyval) : res string := dumps_at 0 v.

(** Decoder. *)
Definition is_json_ws (c : ascii) : bool :=
  match nat_of_ascii c with
  | 32 | 9 | 10 | 13 => true
  | _ => false
  end%nat.

Fixpoint skip_ws (s : string) : string :=
  match s with
  | String c s' => if is_json_ws c then skip_ws s' else s
  | EmptyString => EmptyString
  end.

Definition hex_val (c : ascii) : option nat :=
  let n := nat_of_ascii c in
  if (48 <=? n)%nat && (n <=? 57)%nat then Some (n - 48)%nat
  else if (97 <=? n)%nat && (n <=? 102)%nat then Some (n - 87)%nat
  else if (65 <=? n)%nat && (n <=? 70)%nat then Some (n - 55)%nat
  else None.

Definition cons_fst (c : ascii) (o : option (string * string)) : option (string * string) :=
  match o with
  | Some (a, b) => Some (String c a, b)
  | None => None
  end.

(** The body of a string literal after its opening quote; code points above
    255 are outside [ascii] and reported as errors. *)
Fixpoint parse_str (s : string) : option (string * string) :=
  match s with
  | EmptyString => None
  | String c r =>
      if Ascii.eqb c qchar then Some (EmptyString, r)
      else if Ascii.eqb c bslash then
        match r with
        | String e r' =>
            if Ascii.eqb e qchar then cons_fst qchar (parse_str r')
            else if Ascii.eqb e bslash then cons_fst bslash (parse_str r')
            else if Ascii.eqb e "/" then cons_fst "/" (parse_str r')
            else if Ascii.eqb e "b" then cons_fst (ascii_of_nat 8) (parse_str r')
            else if Ascii.eqb e "f" then cons_fst (ascii_of_nat 12) (parse_str r')
            else if Ascii.eqb e "n" then cons_fst (ascii_of_nat 10) (parse_str r')
            else if Ascii.eqb e "r" then cons_fst (ascii_of_nat 13) (parse_str r')
            else if Ascii.eqb e "t" then cons_fst (ascii_of_nat 9) (parse_str r')
            else if Ascii.eqb e "u" then
              match r' with
              | String h1 (String h2 (String h3 (String h4 r''))) =>
                  match hex_val h1, hex_val h2, hex_val h3, hex_val h4 with
                  | Some a, Some b, Some c', Some d =>
                      let n := (((a * 16 + b) * 16 + c') * 16 + d)%nat in
                      if (n <? 256)%nat then cons_fst (ascii_of_nat n) (parse_str r'')
                      else None
                  | _, _, _, _ => None
                  end
              | _ => None
              end
            else None
        | EmptyString => None
        end
      else if (nat_of_ascii c <? 32)%nat then None
      else cons_fst c (parse_str r)
  end.

Definition is_digit (c : ascii) : bool :=
  let n := nat_of_ascii c in (48 <=? n)%nat && (n <=? 57)%nat.

Fixpoint span_digits (s : string) : string * string :=
  match s with
  | String c r =>
      if is_digit c then let '(ds, rest) := span_digits r in (String c ds, rest)
      else (EmptyString, s)
  | EmptyString => (EmptyString, EmptyString)
  end.

Inductive presult : Type :=
| POk (v : pyval) (rest : string)
| PErr (at_ : string).

(** An optional minus sign, then 0 or a digit run without a leading zero. *)
Definition parse_int (s : string) : presult :=
  let '(neg, r) := match s with
                   | String "-" r => (true, r)
                   | _ => (false, s)
                   end in
  match span_digits r with
  | (EmptyString, _) => PErr s
  | (String "0" (String _ _), _) => PErr s
  | (ds, rest) =>
      match digits_val ds 0 with
      | Some n => POk (PInt (if neg then - n else n)) rest
      | None => PErr s
      end
  end.

Fixpoint parse_value (fuel : nat) (s : string) {struct fuel} : presult :=
  match fuel with
  | O => PErr s
  | S f =>
      let s := skip_ws s in
      match s with
      | String "[" r =>
          match skip_ws r with
          | String "]" r' => POk (PList []) r'
          | _ => parse_elems f [] r
          end
      | String "{" r =>
          match skip_ws r with
          | String "}" r' => POk (PDict []) r'
          | _ => parse_members f [] r
          end
      | String "n" (String "u" (String "l" (String "l" r))) => POk PNone r
      | String "t" (String "r" (String "u" (String "e" r))) => POk (PBool true) r
      | String "f" (String "a" (String "l" (String "s" (String "e" r)))) =>
          POk (PBool false) r
      | String c r =>
          if Ascii.eqb c qchar then
            match parse_str r with
            | Some (str, r') => POk (PStr str) r'
            | None => PErr r
            end
          else parse_int s
      | EmptyString => PErr s
      end
  end
with parse_elems (fuel : nat) (acc : list pyval) (s : string) {struct fuel} : presult :=
  match fuel with
  | O => PErr s
  | S f =>
      match parse_value f s with
      | POk v r =>
          match skip_ws r with
          | String "," r' => parse_elems f (acc ++ [v]) r'
          | String "]" r' => POk (PList (acc ++ [v])) r'
          | r' => PErr r'
          end
      | PErr e => PErr e
      end
  end
with parse_members (fuel : nat) (acc : list (pyval * pyval)) (s : string) {struct fuel}
  : presult :=
  match fuel with
  | O => PErr s
  | S f =>
      match skip_ws s with
      | String c r =>
          if Ascii.eqb c qchar then
            match parse_str r with
            | Some (k, r1) =>
                match skip_ws r1 with
                | String ":" r2 =>
                    match parse_value f r2 with
                    | POk v r3 =>
                        let acc' := dict_set acc (PStr k) v in
                        match skip_ws r3 with
                        | String "," r4 => parse_members f acc' r4
                        | String "}" r4 => POk (PDict acc') r4
                        | r4 => PErr r4
                        end
                    | PErr e => PErr e
                    end
                | r2 => PErr r2
                end
            | None => PErr r
            end
          else PErr (String c r)
      | EmptyString => PErr EmptyString
      end
  end.

Definition char_pos (input rest : string) : string :=
  str_of_Z (Z.of_nat (String.length input - String.length rest)).

(** [json.loads(s)] *)
Definition json_loads (s : string) : res pyval :=
  match parse_value (S (String.length s)) s with
  | POk v r =>
      match skip_ws r with
      | EmptyString => Ok v
      | _ => Raise (JSONDecodeError ("Extra data: char " ++ char_pos s r))
      end
  | PErr r => Raise (JSONDecodeError ("Expecting value: char " ++ char_pos s r))
  end.

(** ** String helpers: [startswith], [endswith], slicing, [find], [rfind], [replace] *)

Definition ends_with (suf s : string) : bool :=
  String.prefix (rev_str suf EmptyString) (rev_str s EmptyString).

(** [s[n:]] and [s[:-n]] *)
Definition drop_front (n : nat) (s : string) : string :=
  substring n (String.length s - n) s.
Definition drop_back (n : nat) (s : string) : string :=
  substring 0 (String.length s - n) s.

Fixpoint find_char (c : ascii) (s : string) : option nat :=
  match s with
  | EmptyString => None
  | String c' r => if Ascii.eqb c c' then Some O else option_map S (find_char c r)
  end.

Fixpoint rfind_char (c : ascii) (s : string) : option nat :=
  match s with
  | EmptyString => None
  | String c' r =>
      match rfind_char c r with
      | Some i => Some (S i)
      | None => if Ascii.eqb c c' then Some O else None
      end
  end.

Fixpoint replace_fuel (fuel : nat) (old new s : string) : string :=
  match fuel with
  | O => s
  | S f =>
      match s with
      | EmptyString => EmptyString
      | String c r =>
          if String.prefix old s
          then new ++ replace_fuel f old new (drop_front (String.length old) s)
          else String c (replace_fuel f old new r)
      end
  end.

(** [s.replace(old, new)] for a non-empty [old]. *)
Definition str_replace (s old new : string) : string :=
  replace_fuel (String.length s) old new s.

(** [str(e)] of the exceptions that the code turns into error texts. *)
Definition exn_str (e : py_exn) : string :=
  match e with
  | TypeError => "unsupported operand type"
  | AttributeError => "object has no attribute"
  | IndexError => "list index out of range"
  | ValueError => "invalid literal for int()"
  | UnboundLocalError => "cannot access local variable 'result'"
  | ZeroDivisionError => "integer modulo by zero"
  | JSONDecodeError m => m
  | OverflowError m => m
  | RaisedBy m => m
  end.

(** ** QuestionnaireRunner *)

Definition extract_json_from_text (text : string) : string :=
  let t := strip text in
  let t := if String.prefix "```json" t then drop_front 7 t
           else if String.prefix "```" t then drop_front 3 t
           else t in
  let t := if ends_with "```" t then drop_back 3 t else t in
  let t := strip t in
  let t := match find_char "{" t, rfind_char "}" t with
           | Some i, Some j => if (i <? j)%nat then substring i (j + 1 - i) t else t
           | _, _ => t
           end in
  strip t.

Definition invalid (qtype msg : string) : string :=
  "Invalid " ++ qtype ++ " response: " ++ msg.

(** Returns [(success, data, error)]. *)
Definition parse_questionnaire_response (content qtype : string)
  : res (bool * list (pyval * pyval) * option string) :=
  match content with
  | EmptyString => Ok (false, [], Some "Empty response from API")
  | _ =>
      let cleaned := extract_json_from_text content in
      match json_loads cleaned with
      | Ok (PDict d) =>
          if String.eqb qtype "PCS" then
            match dict_lookup d (PStr "scores") with
            | None => Ok (false, [], Some (invalid qtype "missing 'scores' field"))
            | Some (PDict _) => Ok (true, d, None)
            | Some _ => Ok (false, [], Some (invalid qtype "'scores' should be an object"))
            end
          else
            match dict_lookup d (PStr "responses") with
            | None => Ok (false, [], Some (invalid qtype "missing 'responses' field"))
            | Some (PList _) => Ok (true, d, None)
            | Some _ => Ok (false, [], Some (invalid qtype "'responses' should be an array"))
            end
      | Ok _ => Ok (false, [], Some (invalid qtype "expected JSON object"))
      | Raise (JSONDecodeError m) =>
          Ok (false, [], Some ("Could not parse JSON response: " ++ m))
      | Raise e => Raise e
      end
  end.

(** [x[0]] *)
Definition py_index0 (o : pyval) : res pyval :=
  match o with
  | PList (x :: _) => Ok x
  | PList [] => Raise IndexError
  | PStr (String c _) => Ok (PStr (String c EmptyString))
  | PStr EmptyString => Raise IndexError
  | _ => Raise TypeError
  end.

Definition py_strip (o : pyval) : res string :=
  match o with
  | PStr s => Ok (strip s)
  | _ => Raise AttributeError
  end.

(** [response.get("choices", [{}])[0].get("message", {}).get("content", "").strip()] *)
Definition extract_content (response : pyval) : res string :=
  let* choices := py_get response (PStr "choices") (PList [PDict []]) in
  let* choice := py_index0 choices in
  let* message := py_get choice (PStr "message") (PDict []) in
  let* content := py_get message (PStr "content") (PStr EmptyString) in
  py_strip content.

(** ** Collaborators, events and the state of a batch run *)

(** What the model client does on one [create_completion] call. *)
Inductive client_outcome : Type :=
| CRaise (msg : string)
| CReturn (response : pyval).

(** Writes issued through the persistence collaborator. *)
Inductive write : Type :=
| WExperimentsGroup (group_id : Z)
| WNarrative (text : pyval)
| WExperiment (group_id : pyval) (narrative_id : Z)
| WRequestResponse (experiment_id : Z)
| WEvaluation (experiment_id : Z) (result_type : string)
| WExperimentStatus (experiment_id : Z) (succeeded : bool)
| WQuestionnaire (experiment_id : Z) (questionnaire_name : string)
    (result_json : list (pyval * pyval))
| WGroupConcluded (group_id : pyval).

Inductive event : Type :=
| ModelCall (key : Z) (stage : string)
| DbWrite (w : write)
| Started (key : Z).

Definition is_model_call (e : event) : bool :=
  match e with ModelCall _ _ => true | _ => false end.

Definition count_calls (log : list event) : nat :=
  List.length (filter is_model_call log).

(** The collaborators: the [n]-th [create_completion] call, the database,
    the prompt-template resolver and the clock. *)
Record Env : Type := mkEnv {
  env_client : nat -> client_outcome;
  env_create_narrative : Z -> res Z;
  env_register_experiment : Z -> res Z;
  env_new_group : Z;
  env_questionnaire_prompt : string -> pyval;
  env_now : string
}.

Record BatchConfig : Type := mkBatchConfig {
  max_retries : Z;
  include_dimensions : bool;
  include_pcs : bool;
  include_bpi_is : bool;
  include_tsk_11sv : bool;
  checkpoint_file : option string;
  checkpoint_interval : Z
}.

Record BatchProgress : Type := mkBatchProgress {
  total : Z;
  processed : Z;
  successful : Z;
  failed : Z;
  current_narrative_id : option Z
}.

Record NarrativeEvaluationResult : Type := mkNER {
  ner_narrative_id : Z;
  ner_narrative_text : pyval;
  ner_experiment_id : Z;
  dimension_success : bool;
  dimension_result : pyval;
  dimension_error : option string;
  pcs_result : option QuestionnaireResult;
  bpi_is_result : option QuestionnaireResult;
  tsk_11sv_result : option QuestionnaireResult;
  pcs_questionnaire_id : option Z;
  bpi_is_questionnaire_id : option Z;
  tsk_11sv_questionnaire_id : option Z
}.

Record World : Type := mkWorld {
  w_log : list event;
  w_fs : list (string * string);
  w_progress : BatchProgress;
  w_processed_ids : list pyval;
  w_results : list NarrativeEvaluationResult
}.

(** ** The state and exception monad of BatchProcessor *)

Definition M (A : Type) : Type := World -> res A * World.

Definition ret {A} (a : A) : M A := fun w => (Ok a, w).

Definition mbind {A B} (m : M A) (k : A -> M B) : M B :=
  fun w => let (r, w') := m w in
           match r with
           | Ok a => k a w'
           | Raise e => (Raise e, w')
           end.

Notation "x <- m ;; k" := (mbind m (fun x => k))
  (at level 61, m at next level, right associativity).

Definition throw {A} (e : py_exn) : M A := fun w => (Raise e, w).

Definition lift {A} (r : res A) : M A := fun w => (r, w).

(** [try: m  except Exception as e: h(e)] *)
Definition try_except {A} (m : M A) (h : py_exn -> M A) : M A :=
  fun w => let (r, w') := m w in
           match r with
           | Ok a => (Ok a, w')
           | Raise e => h e w'
           end.

Definition emit (e : event) : M unit :=
  fun w => (Ok tt, mkWorld (w_log w ++ [e]) (w_fs w) (w_progress w)
                          (w_processed_ids w) (w_results w)).

(** A database insert returning the new row id. *)
Definition db_insert (wr : write) : M Z :=
  fun w => (Ok (Z.of_nat (List.length (w_log w))),
            mkWorld (w_log w ++ [DbWrite wr]) (w_fs w) (w_progress w)
                    (w_processed_ids w) (w_results w)).

Definition get_world : M World := fun w => (Ok w, w).

Definition set_progress (p : BatchProgress) : M unit :=
  fun w => (Ok tt, mkWorld (w_log w) (w_fs w) p (w_processed_ids w) (w_results w)).

Definition set_processed_ids (ids : list pyval) : M unit :=
  fun w => (Ok tt, mkWorld (w_log w) (w_fs w) (w_progress w) ids (w_results w)).

Definition append_result (r : NarrativeEvaluationResult) : M unit :=
  fun w => (Ok tt, mkWorld (w_log w) (w_fs w) (w_progress w) (w_processed_ids w)
                          (w_results w ++ [r])).

Definition write_file (path contents : string) : M unit :=
  fun w => (Ok tt, mkWorld (w_log w) ((path, contents) :: w_fs w) (w_progress w)
                          (w_processed_ids w) (w_results w)).

Fixpoint fs_read (fs : list (string * string)) (path : string) : option string :=
  match fs with
  | [] => None
  | (p, c) :: fs' => if String.eqb p path then Some c else fs_read fs' path
  end.

(** [openai_client.create_completion(...)]: the n-th call of the run. *)
Definition create_completion (env : Env) (key : Z) (stage : string) : M pyval :=
  fun w =>
    let n := count_calls (w_log w) in
    let w' := mkWorld (w_log w ++ [ModelCall key stage]) (w_fs w) (w_progress w)
                      (w_processed_ids w) (w_results w) in
    match env_client env n with
    | CRaise msg => (Raise (RaisedBy msg), w')
    | CReturn resp => (Ok resp, w')
    end.

(** ** run_questionnaire *)

Definition py_replace (s old : string) (new : pyval) : res string :=
  match new with
  | PStr n => Ok (str_replace s old n)
  | _ => Raise TypeError
  end.

Definition failed_result (qtype : string) (raw : pyval) (msgs : list (string * pyval))
  (err : string) : QuestionnaireResult :=
  mkQR qtype false [] raw msgs (Some err).

Definition run_questionnaire (env : Env) (key : Z) (narrative : pyval) (qtype : string)
  (system_role instructions : pyval) : M QuestionnaireResult :=
  (* prompts from the YAML configuration when not provided *)
  sr_ins <- (match system_role, instructions with
             | PNone, _ | _, PNone =>
                 let yaml := env_questionnaire_prompt env qtype in
                 sr <- (match system_role with
                        | PNone => lift (py_get yaml (PStr "system_role") (PStr EmptyString))
                        | _ => ret system_role
                        end) ;;
                 ins <- (match instructions with
                         | PNone => lift (py_get yaml (PStr "instructions") (PStr EmptyString))
                         | _ => ret instructions
                         end) ;;
                 ret (sr, ins)
             | _, _ => ret (system_role, instructions)
             end) ;;
  let (sr, ins) := sr_ins in
  prompt <- (match ins with
             | PStr i => lift (py_replace i "{narrative}" narrative)
             | _ => throw AttributeError
             end) ;;
  let msgs := [("system", sr); ("user", PStr prompt)] in
  try_except
    (response <- create_completion env key qtype ;;
     content <- lift (extract_content response) ;;
     match content with
     | EmptyString =>
         ret (failed_result qtype response msgs "Model returned empty response")
     | _ =>
         parsed <- lift (parse_questionnaire_response content qtype) ;;
         let '(ok, d, err) := parsed in
         ret (mkQR qtype ok d response msgs err)
     end)
    (fun e => ret (failed_result qtype (PDict []) msgs (exn_str e))).

(** ** _run_questionnaire_with_retry

    [result] is the Python local variable: unbound until an attempt returns. *)
Fixpoint retry_loop (fuel : nat) (result : option QuestionnaireResult)
  (attempt : M QuestionnaireResult) : M QuestionnaireResult :=
  match fuel with
  | O => match result with
         | Some r => ret r
         | None => throw UnboundLocalError
         end
  | S f =>
      fun w =>
        let (r, w') := attempt w in
        match r with
        | Ok q => if success q then (Ok q, w') else retry_loop f (Some q) attempt w'
        | Raise _ => retry_loop f result attempt w'
        end
  end.

Definition run_questionnaire_with_retry (cfg : BatchConfig) (env : Env) (key : Z)
  (narrative_text : pyval) (qtype : string) : M QuestionnaireResult :=
  let prompts := env_questionnaire_prompt env qtype in
  retry_loop (Z.to_nat (max_retries cfg)) None
    (sr <- lift (py_get prompts (PStr "system_role") PNone) ;;
     ins <- lift (py_get prompts (PStr "instructions") PNone) ;;
     run_questionnaire env key narrative_text qtype sr ins).

(** ** _save_questionnaire_result *)

(** [sum(r.get("value", 0) for r in responses)] *)
Definition responses_total (r : QuestionnaireResult) : res Z :=
  let* rs := py_iter (qr_responses r) in
  sum_gen (fun x => let* v := py_get x (PStr "value") (PInt 0) in py_num v) 0 rs.

Definition calculate_bpi_is_total_score (r : QuestionnaireResult) : res Z :=
  responses_total r.

Definition calculate_tsk_11sv_total_score (r : QuestionnaireResult) : res Z :=
  responses_total r.

Definition save_questionnaire_result (result : QuestionnaireResult) (qtype : string)
  (experiment_id : Z) (group_id : pyval) (narrative_id : Z) : M (option Z) :=
  if negb (success result) then ret None
  else
    questionnaire_id <- db_insert (WQuestionnaire experiment_id qtype (data result)) ;;
    _ <- (if String.eqb qtype "PCS" then
            _ <- lift (calculate_pcs_total_score result) ;;
            _ <- lift (calculate_pcs_subscales result) ;; ret tt
          else if String.eqb qtype "BPI-IS" then
            _ <- lift (calculate_bpi_is_total_score result) ;;
            _ <- lift (calculate_bpi_is_subscales result) ;; ret tt
          else if String.eqb qtype "TSK-11SV" then
            _ <- lift (calculate_tsk_11sv_total_score result) ;; ret tt
          else ret tt) ;;
    _ <- db_insert (WEvaluation experiment_id qtype) ;;
    ret (Some questionnaire_id).

(** ** _run_dimension_evaluation *)

Definition clean_dimension_content (content : string) : string :=
  let c := if String.prefix "```json" content then drop_front 7 content else content in
  let c := if String.prefix "```" c then drop_front 3 c else c in
  let c := if ends_with "```" c then drop_back 3 c else c in
  strip c.

Definition run_dimension_evaluation (env : Env) (key : Z) (experiment_id : Z) : M pyval :=
  response <- create_completion env key "dimensions" ;;
  _ <- db_insert (WRequestResponse experiment_id) ;;
  content <- lift (extract_content response) ;;
  match content with
  | EmptyString => ret (PDict [(PStr "error", PStr "Empty response")])
  | _ =>
      let c := clean_dimension_content content in
      match json_loads c with
      | Ok v => ret v
      | Raise (JSONDecodeError m) =>
          ret (PDict [(PStr "error", PStr m); (PStr "raw_content", PStr (substring 0 500 c))])
      | Raise e => throw e
      end
  end.

(** [x in o] for a string [x]. *)
Definition py_contains_str (o : pyval) (x : string) : res bool :=
  match o with
  | PDict d => Ok (match dict_lookup d (PStr x) with Some _ => true | None => false end)
  | PList l => Ok (existsb (py_key_eq (PStr x)) l)
  | PStr s => Ok (match String.index 0 x s with Some _ => true | None => false end)
  | _ => Raise TypeError
  end.

(** ** process_single_narrative *)

(** Step 1: dimensions; [(dimension_success, dimension_result, dimension_error)]. *)
Definition dimension_stage (cfg : BatchConfig) (env : Env) (key experiment_id : Z)
  : M (bool * pyval * option string) :=
  if include_dimensions cfg then
    try_except
      (dim_result <- run_dimension_evaluation env key experiment_id ;;
       has_error <- lift (py_contains_str dim_result "error") ;;
       let ok := negb has_error in
       _ <- db_insert (WEvaluation experiment_id "dimensions") ;;
       _ <- db_insert (WExperimentStatus experiment_id ok) ;;
       ret (ok, dim_result, None))
      (fun e => ret (false, PDict [], Some (exn_str e)))
  else ret (false, PDict [], None).

(** Steps 2-4: one questionnaire; [(result, questionnaire_id)]. *)
Definition questionnaire_stage (cfg : BatchConfig) (env : Env) (enabled : bool)
  (qtype : string) (key : Z) (narrative_text : pyval) (experiment_id : Z)
  (group_id : pyval) (narrative_id : Z)
  : M (option QuestionnaireResult * option Z) :=
  if enabled then
    r <- run_questionnaire_with_retry cfg env key narrative_text qtype ;;
    qid <- save_questionnaire_result r qtype experiment_id group_id narrative_id ;;
    ret (Some r, qid)
  else ret (None, None).

Definition process_single_narrative (cfg : BatchConfig) (env : Env) (key : Z)
  (narrative_text : pyval) (narrative_id experiment_id : Z) (group_id : pyval)
  : M NarrativeEvaluationResult :=
  dim <- dimension_stage cfg env key experiment_id ;;
  let '(dok, dres, derr) := dim in
  pcs <- questionnaire_stage cfg env (include_pcs cfg) "PCS" key narrative_text
           experiment_id group_id narrative_id ;;
  bpi <- questionnaire_stage cfg env (include_bpi_is cfg) "BPI-IS" key narrative_text
           experiment_id group_id narrative_id ;;
  tsk <- questionnaire_stage cfg env (include_tsk_11sv cfg) "TSK-11SV" key narrative_text
           experiment_id group_id narrative_id ;;
  ret (mkNER narrative_id narrative_text experiment_id dok dres derr
         (fst pcs) (fst bpi) (fst tsk) (snd pcs) (snd bpi) (snd tsk)).

(** ** Checkpoints *)

Definition checkpoint_data (processed_ids : list pyval) (group_id : pyval)
  (timestamp : string) (p : BatchProgress) : pyval :=
  PDict [(PStr "processed_ids", PList processed_ids);
         (PStr "group_id", group_id);
         (PStr "timestamp", PStr timestamp);
         (PStr "progress", PDict [(PStr "total", PInt (total p));
                                  (PStr "processed", PInt (processed p));
                                  (PStr "successful", PInt (successful p));
                                  (PStr "failed", PInt (failed p))])].

(** [if not self.config.checkpoint_file] *)
Definition configured_file (cfg : BatchConfig) : option string :=
  match checkpoint_file cfg with
  | Some EmptyString | None => None
  | Some p => Some p
  end.

Definition save_checkpoint (cfg : BatchConfig) (env : Env) (processed_ids : list pyval)
  (group_id : pyval) : M unit :=
  match configured_file cfg with
  | None => ret tt
  | Some path =>
      w <- get_world ;;
      text <- lift (json_dumps (checkpoint_data processed_ids group_id (env_now env)
                                  (w_progress w))) ;;
      write_file path text
  end.

Definition load_checkpoint (cfg : BatchConfig) : M pyval :=
  match configured_file cfg with
  | None => ret (PDict [])
  | Some path =>
      w <- get_world ;;
      match fs_read (w_fs w) path with
      | None => ret (PDict [])
      | Some text =>
          match json_loads text with
          | Ok v => ret v
          | Raise _ => ret (PDict [])
          end
      end
  end.

(** ** run_batch and run_batch_with_existing_narratives *)

Definition py_truthy (v : pyval) : bool :=
  match v with
  | PNone | PBool false | PInt Z0 | PStr EmptyString | PList [] | PDict [] => false
  | _ => true
  end.

Definition as_list (v : pyval) : res (list pyval) :=
  match v with
  | PList l => Ok l
  | _ => Raise TypeError
  end.

(** Python's [a % b] on ints. *)
Definition py_mod (a b : Z) : res Z :=
  if Z.eqb b 0 then Raise ZeroDivisionError else Ok (Z.modulo a b).

Definition set_results (rs : list NarrativeEvaluationResult) : M unit :=
  fun w => (Ok tt, mkWorld (w_log w) (w_fs w) (w_progress w) (w_processed_ids w) rs).

Definition update_progress (f : BatchProgress -> BatchProgress) : M unit :=
  w <- get_world ;; set_progress (f (w_progress w)).

Definition with_current (k : Z) (p : BatchProgress) : BatchProgress :=
  mkBatchProgress (total p) (processed p) (successful p) (failed p) (Some k).
Definition incr_processed (p : BatchProgress) : BatchProgress :=
  mkBatchProgress (total p) (processed p + 1) (successful p) (failed p) (current_narrative_id p).
Definition incr_successful (p : BatchProgress) : BatchProgress :=
  mkBatchProgress (total p) (processed p) (successful p + 1) (failed p) (current_narrative_id p).
Definition incr_failed (p : BatchProgress) : BatchProgress :=
  mkBatchProgress (total p) (processed p) (successful p) (failed p + 1) (current_narrative_id p).

Definition append_processed_id (k : Z) : M unit :=
  w <- get_world ;; set_processed_ids (w_processed_ids w ++ [PInt k]).

(** [result.dimension_success or (result.pcs_result and result.pcs_result.success)] *)
Definition counts_as_success (r : NarrativeEvaluationResult) : bool :=
  dimension_success r || match pcs_result r with Some q => success q | None => false end.

(** The [try] body of one loop iteration; [setup] creates the records that
    precede [process_single_narrative] and returns [(narrative_id, experiment_id)]. *)
Definition narrative_body (cfg : BatchConfig) (env : Env) (setup : Z -> pyval -> M (Z * Z))
  (group_id : pyval) (key : Z) (text : pyval) : M unit :=
  ids <- setup key text ;;
  let (narrative_id, experiment_id) := ids in
  result <- process_single_narrative cfg env key text narrative_id experiment_id group_id ;;
  _ <- append_result result ;;
  _ <- append_processed_id key ;;
  _ <- update_progress incr_processed ;;
  _ <- (if counts_as_success result then update_progress incr_successful
        else update_progress incr_failed) ;;
  w <- get_world ;;
  m <- lift (py_mod (processed (w_progress w)) (checkpoint_interval cfg)) ;;
  if Z.eqb m 0 then
    w' <- get_world ;; save_checkpoint cfg env (w_processed_ids w') group_id
  else ret tt.

(** The [except] branch of one loop iteration. *)
Definition narrative_failed (key : Z) : M unit :=
  _ <- update_progress incr_processed ;;
  _ <- update_progress incr_failed ;;
  append_processed_id key.

Fixpoint batch_loop (cfg : BatchConfig) (env : Env) (setup : Z -> pyval -> M (Z * Z))
  (group_id : pyval) (items : list (Z * pyval)) : M unit :=
  match items with
  | [] => ret tt
  | (key, text) :: rest =>
      w <- get_world ;;
      if existsb (py_key_eq (PInt key)) (w_processed_ids w) then
        batch_loop cfg env setup group_id rest
      else
        _ <- update_progress (with_current key) ;;
        _ <- emit (Started key) ;;
        _ <- try_except (narrative_body cfg env setup group_id key text)
                        (fun _ => narrative_failed key) ;;
        batch_loop cfg env setup group_id rest
  end.

Definition create_experiment_group (env : Env) : M Z :=
  _ <- db_insert (WExperimentsGroup (env_new_group env)) ;;
  ret (env_new_group env).

(** Shared driver of both entry points. *)
Definition run_batch_common (cfg : BatchConfig) (env : Env)
  (setup : pyval -> Z -> pyval -> M (Z * Z)) (items : list (Z * pyval)) (resume : bool)
  : M (list NarrativeEvaluationResult) :=
  checkpoint <- (if resume then load_checkpoint cfg else ret (PDict [])) ;;
  start <- (if py_truthy checkpoint && resume then
              ids <- lift (py_get checkpoint (PStr "processed_ids") (PList [])) ;;
              ids' <- lift (as_list ids) ;;
              g <- lift (py_get checkpoint (PStr "group_id") PNone) ;;
              ret (ids', g)
            else
              g <- create_experiment_group env ;;
              ret ([], PInt g)) ;;
  let (processed_ids, group_id) := start in
  _ <- set_results [] ;;
  _ <- set_processed_ids processed_ids ;;
  _ <- set_progress (mkBatchProgress (Z.of_nat (List.length items))
                       (Z.of_nat (List.length processed_ids)) 0 0 None) ;;
  _ <- batch_loop cfg env (setup group_id) group_id items ;;
  w <- get_world ;;
  _ <- save_checkpoint cfg env (w_processed_ids w) group_id ;;
  _ <- db_insert (WGroupConcluded group_id) ;;
  w' <- get_world ;;
  ret (w_results w').

(** The world [batch_tail] starts from on resume: the log and files of [w],
    results emptied, processed_ids [P] from the checkpoint and BatchProgress
    re-created as [BatchProgress(total=n, processed=len(P), successful=0, failed=0)]. *)
Definition resumed_start (w : World) (P : list pyval) (n : nat) : World :=
  mkWorld (w_log w) (w_fs w)
    (mkBatchProgress (Z.of_nat n) (Z.of_nat (List.length P)) 0 0 None) P [].

(** [create_narrative_record] followed by [register_new_experiment]. *)
Definition setup_new_narrative (env : Env) (group_id : pyval) (idx : Z) (text : pyval)
  : M (Z * Z) :=
  narrative_id <- lift (env_create_narrative env idx) ;;
  _ <- db_insert (WNarrative text) ;;
  experiment_id <- lift (env_register_experiment env narrative_id) ;;
  _ <- db_insert (WExperiment group_id narrative_id) ;;
  ret (narrative_id, experiment_id).

(** [register_new_experiment] for an existing narrative id. *)
Definition setup_existing_narrative (env : Env) (group_id : pyval) (narrative_id : Z)
  (_text : pyval) : M (Z * Z) :=
  experiment_id <- lift (env_register_experiment env narrative_id) ;;
  _ <- db_insert (WExperiment group_id narrative_id) ;;
  ret (narrative_id, experiment_id).

(** [run_batch]: the rows of the DataFrame as [(index label, narrative text)]. *)
Definition run_batch (cfg : BatchConfig) (env : Env) (rows : list (Z * pyval))
  (resume : bool) : M (list NarrativeEvaluationResult) :=
  run_batch_common cfg env (setup_new_narrative env) rows resume.

(** [run_batch_with_existing_narratives]: [(narrative_id, narrative_text)] pairs. *)
Definition run_batch_with_existing_narratives (cfg : BatchConfig) (env : Env)
  (narratives : list (Z * pyval)) (resume : bool) : M (list NarrativeEvaluationResult) :=
  run_batch_common cfg env (setup_existing_narrative env) narratives resume.

(** ** estimate_batch_cost (the token and call counts; the float cost and
    time fields are left out) *)

Record CostEstimate : Type := mkCostEstimate {
  num_narratives : Z;
  calls_per_narrative : Z;
  total_api_calls : Z;
  estimated_input_tokens : Z;
  estimated_output_tokens : Z
}.

Definition estimate_batch_cost (cfg : BatchConfig) (num_narratives avg_narrative_tokens : Z)
  : CostEstimate :=
  let calls_per_narrative :=
    (if include_dimensions cfg then 1 else 0) + (if include_pcs cfg then 1 else 0) +
    (if include_bpi_is cfg then 1 else 0) + (if include_tsk_11sv cfg then 1 else 0) in
  let total_calls := num_narratives * calls_per_narrative in
  let input_tokens_per_call := avg_narrative_tokens + 2000 in
  let output_tokens_per_call := 1500 in
  mkCostEstimate num_narratives calls_per_narrative total_calls
    (total_calls * input_tokens_per_call) (total_calls * output_tokens_per_call).

(** ** load_narratives_from_group and load_narratives_from_multiple_groups *)

(** Database rows: (experiment_id, narrative_id, narrative text) of the
    experiments of a group joined with their narratives, ordered by experiment id. *)
Definition load_narratives_from_group (query : Z -> list (Z * Z * pyval))
  (experiment_group_id : Z) : list (Z * pyval) :=
  map (fun '(_, nid, text) => (nid, text)) (query experiment_group_id).

Fixpoint add_unseen (seen : list Z) (narratives : list (Z * pyval))
  (rows : list (Z * Z * pyval)) : list Z * list (Z * pyval) :=
  match rows with
  | [] => (seen, narratives)
  | (_, nid, text) :: rows' =>
      if existsb (Z.eqb nid) seen then add_unseen seen narratives rows'
      else add_unseen (nid :: seen) (narratives ++ [(nid, text)])%list rows'
  end.

Fixpoint load_groups (query : Z -> list (Z * Z * pyval)) (seen : list Z)
  (narratives : list (Z * pyval)) (group_ids : list Z) : list (Z * pyval) :=
  match group_ids with
  | [] => narratives
  | g :: gs =>
      let (seen', narratives') := add_unseen seen narratives (query g) in
      load_groups query seen' narratives' gs
  end.

Definition load_narratives_from_multiple_groups (query : Z -> list (Z * Z * pyval))
  (experiment_group_ids : list Z) : list (Z * pyval) :=
  load_groups query [] [] experiment_group_ids.

(** ** Scenario definitions used by the statements below *)

(** The thirteen PCS question numbers. *)
Definition pcs_item_keys : list string :=
  ["1"; "2"; "3"; "4"; "5"; "6"; "7"; "8"; "9"; "10"; "11"; "12"; "13"].

Definition zsum (l : list Z) : Z := fold_right Z.add 0 l.

(** The integer a PCS item contributes: [int(scores.get(k, 0))] (0 if that raises). *)
Definition pcs_value (d : list (pyval * pyval)) (k : string) : Z :=
  match py_int (dict_get d (PStr k) (PInt 0)) with Ok z => z | Raise _ => 0 end.


(** ** Definitions used by the statements and proofs below *)

Definition key_string (k : pyval) : string :=
  match k with PStr a => a | _ => EmptyString end.



(** A client stub whose every response has the content "  " (blank after stripping). *)
Definition blank_response : pyval :=
  PDict [(PStr "choices",
          PList [PDict [(PStr "message", PDict [(PStr "content", PStr "  ")])]])].

(** A response whose content is blank for [str.strip()] but not ASCII:
    a no-break space, the separator 28, a next-line character and a tab. *)
Definition unicode_blank_response : pyval :=
  PDict [(PStr "choices",
          PList [PDict [(PStr "message", PDict [(PStr "content",
            PStr (String (ascii_of_nat 160) (String (ascii_of_nat 28)
                    (String (ascii_of_nat 133) (String (ascii_of_nat 9) EmptyString)))))])]])].

Definition empty_world : World := mkWorld [] [] (mkBatchProgress 0 0 0 0 None) [] [].

Definition stub_env (client : nat -> client_outcome) : Env :=
  mkEnv client (fun nid => Ok (100 + nid)) (fun nid => Ok (200 + nid)) 7
        (fun _ => PDict [(PStr "system_role", PStr "You are a rater.");
                         (PStr "instructions", PStr "Rate: {narrative}")])
        "2025-01-01T00:00:00".

Definition cfg_default : BatchConfig := mkBatchConfig 3 true true true true None 10.

Definition cfg_no_retries : BatchConfig := mkBatchConfig 0 true true true true None 10.

Definition not_json_response : pyval :=
  PDict [(PStr "choices",
          PList [PDict [(PStr "message", PDict [(PStr "content", PStr "not json")])]])].

Definition value_end (rest : string) : Prop :=
  match rest with EmptyString => True | String c _ => is_digit c = false end.

Section PyvalInd.
Variable P : pyval -> Prop.
Hypothesis HNone : P PNone.
Hypothesis HBool : forall b, P (PBool b).
Hypothesis HInt : forall z, P (PInt z).
Hypothesis HStr : forall s, P (PStr s).
Hypothesis HList : forall l, Forall P l -> P (PList l).
Hypothesis HDict : forall d, Forall (fun kv => P (snd kv)) d -> P (PDict d).

Fixpoint pyval_ind' (v : pyval) : P v :=
  match v with
  | PNone => HNone
  | PBool b => HBool b
  | PInt z => HInt z
  | PStr s => HStr s
  | PList l =>
      HList l ((fix go (l : list pyval) : Forall P l :=
                  match l with
                  | [] => Forall_nil _
                  | x :: xs => Forall_cons _ (pyval_ind' x) (go xs)
                  end) l)
  | PDict d =>
      HDict d ((fix go (d : list (pyval * pyval)) : Forall (fun kv => P (snd kv)) d :=
                  match d with
                  | [] => Forall_nil _
                  | kv :: d' => Forall_cons _ (pyval_ind' (snd kv)) (go d')
                  end) d)
  end.
End PyvalInd.

Fixpoint keys_distinct (d : list (pyval * pyval)) : bool :=
  match d with
  | [] => true
  | (PStr k, _) :: d' => negb (existsb (fun kv => py_key_eq (fst kv) (PStr k)) d') && keys_distinct d'
  | _ :: _ => false
  end.

Fixpoint json_wf (v : pyval) : bool :=
  match v with
  | PList l => forallb json_wf l
  | PDict d => keys_distinct d && forallb (fun kv => json_wf (snd kv)) d
  | _ => true
  end.

Fixpoint need (v : pyval) : nat :=
  match v with
  | PList l => S (fold_right (fun x n => S (need x + n)) 0%nat l)
  | PDict d => S (fold_right (fun kv n => S (need (snd kv) + n)) 0%nat d)
  | _ => 1%nat
  end.

Definition rt (v : pyval) : Prop :=
  forall lvl s, json_wf v = true -> dumps_at lvl v = Ok s ->
    (need v <= String.length s)%nat /\
    forall fuel rest, (need v <= fuel)%nat -> value_end rest ->
      parse_value fuel (s ++ rest) = POk v rest.

Definition cfg_checkpointed : BatchConfig :=
  mkBatchConfig 3 true true true true (Some "batch_checkpoint.json") 10.

(** ** Frames: which parts of the world a computation may change *)

(** Frame relations: how a computation may change the world. *)
Class Frame (R : World -> World -> Prop) : Prop := {
  frame_refl : forall w, R w w;
  frame_trans : forall w1 w2 w3, R w1 w2 -> R w2 w3 -> R w1 w3
}.

(** [m] keeps every world related to the one it started from. *)
Definition stays (R : World -> World -> Prop) {A} (m : M A) : Prop :=
  forall w, R w (snd (m w)).

(** Only the log changes, by appending events satisfying [Pe]. *)
Definition log_frame (Pe : event -> Prop) (w w' : World) : Prop :=
  (exists new, w_log w' = (w_log w ++ new)%list /\ Forall Pe new) /\
  w_fs w' = w_fs w /\ w_progress w' = w_progress w /\
  w_processed_ids w' = w_processed_ids w /\ w_results w' = w_results w.

Definition is_db_write (e : event) : Prop :=
  match e with DbWrite _ => True | _ => False end.

(** The events the work on narrative [key] may log. *)
Definition key_event (key : Z) (e : event) : Prop :=
  match e with
  | ModelCall k _ => k = key
  | DbWrite _ => True
  | Started _ => False
  end.

(** One iteration for [key]: events of [key] logged, [key] appended to processed_ids. *)
Definition key_step (key : Z) (w w' : World) : Prop :=
  exists new extra, w_log w' = (w_log w ++ new)%list /\ Forall (key_event key) new /\
    w_processed_ids w' = (w_processed_ids w ++ extra)%list /\ Forall (eq (PInt key)) extra.

(** [processed = n + successful + failed] and [total = t]. *)
Definition counts_ok (n t : Z) (p : BatchProgress) : Prop :=
  total p = t /\ processed p = n + successful p + failed p.

Definition prog_inv (n t : Z) (w w' : World) : Prop :=
  counts_ok n t (w_progress w) -> counts_ok n t (w_progress w').

(** After a run started from processed_ids [P]: [total = t],
    [processed = len(P) + successful + failed], processed_ids is [P]
    followed by the ids appended since, and these number exactly
    [successful + failed]. *)
Definition run_counts (P : list pyval) (t : Z) (w : World) : Prop :=
  counts_ok (Z.of_nat (List.length P)) t (w_progress w) /\
  exists new, w_processed_ids w = (P ++ new)%list /\
    successful (w_progress w) + failed (w_progress w) = Z.of_nat (List.length new).

Definition run_counts_inv (P : list pyval) (t : Z) (w w' : World) : Prop :=
  run_counts P t w -> run_counts P t w'.

Fixpoint started_keys (log : list event) : list Z :=
  match log with
  | [] => []
  | Started k :: l => k :: started_keys l
  | _ :: l => started_keys l
  end.

(** [key in processed_ids] *)
Definition inP (P : list pyval) (k : Z) : bool := existsb (py_key_eq (PInt k)) P.

#[export] Instance log_frame_Frame Pe : Frame (log_frame Pe).
Proof.
  split.
  - intro w. split; [exists []; rewrite List.app_nil_r; auto|auto].
  - intros w1 w2 w3 [[n1 [L1 F1]] [A1 [B1 [C1 D1]]]] [[n2 [L2 F2]] [A2 [B2 [C2 D2]]]].
    split; [exists (n1 ++ n2)%list; split|].
    + rewrite L2, L1, List.app_assoc; reflexivity.
    + apply Forall_app; auto.
    + repeat split; congruence.
Qed.

#[export] Instance key_step_Frame key : Frame (key_step key).
Proof.
  split.
  - intro w. exists [], []. rewrite !List.app_nil_r; auto.
  - intros w1 w2 w3 [n1 [e1 [L1 [F1 [I1 G1]]]]] [n2 [e2 [L2 [F2 [I2 G2]]]]].
    exists (n1 ++ n2)%list, (e1 ++ e2)%list.
    rewrite L2, L1, I2, I1, !List.app_assoc. repeat split; apply Forall_app; auto.
Qed.

#[export] Instance prog_inv_Frame n t : Frame (prog_inv n t).
Proof. split; unfold prog_inv; auto. Qed.

#[export] Instance run_counts_inv_Frame P t : Frame (run_counts_inv P t).
Proof. split; unfold run_counts_inv; auto. Qed.

Definition resumed_only (P : list pyval) (keys : list Z) (w w' : World) : Prop :=
  exists new, w_log w' = (w_log w ++ new)%list /\
    started_keys new = filter (fun k => negb (inP P k)) keys /\
    (forall k st, In (ModelCall k st) new -> In k keys /\ inP P k = false).

(** A response whose content is the given value serialised by [json_dumps]. *)
Definition resp_of (v : pyval) : pyval :=
  let c := match json_dumps v with Ok s => s | Raise _ => EmptyString end in
  PDict [(PStr "choices", PList [PDict [(PStr "message", PDict [(PStr "content", PStr c)])]])].

(** A response whose content is the empty JSON object [{}]: a successful
    dimension evaluation, a questionnaire response missing its field. *)
Definition object_response : pyval := resp_of (PDict []).

(** A valid PCS response. *)
Definition pcs_scores_response : pyval :=
  resp_of (PDict [(PStr "scores", PDict [(PStr "1", PInt 2)])]).

(** A BPI-IS response whose value is the string "3" instead of a number. *)
Definition bpi_text_value_response : pyval :=
  resp_of (PDict [(PStr "responses",
                   PList [PDict [(PStr "code", PStr "BPI_Q1_1"); (PStr "value", PStr "3")]])]).

(** Dimensions: not JSON; PCS: valid; every later call: [bpi_text_value_response]. *)
Definition client_pcs_then_bpi_text (n : nat) : client_outcome :=
  match n with
  | O => CReturn not_json_response
  | 1%nat => CReturn pcs_scores_response
  | _ => CReturn bpi_text_value_response
  end.

Definition cfg_interval0 : BatchConfig := mkBatchConfig 3 true false false false None 0.

(** The file system after a run that processed narrative 0 successfully
    (progress 1 processed, 1 successful) and saved its checkpoint. *)
Definition checkpointed_world : World :=
  snd (save_checkpoint cfg_checkpointed (stub_env (fun _ => CReturn object_response))
         [PInt 0] (PInt 7) (mkWorld [] [] (mkBatchProgress 2 1 1 0 (Some 0)) [PInt 0] [])).

(** The checkpoint record [checkpointed_world] holds. *)
Definition saved_checkpoint : pyval :=
  checkpoint_data [PInt 0] (PInt 7) "2025-01-01T00:00:00" (mkBatchProgress 2 1 1 0 (Some 0)).

(** A log event that writes a result of questionnaire [qtype] to the database. *)
Definition records_questionnaire (qtype : string) (e : event) : bool :=
  match e with
  | DbWrite (WQuestionnaire _ q _) | DbWrite (WEvaluation _ q) => String.eqb q qtype
  | _ => false
  end.

(** ** Definitions used by the statements about the remaining code *)

(** The world after one model call of [key] at [stage] and nothing else. *)
Definition call_world (key : Z) (stage : string) (w : World) : World :=
  mkWorld (w_log w ++ [ModelCall key stage])%list (w_fs w) (w_progress w)
          (w_processed_ids w) (w_results w).

(** [m] only appends to the log, with at most [n] model calls. *)
Definition calls_within (n : nat) (w w' : World) : Prop :=
  exists new, w_log w' = (w_log w ++ new)%list /\ (count_calls new <= n)%nat.

Definition within (n : nat) {A} (m : M A) : Prop :=
  forall w, calls_within n w (snd (m w)).

(** The most model calls [process_single_narrative] can make. *)
Definition per_narrative_calls (cfg : BatchConfig) : nat :=
  ((if include_dimensions cfg then 1 else 0) +
   (if include_pcs cfg then Z.to_nat (max_retries cfg) else 0) +
   (if include_bpi_is cfg then Z.to_nat (max_retries cfg) else 0) +
   (if include_tsk_11sv cfg then Z.to_nat (max_retries cfg) else 0))%nat.

(** The world after appending [l] to the log and nothing else. *)
Definition log_world (l : list event) (w : World) : World :=
  mkWorld (w_log w ++ l)%list (w_fs w) (w_progress w) (w_processed_ids w) (w_results w).

(** [run_batch_common] after the group and the progress are set up. *)
Definition batch_tail (cfg : BatchConfig) (env : Env) (setup : pyval -> Z -> pyval -> M (Z * Z))
  (g : pyval) (items : list (Z * pyval)) : M (list NarrativeEvaluationResult) :=
  _ <- batch_loop cfg env (setup g) g items ;;
  w1 <- get_world ;;
  _ <- save_checkpoint cfg env (w_processed_ids w1) g ;;
  _ <- db_insert (WGroupConcluded g) ;;
  w' <- get_world ;;
  ret (w_results w').

(** The processed ids never lose [v]. *)
Definition ids_keep (v : pyval) (w w' : World) : Prop :=
  In v (w_processed_ids w) -> In v (w_processed_ids w').

Definition int_ids (l : list pyval) : Prop := exists zs, l = map PInt zs.

(** First occurrence by narrative id, appended to [acc]. *)
Fixpoint dedup_rows (acc : list (Z * pyval)) (rows : list (Z * pyval)) : list (Z * pyval) :=
  match rows with
  | [] => acc
  | r :: rs => if existsb (Z.eqb (fst r)) (map fst acc) then dedup_rows acc rs
               else dedup_rows (acc ++ [r])%list rs
  end.

(** A valid PCS payload. *)
Definition pcs_payload : list (pyval * pyval) := [(PStr "scores", PDict [(PStr "1", PInt 2)])].

(** Two groups of the experiments table, with distinct narratives. *)
Definition two_groups (g : Z) : list (Z * Z * pyval) :=
  if Z.eqb g 1 then [(10, 1, PStr "My back hurts")] else [(11, 2, PStr "My knee hurts")].

(** * Theorems *)

(** ** Generic lemmas *)

Lemma sum_gen_ok {A} (f : A -> res Z) (g : A -> Z) (xs : list A) (acc : Z) :
  (forall x, In x xs -> f x = Ok (g x)) ->
  sum_gen f acc xs = Ok (acc + zsum (map g xs)).
Proof.
  revert acc; induction xs as [|x xs IH]; intros acc H; simpl.
  - f_equal; lia.
  - rewrite (H x (or_introl eq_refl)); simpl.
    rewrite IH by (intros; apply H; right; assumption). f_equal; lia.
Qed.

Lemma zsum_app (l1 l2 : list Z) : zsum (l1 ++ l2) = zsum l1 + zsum l2.
Proof. induction l1; simpl; [lia | rewrite IHl1; lia]. Qed.

Lemma zsum_perm (l1 l2 : list Z) : Permutation l1 l2 -> zsum l1 = zsum l2.
Proof. induction 1; simpl; lia. Qed.

Lemma py_key_eq_str (a : string) (k : pyval) : py_key_eq k (PStr a) = true <-> k = PStr a.
Proof.
  destruct k as [| | | s | |]; simpl; try (split; intro H; discriminate H).
  rewrite String.eqb_eq; split; intro H; [subst; reflexivity | injection H; auto].
Qed.

Lemma dict_lookup_in_str (d : list (pyval * pyval)) (a : string) (v : pyval) :
  NoDup (map fst d) -> In (PStr a, v) d -> dict_lookup d (PStr a) = Some v.
Proof.
  induction d as [|[k w] d IH]; simpl; intros Hnd Hin; [contradiction|].
  inversion Hnd as [|? ? Hnin Hnd']; subst.
  destruct Hin as [Heq | Hin].
  - injection Heq as -> ->. rewrite (proj2 (py_key_eq_str a (PStr a)) eq_refl). reflexivity.
  - destruct (py_key_eq k (PStr a)) eqn:E.
    + apply py_key_eq_str in E; subst. exfalso; apply Hnin.
      apply (in_map fst _ _ Hin).
    + apply IH; assumption.
Qed.

Lemma dict_lookup_in (d : list (pyval * pyval)) (k v : pyval) :
  dict_lookup d k = Some v -> exists k', In (k', v) d.
Proof.
  induction d as [|[k' w] d IH]; simpl; [discriminate|].
  destruct (py_key_eq k' k).
  - intro H; injection H as <-; exists k'; left; reflexivity.
  - intro H; destruct (IH H) as [k'' Hin]; exists k''; right; exact Hin.
Qed.

(** ** PCS scoring *)

Lemma pcs_item_value_ok (d : list (pyval * pyval)) (k : string) :
  (forall k v, In (k, v) d -> exists z, py_int v = Ok z) ->
  pcs_item_value (PDict d) k = Ok (pcs_value d k).
Proof.
  intros Hd. unfold pcs_item_value, pcs_value, py_get; simpl.
  unfold dict_get. destruct (dict_lookup d (PStr k)) as [v|] eqn:E; [|reflexivity].
  destruct (dict_lookup_in _ _ _ E) as [k' Hin].
  destruct (Hd _ _ Hin) as [z Hz]. rewrite Hz; reflexivity.
Qed.

Lemma sum_items_ok (d : list (pyval * pyval)) (items : list string) :
  (forall k v, In (k, v) d -> exists z, py_int v = Ok z) ->
  sum_items (PDict d) items = Ok (zsum (map (pcs_value d) items)).
Proof.
  intros Hd. unfold sum_items. rewrite (sum_gen_ok _ (pcs_value d)).
  - reflexivity.
  - intros x _; apply pcs_item_value_ok; exact Hd.
Qed.

Lemma pcs_item_keys_nodup : NoDup (map PStr pcs_item_keys).
Proof. simpl; repeat constructor; simpl; intuition discriminate. Qed.

Lemma sum_gen_ext {A} (f g : A -> res Z) (acc : Z) (xs : list A) :
  (forall x, f x = g x) -> sum_gen f acc xs = sum_gen g acc xs.
Proof.
  intro H. revert acc; induction xs as [|x xs IH]; intro acc; simpl; [reflexivity|].
  rewrite H. destruct (g x); simpl; [apply IH|reflexivity].
Qed.

Lemma lookup_gen_dict (d : list (pyval * pyval)) (k : pyval) :
  lookup_gen d k = dict_lookup d k.
Proof. induction d as [|[k' v] d IH]; simpl; [reflexivity|]. rewrite IH. reflexivity. Qed.

Lemma lookup_gen_in_str {V} (d : list (pyval * V)) (a : string) (v : V) :
  NoDup (map fst d) -> In (PStr a, v) d -> lookup_gen d (PStr a) = Some v.
Proof.
  induction d as [|[k w] d IH]; simpl; intros Hnd Hin; [contradiction|].
  inversion Hnd as [|? ? Hnin Hnd']; subst.
  destruct Hin as [Heq | Hin].
  - injection Heq as -> ->. rewrite (proj2 (py_key_eq_str a (PStr a)) eq_refl). reflexivity.
  - destruct (py_key_eq k (PStr a)) eqn:E.
    + apply py_key_eq_str in E; subst. exfalso; apply Hnin.
      apply (in_map fst _ _ Hin).
    + apply IH; assumption.
Qed.

Lemma lookup_gen_in {V} (d : list (pyval * V)) (k : pyval) (v : V) :
  lookup_gen d k = Some v -> exists k', In (k', v) d.
Proof.
  induction d as [|[k' w] d IH]; simpl; [discriminate|].
  destruct (py_key_eq k' k).
  - intro H; injection H as <-; exists k'; left; reflexivity.
  - intro H; destruct (IH H) as [k'' Hin]; exists k''; right; exact Hin.
Qed.

Lemma pcs_item_gen_ok {V} (int_ : V -> res Z) (zero : V) (d : list (pyval * V)) (k : string) :
  int_ zero = Ok 0 ->
  (forall k v, In (k, v) d -> exists z, int_ v = Ok z) ->
  pcs_item_gen int_ zero d k = Ok (pcs_value_gen int_ zero d k).
Proof.
  intros H0 Hd. unfold pcs_value_gen, pcs_item_gen.
  destruct (lookup_gen d (PStr k)) as [v|] eqn:E.
  - destruct (lookup_gen_in _ _ _ E) as [k' Hin].
    destruct (Hd _ _ Hin) as [z Hz]. rewrite Hz; reflexivity.
  - rewrite H0; reflexivity.
Qed.

Lemma sum_items_gen_ok {V} (int_ : V -> res Z) (zero : V) (d : list (pyval * V)) items :
  int_ zero = Ok 0 ->
  (forall k v, In (k, v) d -> exists z, int_ v = Ok z) ->
  sum_gen (pcs_item_gen int_ zero d) 0 items = Ok (zsum (map (pcs_value_gen int_ zero d) items)).
Proof.
  intros H0 Hd. rewrite (sum_gen_ok _ (pcs_value_gen int_ zero d)).
  - reflexivity.
  - intros x _; apply pcs_item_gen_ok; assumption.
Qed.

(** C7: for a scores mapping whose values are of any type, with any [int()]
    that maps the default 0 to 0 and succeeds on every value (ints, bools,
    numeric strings, floats, ...): each subscale (rumination 8-11,
    magnification 6, 7, 13, helplessness 1-5, 12) is the sum of its items'
    integer values, an item missing from the mapping contributes 0, and when
    the keys are exactly "1" to "13" the PCS total is the integer sum of the
    thirteen values and the three subscales add up to it.  The methods
    [calculate_pcs_total_score] and [calculate_pcs_subscales] are these
    computations on the result's scores dict, with Python's [int()] on its
    values ([py_int]). *)
Theorem pcs_scores_partition :
  (forall (V : Type) (int_ : V -> res Z) (zero : V) (d : list (pyval * V)),
     int_ zero = Ok 0 ->
     (forall k v, In (k, v) d -> exists z, int_ v = Ok z) ->
     exists s, pcs_subscales_gen int_ zero d = Ok s /\
       rumination s = zsum (map (pcs_value_gen int_ zero d) rumination_items) /\
       magnification s = zsum (map (pcs_value_gen int_ zero d) magnification_items) /\
       helplessness s = zsum (map (pcs_value_gen int_ zero d) helplessness_items) /\
       (forall k, lookup_gen d (PStr k) = None -> pcs_value_gen int_ zero d k = 0) /\
       (Permutation (map fst d) (map PStr pcs_item_keys) ->
          pcs_total_gen int_ d = Ok (zsum (map (pcs_value_gen int_ zero d) pcs_item_keys)) /\
          rumination s + magnification s + helplessness s
            = zsum (map (pcs_value_gen int_ zero d) pcs_item_keys))) /\
  (forall (r : QuestionnaireResult) (d : list (pyval * pyval)),
     qr_scores r = PDict d ->
     calculate_pcs_total_score r = pcs_total_gen py_int d /\
     calculate_pcs_subscales r = pcs_subscales_gen py_int (PInt 0) d).
Proof.
  split.
  - intros V int_ zero d H0 Hd.
    eexists; split.
    { unfold pcs_subscales_gen. rewrite !sum_items_gen_ok by assumption. reflexivity. }
    simpl. split; [reflexivity|]. split; [reflexivity|]. split; [reflexivity|].
    split.
    { intros k Hk. unfold pcs_value_gen, pcs_item_gen. rewrite Hk, H0. reflexivity. }
    intros Hperm. split.
    + unfold pcs_total_gen.
      set (g := fun v => match int_ v with Ok z => z | Raise _ => 0 end).
      rewrite (sum_gen_ok int_ g).
      2:{ intros v Hv. apply in_map_iff in Hv as [[k w] [Hw Hin]]; simpl in Hw; subst w.
          destruct (Hd _ _ Hin) as [z Hz]. unfold g; rewrite Hz; reflexivity. }
      f_equal. rewrite List.map_map.
      assert (Hnd : NoDup (map fst d)).
      { apply (Permutation_NoDup (Permutation_sym Hperm)), pcs_item_keys_nodup. }
      rewrite (map_ext_in (fun x => g (snd x))
                 (fun x => pcs_value_gen int_ zero d (key_string (fst x)))).
      * rewrite <- (List.map_map fst (fun k => pcs_value_gen int_ zero d (key_string k))).
        rewrite (zsum_perm _ _ (Permutation_map (fun k => pcs_value_gen int_ zero d (key_string k)) Hperm)).
        reflexivity.
      * intros [k v] Hin; simpl.
        assert (Hk : In k (map PStr pcs_item_keys)).
        { apply (Permutation_in _ Hperm). apply (in_map fst _ _ Hin). }
        apply in_map_iff in Hk as [a [<- _]]. simpl.
        unfold pcs_value_gen, pcs_item_gen. rewrite (lookup_gen_in_str d a v Hnd Hin).
        reflexivity.
    + unfold zsum, pcs_item_keys, rumination_items, magnification_items, helplessness_items.
      simpl. lia.
  - intros r d Hs. split.
    + unfold calculate_pcs_total_score, pcs_total_gen. rewrite Hs. reflexivity.
    + unfold calculate_pcs_subscales, pcs_subscales_gen, sum_items. rewrite Hs.
      cbv zeta.
      rewrite !(sum_gen_ext (pcs_item_value (PDict d)) (pcs_item_gen py_int (PInt 0) d)).
      1: reflexivity.
      all: intro k; unfold pcs_item_value, pcs_item_gen, py_get, dict_get; cbn [bind];
        rewrite ?lookup_gen_dict; reflexivity.
Qed.

(** Scores given as ints, a bool and the strings "1_0" and "\xa03" (with a
    no-break space), all accepted by [int()]. *)
Lemma pcs_scores_partition_witness :
  let d := [(PStr "1", PInt 2); (PStr "2", PBool true); (PStr "3", PStr "1_0");
            (PStr "4", PStr (String (ascii_of_nat 160) "3")); (PStr "5", PInt 4);
            (PStr "6", PInt 2); (PStr "7", PInt 3); (PStr "8", PInt 1); (PStr "9", PInt 2);
            (PStr "10", PInt 4); (PStr "11", PInt 0); (PStr "12", PInt 3); (PStr "13", PInt 1)] in
  let r := mkQR "PCS" true [(PStr "scores", PDict d)] PNone [] None in
  qr_scores r = PDict d /\
  py_int (PInt 0) = Ok 0 /\
  (forall k v, In (k, v) d -> exists z, py_int v = Ok z) /\
  Permutation (map fst d) (map PStr pcs_item_keys) /\
  calculate_pcs_total_score r = Ok (zsum (map (pcs_value_gen py_int (PInt 0) d) pcs_item_keys)) /\
  zsum (map (pcs_value_gen py_int (PInt 0) d) pcs_item_keys) = 36 /\
  exists s, calculate_pcs_subscales r = Ok s /\
    rumination s + magnification s + helplessness s = 36.
Proof.
  intros d r.
  assert (H1 : qr_scores r = PDict d) by reflexivity.
  assert (H0 : py_int (PInt 0) = Ok 0) by reflexivity.
  assert (H2 : forall k v, In (k, v) d -> exists z, py_int v = Ok z).
  { intros k v Hin. simpl in Hin.
    repeat (destruct Hin as [Hin | Hin]; [injection Hin as <- <-; eexists; vm_compute; reflexivity|]).
    destruct Hin. }
  assert (Hp : Permutation (map fst d) (map PStr pcs_item_keys)) by (simpl; apply Permutation_refl).
  destruct pcs_scores_partition as [Hg Hc].
  destruct (Hc r d H1) as [Et Es].
  destruct (Hg pyval py_int (PInt 0) d H0 H2) as [s [Hs [_ [_ [_ [_ Hperm]]]]]].
  destruct (Hperm Hp) as [Ht Hsum].
  split; [exact H1|]. split; [exact H0|]. split; [exact H2|]. split; [exact Hp|].
  split; [rewrite Et; exact Ht|]. split; [vm_compute; reflexivity|].
  exists s. split; [rewrite Es; exact Hs|]. rewrite Hsum. vm_compute. reflexivity.
Defined.

(** ** BPI-IS scoring *)















(** ** run_questionnaire *)

(** C8: when the model client returns a response whose extracted content
    is empty after [.strip()] (which removes every [isspace()] character,
    the non-ASCII ones included), [run_questionnaire] returns, without
    raising, a result with [success = False] and the error
    "Model returned empty response". *)
Theorem run_questionnaire_empty_content (env : Env) (key : Z) (narrative qtype sr ins : string)
  (w : World) (resp : pyval) :
  env_client env (count_calls (w_log w)) = CReturn resp ->
  extract_content resp = Ok EmptyString ->
  exists q,
    fst (run_questionnaire env key (PStr narrative) qtype (PStr sr) (PStr ins) w) = Ok q /\
    success q = false /\ error q = Some "Model returned empty response" /\
    raw_response q = resp.
Proof.
  intros Hc He.
  unfold run_questionnaire, mbind, ret, lift, try_except, create_completion.
  simpl. rewrite Hc. simpl. rewrite He. simpl.
  eexists; repeat split.
Qed.

Lemma run_questionnaire_empty_content_witness :
  env_client (stub_env (fun _ => CReturn unicode_blank_response)) (count_calls (w_log empty_world))
    = CReturn unicode_blank_response /\
  extract_content unicode_blank_response = Ok EmptyString /\
  exists q,
    fst (run_questionnaire (stub_env (fun _ => CReturn unicode_blank_response)) 1 (PStr "It hurts")
           "PCS" (PStr "sys") (PStr "Rate: {narrative}") empty_world) = Ok q /\
    success q = false /\ error q = Some "Model returned empty response" /\
    raw_response q = unicode_blank_response.
Proof.
  split; [reflexivity|]. split; [vm_compute; reflexivity|].
  apply run_questionnaire_empty_content; [reflexivity | vm_compute; reflexivity].
Defined.

(** ** _run_questionnaire_with_retry *)

Lemma count_calls_app (l1 l2 : list event) :
  count_calls (l1 ++ l2) = (count_calls l1 + count_calls l2)%nat.
Proof. unfold count_calls. rewrite filter_app, length_app. reflexivity. Qed.

Lemma retry_loop_all_raise (n : nat) (result : option QuestionnaireResult)
  (attempt : M QuestionnaireResult) (w : World) :
  (forall w', exists e, attempt w' = (Raise e, w')) ->
  retry_loop n result attempt w
    = (match result with Some r => Ok r | None => Raise UnboundLocalError end, w).
Proof.
  intros Ha. revert w; induction n as [|n IH]; intro w; simpl.
  - destruct result; reflexivity.
  - destruct (Ha w) as [e ->]. apply IH.
Qed.

Lemma run_questionnaire_none_raises (env : Env) (key : Z) (qtype : string)
  (sr ins : pyval) (w : World) :
  exists e, run_questionnaire env key PNone qtype sr ins w = (Raise e, w).
Proof.
  unfold run_questionnaire, mbind, ret, lift, throw.
  destruct sr, ins; cbn -[try_except];
    repeat match goal with
    | |- context [py_get ?o ?k ?d] => destruct o; cbn -[try_except]
    | |- context [match dict_get ?d ?k ?x with _ => _ end] =>
        destruct (dict_get d k x); cbn -[try_except]
    end;
    eexists; reflexivity.
Qed.

Lemma retry_attempt_raises_on_none (env : Env) (key : Z) (qtype : string) (w : World) :
  exists e,
    (sr <- lift (py_get (env_questionnaire_prompt env qtype) (PStr "system_role") PNone) ;;
     ins <- lift (py_get (env_questionnaire_prompt env qtype) (PStr "instructions") PNone) ;;
     run_questionnaire env key PNone qtype sr ins) w = (Raise e, w).
Proof.
  unfold mbind at 1, lift at 1.
  destruct (py_get (env_questionnaire_prompt env qtype) (PStr "system_role") PNone)
    as [sr|e]; [|exists e; reflexivity].
  unfold mbind at 1, lift at 1.
  destruct (py_get (env_questionnaire_prompt env qtype) (PStr "instructions") PNone)
    as [ins|e]; [|exists e; reflexivity].
  apply run_questionnaire_none_raises.
Qed.

(** C2 (failing input): with the narrative text [None], every attempt raises
    [TypeError] in [instructions.replace("{narrative}", None)] before the
    model is called, [result] is never assigned, and the final [return result]
    raises [UnboundLocalError], whatever [max_retries] is; no model call is
    made and the state is unchanged. *)
Theorem retry_raises_unbound_when_every_attempt_raises (cfg : BatchConfig) (env : Env)
  (key : Z) (qtype : string) (w : World) :
  run_questionnaire_with_retry cfg env key PNone qtype w = (Raise UnboundLocalError, w).
Proof.
  unfold run_questionnaire_with_retry.
  apply retry_loop_all_raise. intro w'. apply retry_attempt_raises_on_none.
Qed.

(** C5 (failing input): with [max_retries = 0] (or less) the loop body never
    runs and [return result] raises [UnboundLocalError]. *)
Theorem retry_zero_max_retries_raises (cfg : BatchConfig) (env : Env) (key : Z)
  (text : pyval) (qtype : string) (w : World) :
  max_retries cfg <= 0 ->
  run_questionnaire_with_retry cfg env key text qtype w = (Raise UnboundLocalError, w).
Proof.
  intros H. unfold run_questionnaire_with_retry.
  replace (Z.to_nat (max_retries cfg)) with O by lia. reflexivity.
Qed.

Lemma retry_zero_max_retries_raises_witness :
  max_retries cfg_no_retries <= 0 /\
  run_questionnaire_with_retry cfg_no_retries (stub_env (fun _ => CReturn blank_response))
    1 (PStr "It hurts") "PCS" empty_world = (Raise UnboundLocalError, empty_world).
Proof.
  split; [simpl; lia|].
  apply retry_zero_max_retries_raises. simpl; lia.
Defined.

(** When every attempt returns a failed result and makes one model call,
    [n + 1] iterations return the last attempt's result after [n + 1] calls. *)
Lemma retry_loop_all_fail (n : nat) (result : option QuestionnaireResult)
  (attempt : M QuestionnaireResult) (E : nat -> option string) (w : World) :
  (forall w', exists q w'', attempt w' = (Ok q, w'') /\ success q = false /\
     error q = E (count_calls (w_log w')) /\
     count_calls (w_log w'') = S (count_calls (w_log w'))) ->
  exists q w', retry_loop (S n) result attempt w = (Ok q, w') /\ success q = false /\
    error q = E (count_calls (w_log w) + n)%nat /\
    count_calls (w_log w') = (count_calls (w_log w) + S n)%nat.
Proof.
  intros Ha. revert result w; induction n as [|n IH]; intros result w.
  - destruct (Ha w) as [q [w'' [E1 [E2 [E3 E4]]]]].
    simpl. rewrite E1, E2. exists q, w''.
    split; [reflexivity|]. split; [exact E2|]. split; [rewrite E3; f_equal; lia | lia].
  - destruct (Ha w) as [q [w'' [E1 [E2 [E3 E4]]]]].
    change (retry_loop (S (S n)) result attempt w)
      with (let (r, w') := attempt w in
            match r with
            | Ok q => if success q then (Ok q, w') else retry_loop (S n) (Some q) attempt w'
            | Raise _ => retry_loop (S n) result attempt w'
            end).
    rewrite E1, E2.
    destruct (IH (Some q) w'') as [q' [w' [F1 [F2 [F3 F4]]]]].
    exists q', w'. split; [exact F1|]. split; [exact F2|].
    rewrite F3, F4, E4. split; [f_equal; lia | lia].
Qed.

Lemma run_questionnaire_malformed (env : Env) (key : Z) (text qtype sr ins : string)
  (w : World) (resp : pyval) (s : string) (m : string) :
  env_client env (count_calls (w_log w)) = CReturn resp ->
  extract_content resp = Ok s -> s <> EmptyString ->
  json_loads (extract_json_from_text s) = Raise (JSONDecodeError m) ->
  exists q w', run_questionnaire env key (PStr text) qtype (PStr sr) (PStr ins) w = (Ok q, w') /\
    success q = false /\ error q = Some ("Could not parse JSON response: " ++ m) /\
    count_calls (w_log w') = S (count_calls (w_log w)).
Proof.
  intros Hc He Hs Hj.
  unfold run_questionnaire, mbind, ret, lift, try_except, create_completion.
  simpl. rewrite Hc. simpl. rewrite He. simpl.
  destruct s as [|a s]; [contradiction|].
  unfold parse_questionnaire_response. rewrite Hj. simpl.
  eexists; eexists; repeat split.
  cbn [w_log]. rewrite count_calls_app. change (count_calls [ModelCall key qtype]) with 1%nat. lia.
Qed.

(** Retry exhaustion for [max_retries >= 1]: when every response of the
    client has non-empty content that is not JSON, the model is called
    exactly [max_retries] times and the failed result of the last attempt,
    carrying that attempt's decode message, is returned. *)
Lemma retry_exhaustion_malformed (cfg : BatchConfig) (env : Env) (key : Z)
  (text qtype sr ins : string) (p : list (pyval * pyval)) (msg : nat -> string) (w : World) :
  1 <= max_retries cfg ->
  env_questionnaire_prompt env qtype = PDict p ->
  dict_get p (PStr "system_role") PNone = PStr sr ->
  dict_get p (PStr "instructions") PNone = PStr ins ->
  (forall i, exists resp s, env_client env i = CReturn resp /\ extract_content resp = Ok s /\
     s <> EmptyString /\ json_loads (extract_json_from_text s) = Raise (JSONDecodeError (msg i))) ->
  exists q w',
    run_questionnaire_with_retry cfg env key (PStr text) qtype w = (Ok q, w') /\
    success q = false /\
    error q = Some ("Could not parse JSON response: "
                    ++ msg (count_calls (w_log w) + Z.to_nat (max_retries cfg) - 1)%nat) /\
    count_calls (w_log w') = (count_calls (w_log w) + Z.to_nat (max_retries cfg))%nat.
Proof.
  intros Hn Hp Hsr Hins Hc.
  unfold run_questionnaire_with_retry. rewrite Hp.
  destruct (Z.to_nat (max_retries cfg)) as [|n] eqn:En; [lia|].
  destruct (retry_loop_all_fail n None
              (sr <- lift (py_get (PDict p) (PStr "system_role") PNone) ;;
               ins <- lift (py_get (PDict p) (PStr "instructions") PNone) ;;
               run_questionnaire env key (PStr text) qtype sr ins)
              (fun c => Some ("Could not parse JSON response: " ++ msg c)) w)
    as [q [w' [E1 [E2 [E3 E4]]]]].
  { intro w0. unfold mbind at 1 2, lift at 1 2. simpl py_get. rewrite Hsr, Hins.
    destruct (Hc (count_calls (w_log w0))) as [resp [s [C1 [C2 [C3 C4]]]]].
    exact (run_questionnaire_malformed env key text qtype sr ins w0 resp s _ C1 C2 C3 C4). }
  exists q, w'. split; [exact E1|]. split; [exact E2|]. split; [|exact E4].
  rewrite E3. do 3 f_equal. lia.
Qed.

Lemma retry_exhaustion_malformed_example :
  exists q w',
    run_questionnaire_with_retry cfg_default (stub_env (fun _ => CReturn not_json_response))
      1 (PStr "It hurts") "PCS" empty_world = (Ok q, w') /\
    success q = false /\
    error q = Some ("Could not parse JSON response: " ++ "Expecting value: char 0") /\
    count_calls (w_log w') = 3%nat.
Proof.
  destruct (retry_exhaustion_malformed cfg_default (stub_env (fun _ => CReturn not_json_response))
              1 "It hurts" "PCS" "You are a rater." "Rate: {narrative}"
              [(PStr "system_role", PStr "You are a rater.");
               (PStr "instructions", PStr "Rate: {narrative}")]
              (fun _ => "Expecting value: char 0") empty_world)
    as [q [w' H]]; try reflexivity.
  - simpl; lia.
  - intro i. exists not_json_response, "not json".
    split; [reflexivity|]. split; [vm_compute; reflexivity|].
    split; [discriminate | vm_compute; reflexivity].
  - exists q, w'. exact H.
Qed.

(** ** JSON: [json.loads(json.dumps(v, indent=2)) = v] *)

Lemma span_digits_uint (u : Decimal.uint) (rest : string) :
  value_end rest -> span_digits (uint_str u ++ rest) = (uint_str u, rest).
Proof.
  intros H. induction u; simpl; try (rewrite IHu; reflexivity).
  destruct rest as [|c r]; simpl in *; [reflexivity|]. rewrite H. reflexivity.
Qed.

Lemma digits_val_uint_acc (u : Decimal.uint) (acc : positive) :
  digits_val (uint_str u) (Zpos acc) = Some (Zpos (Pos.of_uint_acc u acc)).
Proof.
  revert acc; induction u; intro acc; cbn [uint_str digits_val Pos.of_uint_acc];
    try reflexivity;
    match goal with |- context [digit_val ?c] =>
      let v := eval vm_compute in (digit_val c) in change (digit_val c) with v
    end; cbv beta iota;
    rewrite <- IHu; f_equal; rewrite ?Pos2Z.inj_add, ?Pos2Z.inj_mul; lia.
Qed.

Lemma uint_head (p : positive) :
  match Pos.to_uint p with Decimal.Nil | Decimal.D0 _ => False | _ => True end.
Proof.
  pose proof (DecimalPos.Unsigned.to_uint_nonzero p) as Hz.
  pose proof (DecimalPos.Unsigned.to_of (Pos.to_uint p)) as Ht.
  rewrite DecimalPos.Unsigned.of_to in Ht. simpl in Ht.
  destruct (Pos.to_uint p) as [|l|l|l|l|l|l|l|l|l|l] eqn:E; auto;
    try exact (DecimalPos.Unsigned.to_uint_nonnil p E).
  - rewrite DecimalFacts.unorm_D0 in Ht. unfold Decimal.unorm in Ht.
    destruct (Decimal.nzhead l) eqn:E2; try discriminate.
    + apply Hz. exact Ht.
    + exact (DecimalFacts.nzhead_nonzero l u E2).
Qed.

Lemma digits_val_to_uint (p : positive) :
  digits_val (uint_str (Pos.to_uint p)) 0 = Some (Zpos p).
Proof.
  pose proof (DecimalPos.Unsigned.of_to p) as Ho.
  pose proof (uint_head p) as Hh.
  destruct (Pos.to_uint p) as [|l|l|l|l|l|l|l|l|l|l]; try contradiction;
    cbn [uint_str digits_val];
    match goal with |- context [digit_val ?c] =>
      let v := eval vm_compute in (digit_val c) in change (digit_val c) with v
    end; cbv beta iota;
    simpl Pos.of_uint in Ho; injection Ho as Ho; rewrite <- Ho;
    apply digits_val_uint_acc.
Qed.

Lemma parse_int_str_of_Z (z : Z) (rest : string) :
  value_end rest -> parse_int (str_of_Z z ++ rest) = POk (PInt z) rest.
Proof.
  intros H. destruct z as [|p|p].
  - unfold parse_int. cbn [str_of_Z append].
    destruct rest as [|c r]; simpl in *; [reflexivity|]. rewrite H. reflexivity.
  - pose proof (digits_val_to_uint p) as Hv.
    pose proof (span_digits_uint (Pos.to_uint p) rest H) as Hs.
    pose proof (uint_head p) as Hh.
    unfold parse_int, str_of_Z.
    destruct (Pos.to_uint p) as [|l|l|l|l|l|l|l|l|l|l]; try contradiction;
      cbn [uint_str append] in *; rewrite Hs; cbv iota beta; rewrite Hv; reflexivity.
  - pose proof (digits_val_to_uint p) as Hv.
    pose proof (span_digits_uint (Pos.to_uint p) rest H) as Hs.
    pose proof (uint_head p) as Hh.
    unfold parse_int, str_of_Z.
    destruct (Pos.to_uint p) as [|l|l|l|l|l|l|l|l|l|l]; try contradiction;
      cbn [uint_str append] in *; rewrite Hs; cbv iota beta; rewrite Hv; reflexivity.
Qed.

Lemma str_app_assoc (a b c : string) : (a ++ b) ++ c = a ++ (b ++ c).
Proof. induction a; simpl; [reflexivity | rewrite IHa; reflexivity]. Qed.

Lemma str_app_length (a b : string) : String.length (a ++ b) = (String.length a + String.length b)%nat.
Proof. induction a; simpl; [reflexivity | rewrite IHa; reflexivity]. Qed.

Lemma parse_escape_char (c : ascii) (r : string) :
  parse_str (escape_char c ++ r) = cons_fst c (parse_str r).
Proof.
  destruct c as [[] [] [] [] [] [] [] []]; reflexivity.
Qed.

Lemma parse_str_quote (s rest : string) :
  parse_str (escape_str s ++ String qchar rest) = Some (s, rest).
Proof.
  induction s as [|c s IH]; [reflexivity|].
  simpl escape_str. rewrite str_app_assoc, parse_escape_char, IH. reflexivity.
Qed.

Lemma skip_ws_spaces (n : nat) (s : string) : skip_ws (spaces n ++ s) = skip_ws s.
Proof. induction n; simpl; [reflexivity | exact IHn]. Qed.

Lemma skip_ws_nl_ind (k : nat) (s : string) : skip_ws (nl_ind k ++ s) = skip_ws s.
Proof. unfold nl_ind. simpl. apply skip_ws_spaces. Qed.

Lemma parse_value_nl_ind (f k : nat) (s : string) :
  parse_value (S f) (nl_ind k ++ s) = parse_value (S f) s.
Proof. cbn [parse_value]. rewrite skip_ws_nl_ind. reflexivity. Qed.

Lemma parse_value_space (f : nat) (s : string) :
  parse_value (S f) (String " " s) = parse_value (S f) s.
Proof. reflexivity. Qed.

Lemma dumps_at_head (lvl : nat) (v : pyval) (s : string) :
  dumps_at lvl v = Ok s -> exists c t, s = String c t /\ is_json_ws c = false /\ c <> "]"%char.
Proof.
  intros H. destruct v as [|[]|[|p|p]|str|[|x l]|[|kv d]]; cbn [dumps_at] in H;
    try (injection H as <-; eexists; eexists; split; [reflexivity | split; [reflexivity | discriminate]]).
  - pose proof (uint_head p) as Hh. injection H as <-. unfold str_of_Z.
    destruct (Pos.to_uint p); try contradiction; cbn [uint_str];
      (eexists; eexists; split; [reflexivity | split; [reflexivity | discriminate]]).
  - destruct (dump_elems (dumps_at (S lvl)) lvl (x :: l)); cbn [bind] in H; [|discriminate].
    injection H as <-. eexists; eexists; split; [reflexivity | split; [reflexivity | discriminate]].
  - destruct (dump_members (dumps_at (S lvl)) lvl (kv :: d)); cbn [bind] in H; [|discriminate].
    injection H as <-. eexists; eexists; split; [reflexivity | split; [reflexivity | discriminate]].
Qed.

Lemma rbracket_other (c : ascii) (t : string) (f : nat) (r : string) :
  c <> "]"%char ->
  match String c t with
  | String "]" r' => POk (PList []) r'
  | _ => parse_elems f [] r
  end = parse_elems f [] r.
Proof.
  intros H; destruct c as [[] [] [] [] [] [] [] []]; try reflexivity.
  exfalso; apply H; reflexivity.
Qed.

Lemma skip_ws_nonws (c : ascii) (s : string) :
  is_json_ws c = false -> skip_ws (String c s) = String c s.
Proof. intros H; simpl; rewrite H; reflexivity. Qed.

Lemma skip_ws_dump (lvl : nat) (v : pyval) (s rest : string) :
  dumps_at lvl v = Ok s -> skip_ws (s ++ rest) = s ++ rest.
Proof.
  intros H. destruct (dumps_at_head lvl v s H) as [c [t [-> [Hw _]]]].
  simpl; rewrite Hw; reflexivity.
Qed.

Lemma parse_value_int (f : nat) (z : Z) (rest : string) :
  value_end rest -> parse_value (S f) (str_of_Z z ++ rest) = POk (PInt z) rest.
Proof.
  intros H. pose proof (parse_int_str_of_Z z rest H) as Hp. revert Hp.
  unfold str_of_Z. destruct z as [|p|p].
  - cbn -[parse_int]. auto.
  - pose proof (uint_head p) as Hh.
    destruct (Pos.to_uint p); try contradiction; cbn -[parse_int]; auto.
  - cbn -[parse_int]. auto.
Qed.

Lemma spaces_length (n : nat) : String.length (spaces n) = n.
Proof. induction n; simpl; auto. Qed.

Lemma nl_ind_length (k : nat) : String.length (nl_ind k) = S (2 * k).
Proof. unfold nl_ind. simpl. rewrite spaces_length. reflexivity. Qed.

Lemma py_key_eq_sym (a b : pyval) : py_key_eq a b = py_key_eq b a.
Proof.
  destruct a, b; simpl; try reflexivity;
    try apply String.eqb_sym; try apply Z.eqb_sym;
    try (destruct b; destruct b0; reflexivity).
Qed.

Lemma dict_set_fresh (acc : list (pyval * pyval)) (k v : pyval) :
  (forall kv', In kv' acc -> py_key_eq (fst kv') k = false) ->
  dict_set acc k v = (acc ++ [(k, v)])%list.
Proof.
  induction acc as [|[k' v'] acc IH]; intros H; simpl; [reflexivity|].
  pose proof (H (k', v') (or_introl eq_refl)) as Hk; simpl in Hk. rewrite Hk. f_equal.
  apply IH. intros; apply H; right; assumption.
Qed.

Lemma ok_inj {A} (a b : A) : Ok a = Ok b -> a = b.
Proof. intro H; injection H; auto. Qed.

Lemma need_pos (v : pyval) : (1 <= need v)%nat.
Proof. destruct v; simpl; lia. Qed.

Lemma elems_rt (lvl : nat) (l : list pyval) (t : string) :
  l <> [] -> Forall rt l -> forallb json_wf l = true ->
  dump_elems (dumps_at (S lvl)) lvl l = Ok t ->
  (fold_right (fun x n => S (need x + n)) 0%nat l <= String.length t)%nat /\
  forall fuel acc rest, (fold_right (fun x n => S (need x + n)) 0%nat l <= fuel)%nat ->
    parse_elems fuel acc (t ++ rest) = POk (PList (acc ++ l)%list) rest.
Proof.
  revert t; induction l as [|x xs IH]; intros t Hne Hrt Hwf Hd; [contradiction|].
  inversion Hrt as [|? ? Hx Hxs]; subst.
  simpl in Hwf; apply andb_prop in Hwf as [Hwx Hwxs].
  cbn [dump_elems] in Hd.
  destruct (dumps_at (S lvl) x) as [s|e] eqn:Ex; cbn [bind] in Hd; [|discriminate].
  destruct (Hx (S lvl) s Hwx Ex) as [Hlen Hpar].
  destruct xs as [|y ys].
  - apply ok_inj in Hd; subst t. split.
    + rewrite !str_app_length, !nl_ind_length. simpl. lia.
    + intros fuel acc rest Hf. simpl in Hf.
      destruct fuel as [|f]; [lia|].
      rewrite !str_app_assoc. cbn [parse_elems].
      destruct f as [|f']; [pose proof (need_pos x); lia|].
      rewrite parse_value_nl_ind, Hpar by (simpl; lia || reflexivity).
      rewrite skip_ws_nl_ind. reflexivity.
  - destruct (dump_elems (dumps_at (S lvl)) lvl (y :: ys)) as [t'|e] eqn:Et;
      cbn [bind] in Hd; [|discriminate].
    apply ok_inj in Hd; subst t.
    destruct (IH t' ltac:(discriminate) Hxs Hwxs eq_refl) as [Hlen' Hpar'].
    split.
    + rewrite !str_app_length, !nl_ind_length. simpl in *. lia.
    + intros fuel acc rest Hf. simpl in Hf.
      destruct fuel as [|f]; [lia|].
      rewrite !str_app_assoc. cbn [parse_elems].
      destruct f as [|f']; [pose proof (need_pos x); lia|].
      rewrite parse_value_nl_ind, Hpar by (simpl; lia || reflexivity).
      cbn [append]. rewrite skip_ws_nonws by reflexivity. cbv iota.
      rewrite Hpar' by (simpl in *; lia).
      rewrite <- app_assoc. reflexivity.
Qed.

Lemma members_rt (lvl : nat) (d : list (pyval * pyval)) (t : string) :
  d <> [] -> Forall (fun kv => rt (snd kv)) d -> keys_distinct d = true ->
  forallb (fun kv => json_wf (snd kv)) d = true ->
  dump_members (dumps_at (S lvl)) lvl d = Ok t ->
  (fold_right (fun kv n => S (need (snd kv) + n)) 0%nat d <= String.length t)%nat /\
  forall fuel acc rest, (fold_right (fun kv n => S (need (snd kv) + n)) 0%nat d <= fuel)%nat ->
    (forall kv kv', In kv d -> In kv' acc -> py_key_eq (fst kv') (fst kv) = false) ->
    parse_members fuel acc (t ++ rest) = POk (PDict (acc ++ d)%list) rest.
Proof.
  revert t; induction d as [|[k v] d IH]; intros t Hne Hrt Hk Hwf Hd; [contradiction|].
  inversion Hrt as [|? ? Hv Hds]; subst. simpl in Hv.
  destruct k as [| | |ks| |]; try discriminate Hk.
  simpl in Hk. apply andb_prop in Hk as [Hfresh Hk].
  simpl in Hwf; apply andb_prop in Hwf as [Hwv Hwd].
  cbn [dump_members key_str bind] in Hd.
  destruct (dumps_at (S lvl) v) as [s|e] eqn:Ev; cbn [bind] in Hd; [|discriminate].
  destruct (Hv (S lvl) s Hwv Ev) as [Hlen Hpar].
  assert (Hacc : forall acc, (forall kv kv', In kv ((PStr ks, v) :: d) -> In kv' acc ->
                   py_key_eq (fst kv') (fst kv) = false) ->
            dict_set acc (PStr ks) v = (acc ++ [(PStr ks, v)])%list /\
            (forall kv kv', In kv d -> In kv' (acc ++ [(PStr ks, v)])%list ->
               py_key_eq (fst kv') (fst kv) = false)).
  { intros acc Ha. split.
    - apply dict_set_fresh. intros kv' Hin. exact (Ha (PStr ks, v) kv' (or_introl eq_refl) Hin).
    - intros kv kv' Hin Hin'. apply in_app_or in Hin' as [Hin' | [<- | []]].
      + apply Ha; [right|]; assumption.
      + cbn [fst]. rewrite py_key_eq_sym.
        destruct (py_key_eq (fst kv) (PStr ks)) eqn:E; [|reflexivity].
        exfalso. apply negb_true_iff in Hfresh.
        assert (Hex : existsb (fun kv0 => py_key_eq (fst kv0) (PStr ks)) d = true)
          by (apply existsb_exists; exists kv; split; assumption).
        congruence. }
  destruct d as [|kv2 d2].
  - apply ok_inj in Hd; subst t. split.
    + rewrite !str_app_length, !nl_ind_length. unfold quote. simpl. lia.
    + intros fuel acc rest Hf Ha. simpl in Hf.
      destruct fuel as [|f]; [lia|].
      destruct (Hacc acc Ha) as [Hset _].
      rewrite !str_app_assoc. cbn [parse_members].
      rewrite skip_ws_nl_ind. unfold quote. cbn [append].
      rewrite skip_ws_nonws by reflexivity. cbv iota.
      rewrite Ascii.eqb_refl. rewrite str_app_assoc. cbn [append].
      rewrite parse_str_quote. cbv iota.
      rewrite skip_ws_nonws by reflexivity. cbv iota.
      destruct f as [|f']; [pose proof (need_pos v); lia|].
      rewrite parse_value_space, Hpar by (simpl; lia || reflexivity).
      rewrite Hset. rewrite skip_ws_nl_ind. reflexivity.
  - destruct (dump_members (dumps_at (S lvl)) lvl (kv2 :: d2)) as [t'|e] eqn:Et;
      cbn [bind] in Hd; [|discriminate].
    apply ok_inj in Hd; subst t.
    destruct (IH t' ltac:(discriminate) Hds Hk Hwd eq_refl) as [Hlen' Hpar'].
    split.
    + rewrite !str_app_length, !nl_ind_length. unfold quote. simpl in *.
      rewrite !str_app_length. simpl. lia.
    + intros fuel acc rest Hf Ha. simpl in Hf.
      destruct fuel as [|f]; [lia|].
      destruct (Hacc acc Ha) as [Hset Ha'].
      rewrite !str_app_assoc. cbn [parse_members].
      rewrite skip_ws_nl_ind. unfold quote. cbn [append].
      rewrite skip_ws_nonws by reflexivity. cbv iota.
      rewrite Ascii.eqb_refl. rewrite str_app_assoc. cbn [append].
      rewrite parse_str_quote. cbv iota.
      rewrite skip_ws_nonws by reflexivity. cbv iota.
      destruct f as [|f']; [pose proof (need_pos v); lia|].
      rewrite parse_value_space, Hpar by (simpl; lia || reflexivity).
      rewrite Hset. cbn [append]. rewrite skip_ws_nonws by reflexivity. cbv iota.
      rewrite Hpar' by (simpl in *; lia || exact Ha').
      rewrite <- app_assoc. reflexivity.
Qed.

Lemma dump_elems_shape (lvl : nat) (x : pyval) (l : list pyval) (t : string) :
  dump_elems (dumps_at (S lvl)) lvl (x :: l) = Ok t ->
  exists s1 t2, dumps_at (S lvl) x = Ok s1 /\ t = nl_ind (S lvl) ++ (s1 ++ t2).
Proof.
  cbn [dump_elems]. destruct (dumps_at (S lvl) x) as [s1|e]; cbn [bind]; [|discriminate].
  destruct l as [|y l].
  - intro H; apply ok_inj in H; subst t. exists s1, (nl_ind lvl ++ "]"). auto.
  - destruct (dump_elems (dumps_at (S lvl)) lvl (y :: l)) as [t'|e]; cbn [bind]; [|discriminate].
    intro H; apply ok_inj in H; subst t. exists s1, ("," ++ t'). auto.
Qed.

Lemma key_str_shape (k : pyval) (ks : string) :
  key_str k = Ok ks -> exists u, ks = String qchar u.
Proof.
  destruct k as [|[]| | | |]; cbn [key_str]; try discriminate;
    intro H; apply ok_inj in H; subst ks; eexists; reflexivity.
Qed.

Lemma dump_members_shape (lvl : nat) (kv : pyval * pyval) (d : list (pyval * pyval))
  (t : string) :
  dump_members (dumps_at (S lvl)) lvl (kv :: d) = Ok t ->
  exists t2, t = nl_ind (S lvl) ++ String qchar t2.
Proof.
  destruct kv as [k v]. cbn [dump_members].
  destruct (key_str k) as [ks|e] eqn:Ek; cbn [bind]; [|discriminate].
  destruct (key_str_shape k ks Ek) as [u ->].
  destruct (dumps_at (S lvl) v) as [s|e]; cbn [bind]; [|discriminate].
  destruct d as [|kv2 d].
  - intro H; apply ok_inj in H; subst t. eexists; reflexivity.
  - destruct (dump_members (dumps_at (S lvl)) lvl (kv2 :: d)) as [t'|e]; cbn [bind];
      [|discriminate].
    intro H; apply ok_inj in H; subst t. eexists; reflexivity.
Qed.

Lemma dumps_rt (v : pyval) : rt v.
Proof.
  induction v as [| b | z | str | l IHl | d IHd] using pyval_ind';
    intros lvl s Hwf Hd.
  - apply ok_inj in Hd; subst s. split; [simpl; lia|].
    intros fuel rest Hf _. destruct fuel; [simpl in Hf; lia|]. reflexivity.
  - destruct b; apply ok_inj in Hd; subst s; (split; [simpl; lia|]);
      intros fuel rest Hf _; (destruct fuel; [simpl in Hf; lia|]); reflexivity.
  - pose proof (dumps_at_head lvl (PInt z) s Hd) as [c [u [Hs _]]].
    apply ok_inj in Hd; subst s. split; [rewrite Hs; simpl; lia|].
    intros fuel rest Hf Hr. destruct fuel; [simpl in Hf; lia|]. apply parse_value_int; exact Hr.
  - apply ok_inj in Hd; subst s. split; [unfold quote; simpl; lia|].
    intros fuel rest Hf _. destruct fuel; [simpl in Hf; lia|].
    unfold quote. cbn [append parse_value].
    rewrite skip_ws_nonws by reflexivity. cbv iota.
    rewrite Ascii.eqb_refl, str_app_assoc. cbn [append].
    rewrite parse_str_quote. reflexivity.
  - destruct l as [|x l].
    + apply ok_inj in Hd; subst s. split; [simpl; lia|].
      intros fuel rest Hf _. destruct fuel; [simpl in Hf; lia|]. reflexivity.
    + cbn [dumps_at] in Hd.
      destruct (dump_elems (dumps_at (S lvl)) lvl (x :: l)) as [t|e] eqn:Et;
        cbn [bind] in Hd; [|discriminate].
      apply ok_inj in Hd; subst s. simpl in Hwf.
      destruct (elems_rt lvl (x :: l) t ltac:(discriminate) IHl Hwf Et) as [Hlen Hpar].
      split; [simpl in *; lia|].
      intros fuel rest Hf _. destruct fuel as [|f]; [simpl in Hf; lia|].
      destruct (dump_elems_shape lvl x l t Et) as [s1 [t2 [Hs1 Ht]]].
      destruct (dumps_at_head (S lvl) x s1 Hs1) as [c [u [Hu [Hw Hc]]]].
      cbn [append parse_value].
      rewrite skip_ws_nonws by reflexivity. cbv iota.
      assert (Hsk : skip_ws (t ++ rest) = String c (u ++ (t2 ++ rest))).
      { rewrite Ht, !str_app_assoc, skip_ws_nl_ind, Hu. cbn [append].
        apply skip_ws_nonws; exact Hw. }
      rewrite Hsk, rbracket_other by exact Hc.
      apply (Hpar f [] rest). simpl in *; lia.
  - destruct d as [|kv d].
    + apply ok_inj in Hd; subst s. split; [simpl; lia|].
      intros fuel rest Hf _. destruct fuel; [simpl in Hf; lia|]. reflexivity.
    + cbn [dumps_at] in Hd.
      destruct (dump_members (dumps_at (S lvl)) lvl (kv :: d)) as [t|e] eqn:Et;
        cbn [bind] in Hd; [|discriminate].
      apply ok_inj in Hd; subst s. simpl in Hwf. apply andb_prop in Hwf as [Hk Hw].
      destruct (members_rt lvl (kv :: d) t ltac:(discriminate) IHd Hk Hw Et) as [Hlen Hpar].
      split; [simpl in *; lia|].
      intros fuel rest Hf _. destruct fuel as [|f]; [simpl in Hf; lia|].
      destruct (dump_members_shape lvl kv d t Et) as [t2 Ht].
      cbn [append parse_value].
      rewrite skip_ws_nonws by reflexivity. cbv iota.
      assert (Hsk : skip_ws (t ++ rest) = String qchar (t2 ++ rest)).
      { rewrite Ht, !str_app_assoc, skip_ws_nl_ind. cbn [append].
        apply skip_ws_nonws; reflexivity. }
      rewrite Hsk. cbv iota.
      apply (Hpar f [] rest); [simpl in *; lia | intros ? ? _ []].
Qed.

Lemma str_app_nil (s : string) : s ++ EmptyString = s.
Proof. induction s; simpl; [reflexivity | rewrite IHs; reflexivity]. Qed.

Lemma json_loads_dumps (v : pyval) (s : string) :
  json_wf v = true -> json_dumps v = Ok s -> json_loads s = Ok v.
Proof.
  intros Hw Hd. destruct (dumps_rt v 0%nat s Hw Hd) as [Hlen Hpar].
  unfold json_loads.
  pose proof (Hpar (S (String.length s)) EmptyString ltac:(lia) I) as H.
  rewrite str_app_nil in H. rewrite H. reflexivity.
Qed.

Lemma dumps_ok (v : pyval) : forall lvl, json_wf v = true -> exists s, dumps_at lvl v = Ok s.
Proof.
  induction v as [| b | z | str | l IHl | d IHd] using pyval_ind'; intros lvl Hw.
  - eexists; reflexivity.
  - destruct b; eexists; reflexivity.
  - eexists; reflexivity.
  - eexists; reflexivity.
  - simpl in Hw.
    assert (H : forall l', Forall (fun v => forall lvl, json_wf v = true ->
                                  exists s, dumps_at lvl v = Ok s) l' ->
                forallb json_wf l' = true ->
                exists t, dump_elems (dumps_at (S lvl)) lvl l' = Ok t).
    { induction l' as [|x xs IH]; intros HF Hb; [eexists; reflexivity|].
      inversion HF as [|? ? Hx Hxs]; subst. simpl in Hb. apply andb_prop in Hb as [Hb1 Hb2].
      destruct (Hx (S lvl) Hb1) as [s Hs]. destruct (IH Hxs Hb2) as [t Ht].
      cbn [dump_elems]. rewrite Hs. cbn [bind].
      destruct xs; [eexists; reflexivity|]. rewrite Ht. eexists; reflexivity. }
    destruct l as [|x l]; [eexists; reflexivity|].
    destruct (H (x :: l) IHl Hw) as [t Ht]. cbn [dumps_at]. rewrite Ht. eexists; reflexivity.
  - simpl in Hw. apply andb_prop in Hw as [Hk Hw].
    assert (H : forall d', Forall (fun kv => forall lvl, json_wf (snd kv) = true ->
                                  exists s, dumps_at lvl (snd kv) = Ok s) d' ->
                keys_distinct d' = true ->
                forallb (fun kv => json_wf (snd kv)) d' = true ->
                exists t, dump_members (dumps_at (S lvl)) lvl d' = Ok t).
    { induction d' as [|[k x] xs IH]; intros HF Hk' Hb; [eexists; reflexivity|].
      inversion HF as [|? ? Hx Hxs]; subst. simpl in Hb. apply andb_prop in Hb as [Hb1 Hb2].
      destruct k as [| | |ks| |]; try discriminate Hk'.
      simpl in Hk'. apply andb_prop in Hk' as [_ Hk'].
      destruct (Hx (S lvl) Hb1) as [s Hs]. destruct (IH Hxs Hk' Hb2) as [t Ht].
      cbn [dump_members key_str]. cbn [bind]. simpl snd in Hs. rewrite Hs. cbn [bind].
      destruct xs; [eexists; reflexivity|]. rewrite Ht. eexists; reflexivity. }
    destruct d as [|kv d]; [eexists; reflexivity|].
    destruct (H (kv :: d) IHd Hk Hw) as [t Ht]. cbn [dumps_at]. rewrite Ht. eexists; reflexivity.
Qed.

Lemma checkpoint_data_wf (ids : list Z) (g : Z) (ts : string) (p : BatchProgress) :
  json_wf (checkpoint_data (map PInt ids) (PInt g) ts p) = true.
Proof.
  unfold checkpoint_data. cbn [json_wf keys_distinct existsb fst py_key_eq forallb snd].
  assert (H : forallb json_wf (map PInt ids) = true).
  { induction ids; simpl; auto. }
  rewrite H. reflexivity.
Qed.

(** Saving a checkpoint for integer ids and group id writes a file that
    loading reads back as the saved record. *)
Lemma save_load_checkpoint (cfg : BatchConfig) (env : Env) (w : World) (path : string)
  (ids : list Z) (g : Z) :
  configured_file cfg = Some path ->
  exists text,
    save_checkpoint cfg env (map PInt ids) (PInt g) w
      = (Ok tt, mkWorld (w_log w) ((path, text) :: w_fs w) (w_progress w)
                        (w_processed_ids w) (w_results w)) /\
    json_loads text = Ok (checkpoint_data (map PInt ids) (PInt g) (env_now env) (w_progress w)).
Proof.
  intros Hc.
  destruct (dumps_ok (checkpoint_data (map PInt ids) (PInt g) (env_now env) (w_progress w)) 0%nat
              (checkpoint_data_wf ids g _ _)) as [text Ht].
  exists text. split.
  - unfold save_checkpoint. rewrite Hc. unfold mbind, get_world, lift, write_file.
    unfold json_dumps. rewrite Ht. reflexivity.
  - apply json_loads_dumps; [apply checkpoint_data_wf | exact Ht].
Qed.

Lemma load_checkpoint_file (cfg : BatchConfig) (w : World) (path text : string) (v : pyval) :
  configured_file cfg = Some path -> fs_read (w_fs w) path = Some text ->
  json_loads text = Ok v -> load_checkpoint cfg w = (Ok v, w).
Proof.
  intros Hc Hf Hj. unfold load_checkpoint. rewrite Hc.
  unfold mbind, get_world. rewrite Hf, Hj. reflexivity.
Qed.

(** C9: with a configured checkpoint file, [_save_checkpoint] with integer
    [processed_ids] and [group_id] (for instance [3, 7, 9] and [42]) followed by
    [_load_checkpoint] returns the saved record: the same [processed_ids],
    [group_id], timestamp and progress snapshot [{total, processed,
    successful, failed}]. *)
Theorem checkpoint_roundtrip (cfg : BatchConfig) (env : Env) (w : World) (path : string)
  (ids : list Z) (g : Z) :
  configured_file cfg = Some path ->
  let (r, w1) := save_checkpoint cfg env (map PInt ids) (PInt g) w in
  r = Ok tt /\
  fst (load_checkpoint cfg w1)
    = Ok (checkpoint_data (map PInt ids) (PInt g) (env_now env) (w_progress w)).
Proof.
  intros Hc.
  destruct (save_load_checkpoint cfg env w path ids g Hc) as [text [Hs Hj]].
  rewrite Hs. split; [reflexivity|].
  erewrite (load_checkpoint_file cfg _ path text _ Hc); [reflexivity| |exact Hj].
  simpl. rewrite String.eqb_refl. reflexivity.
Qed.

Lemma checkpoint_roundtrip_witness :
  configured_file cfg_checkpointed = Some "batch_checkpoint.json" /\
  let (r, w1) := save_checkpoint cfg_checkpointed (stub_env (fun _ => CReturn blank_response))
                   (map PInt [3; 7; 9]) (PInt 42) empty_world in
  r = Ok tt /\
  fst (load_checkpoint cfg_checkpointed w1)
    = Ok (checkpoint_data (map PInt [3; 7; 9]) (PInt 42)
            (env_now (stub_env (fun _ => CReturn blank_response))) (w_progress empty_world)).
Proof.
  split; [reflexivity|].
  apply (checkpoint_roundtrip cfg_checkpointed _ empty_world "batch_checkpoint.json").
  reflexivity.
Defined.

(** ** Frames of the pipeline *)

Section Stays.
Context {R : World -> World -> Prop} `{Frame R}.

Lemma stays_ret {A} (a : A) : stays R (ret a).
Proof. intro w. apply frame_refl. Qed.

Lemma stays_lift {A} (r : res A) : stays R (lift r).
Proof. intro w. apply frame_refl. Qed.

Lemma stays_throw {A} (e : py_exn) : stays R (@throw A e).
Proof. intro w. apply frame_refl. Qed.

Lemma stays_get_world : stays R get_world.
Proof. intro w. apply frame_refl. Qed.

Lemma stays_bind {A B} (m : M A) (k : A -> M B) :
  stays R m -> (forall a, stays R (k a)) -> stays R (mbind m k).
Proof.
  intros Hm Hk w. unfold mbind. specialize (Hm w).
  destruct (m w) as [[a|e] w1]; simpl in *; [|exact Hm].
  eapply frame_trans; [exact Hm|apply Hk].
Qed.

Lemma stays_try {A} (m : M A) (h : py_exn -> M A) :
  stays R m -> (forall e, stays R (h e)) -> stays R (try_except m h).
Proof.
  intros Hm Hh w. unfold try_except. specialize (Hm w).
  destruct (m w) as [[a|e] w1]; simpl in *; [exact Hm|].
  eapply frame_trans; [exact Hm|apply Hh].
Qed.

Lemma stays_retry_loop (n : nat) (r : option QuestionnaireResult) (attempt : M QuestionnaireResult) :
  stays R attempt -> stays R (retry_loop n r attempt).
Proof.
  intro Ha. revert r. induction n as [|n IH]; intro r; simpl.
  - destruct r; [apply stays_ret|apply stays_throw].
  - intro w. specialize (Ha w). destruct (attempt w) as [[q|e] w1]; simpl in *.
    + destruct (success q); [exact Ha|].
      eapply frame_trans; [exact Ha|apply IH].
    + eapply frame_trans; [exact Ha|apply IH].
Qed.

End Stays.

Lemma stays_weaken (R1 R2 : World -> World -> Prop) {A} (m : M A) :
  (forall w w', R1 w w' -> R2 w w') -> stays R1 m -> stays R2 m.
Proof. intros H Hm w. apply H, Hm. Qed.

Lemma stays_emit (Pe : event -> Prop) (e : event) : Pe e -> stays (log_frame Pe) (emit e).
Proof. intros He w. split; [exists [e]; auto|simpl; auto]. Qed.

Lemma stays_db_insert (Pe : event -> Prop) (wr : write) :
  Pe (DbWrite wr) -> stays (log_frame Pe) (db_insert wr).
Proof. intros He w. split; [exists [DbWrite wr]; auto|simpl; auto]. Qed.

Lemma stays_create_completion (Pe : event -> Prop) env key stage :
  Pe (ModelCall key stage) -> stays (log_frame Pe) (create_completion env key stage).
Proof.
  intros He w. unfold create_completion.
  destruct (env_client env (count_calls (w_log w))); (split; [exists [ModelCall key stage]; auto|simpl; auto]).
Qed.

Ltac stays_tac :=
  repeat first
    [ apply stays_bind; intros
    | apply stays_try; intros
    | apply stays_ret | apply stays_lift | apply stays_throw | apply stays_get_world
    | apply stays_emit | apply stays_db_insert | apply stays_create_completion
    | progress cbv zeta
    | match goal with |- stays _ (match ?x with _ => _ end) => destruct x end
    | assumption
    | exact I
    | reflexivity ].

Lemma stays_run_questionnaire (Pe : event -> Prop) env key text qtype sr ins :
  Pe (ModelCall key qtype) ->
  stays (log_frame Pe) (run_questionnaire env key text qtype sr ins).
Proof. intro He. unfold run_questionnaire. stays_tac. Qed.

Lemma stays_retry (Pe : event -> Prop) cfg env key text qtype :
  Pe (ModelCall key qtype) ->
  stays (log_frame Pe) (run_questionnaire_with_retry cfg env key text qtype).
Proof.
  intro He. unfold run_questionnaire_with_retry. apply stays_retry_loop.
  stays_tac.
Qed.

Lemma log_frame_key_step (Pe : event -> Prop) key w w' :
  (forall e, Pe e -> key_event key e) -> log_frame Pe w w' -> key_step key w w'.
Proof.
  intros HP [[new [L F]] [_ [_ [I _]]]]. exists new, []. rewrite List.app_nil_r.
  repeat split; auto. eapply Forall_impl; [exact HP|exact F].
Qed.

Lemma log_frame_prog_inv (Pe : event -> Prop) n t w w' :
  log_frame Pe w w' -> prog_inv n t w w'.
Proof. intros [_ [_ [P _]]] H. rewrite P. exact H. Qed.

Ltac stays_tac2 :=
  repeat first
    [ apply stays_bind; intros
    | apply stays_try; intros
    | apply stays_ret | apply stays_lift | apply stays_throw | apply stays_get_world
    | apply stays_emit | apply stays_db_insert | apply stays_create_completion
    | apply stays_retry
    | progress cbv zeta
    | match goal with |- stays _ (match ?x with _ => _ end) => destruct x end
    | assumption
    | exact I
    | reflexivity ].

Lemma stays_process_single_narrative cfg env key text nid eid g :
  stays (log_frame (key_event key)) (process_single_narrative cfg env key text nid eid g).
Proof.
  unfold process_single_narrative, dimension_stage, run_dimension_evaluation,
    questionnaire_stage, save_questionnaire_result.
  stays_tac2.
Qed.

(** C3 (amended): when the retries of a questionnaire end with a failed
    result (success = false), the questionnaire stage returns that result
    with no questionnaire id and issues no database write: the only events
    it logs are the model calls of that questionnaire.  The failed result is
    kept in memory (in the NarrativeEvaluationResult) and processing goes on
    with the next stage. *)
Lemma failed_questionnaire_not_saved cfg env qtype key text experiment_id group_id
  narrative_id w q w1 :
  run_questionnaire_with_retry cfg env key text qtype w = (Ok q, w1) ->
  success q = false ->
  questionnaire_stage cfg env true qtype key text experiment_id group_id narrative_id w
    = (Ok (Some q, None), w1) /\
  log_frame (eq (ModelCall key qtype)) w w1.
Proof.
  intros Hr Hs. split.
  - unfold questionnaire_stage, mbind. rewrite Hr.
    unfold save_questionnaire_result. rewrite Hs. reflexivity.
  - generalize (stays_retry (eq (ModelCall key qtype)) cfg env key text qtype eq_refl w).
    rewrite Hr. exact (fun H => H).
Qed.

Lemma failed_questionnaire_not_saved_witness :
  exists q w1,
  run_questionnaire_with_retry cfg_default (stub_env (fun _ => CReturn not_json_response))
    0 (PStr "It hurts") "PCS" empty_world = (Ok q, w1) /\
  success q = false /\
  questionnaire_stage cfg_default (stub_env (fun _ => CReturn not_json_response)) true "PCS"
    0 (PStr "It hurts") 300 (PInt 7) 100 empty_world = (Ok (Some q, None), w1) /\
  log_frame (eq (ModelCall 0 "PCS")) empty_world w1.
Proof.
  pose (p := run_questionnaire_with_retry cfg_default (stub_env (fun _ => CReturn not_json_response))
               0 (PStr "It hurts") "PCS" empty_world).
  assert (E : run_questionnaire_with_retry cfg_default (stub_env (fun _ => CReturn not_json_response))
               0 (PStr "It hurts") "PCS" empty_world = p) by reflexivity.
  vm_compute in p. subst p.
  eexists; eexists; split; [exact E|]. split; [reflexivity|].
  exact (failed_questionnaire_not_saved _ _ _ _ _ _ _ _ _ _ _ E eq_refl).
Defined.

Lemma stays_set_progress_key key p : stays (key_step key) (set_progress p).
Proof. intro w. exists [], []. simpl. rewrite !List.app_nil_r. auto. Qed.

Lemma stays_update_progress_key key f : stays (key_step key) (update_progress f).
Proof. unfold update_progress. apply stays_bind; [apply stays_get_world|intro; apply stays_set_progress_key]. Qed.

Lemma stays_append_result_key key r : stays (key_step key) (append_result r).
Proof. intro w. exists [], []. simpl. rewrite !List.app_nil_r. auto. Qed.

Lemma stays_write_file_key key path text : stays (key_step key) (write_file path text).
Proof. intro w. exists [], []. simpl. rewrite !List.app_nil_r. auto. Qed.

Lemma stays_append_processed_id_key key : stays (key_step key) (append_processed_id key).
Proof. intro w. exists [], [PInt key]. simpl. rewrite List.app_nil_r. auto. Qed.

Lemma stays_save_checkpoint_key key cfg env ids g : stays (key_step key) (save_checkpoint cfg env ids g).
Proof.
  unfold save_checkpoint. destruct (configured_file cfg); [|apply stays_ret].
  apply stays_bind; [apply stays_get_world|intro].
  apply stays_bind; [apply stays_lift|intro]. apply stays_write_file_key.
Qed.

Lemma db_write_key_event key e : is_db_write e -> key_event key e.
Proof. destruct e; simpl; tauto. Qed.

Lemma stays_narrative_body_key cfg env setup g key text :
  (forall k t, stays (log_frame is_db_write) (setup k t)) ->
  stays (key_step key) (narrative_body cfg env setup g key text).
Proof.
  intro Hs. unfold narrative_body.
  apply stays_bind.
  { eapply stays_weaken; [|apply Hs]. intros w w'. apply log_frame_key_step, db_write_key_event. }
  intros [nid eid].
  apply stays_bind.
  { eapply stays_weaken; [|apply stays_process_single_narrative].
    intros w w'. apply log_frame_key_step. auto. }
  intro r.
  apply stays_bind; [apply stays_append_result_key|intro].
  apply stays_bind; [apply stays_append_processed_id_key|intro].
  apply stays_bind; [apply stays_update_progress_key|intro].
  apply stays_bind; [destruct (counts_as_success r); apply stays_update_progress_key|intro].
  apply stays_bind; [apply stays_get_world|intro].
  apply stays_bind; [apply stays_lift|intro].
  destruct (_ =? 0).
  - apply stays_bind; [apply stays_get_world|intro]. apply stays_save_checkpoint_key.
  - apply stays_ret.
Qed.

Lemma stays_narrative_failed_key key : stays (key_step key) (narrative_failed key).
Proof.
  unfold narrative_failed.
  apply stays_bind; [apply stays_update_progress_key|intro].
  apply stays_bind; [apply stays_update_progress_key|intro].
  apply stays_append_processed_id_key.
Qed.

(** progress invariant *)

Lemma stays_prog_of_progress n t {A} (m : M A) :
  (forall w, w_progress (snd (m w)) = w_progress w) -> stays (prog_inv n t) m.
Proof. intros H w Hw. rewrite H. exact Hw. Qed.

Lemma stays_prog_update_pair n t (b : bool) (k : M unit) :
  stays (prog_inv n t) k ->
  stays (prog_inv n t)
    (_ <- update_progress incr_processed ;;
     _ <- (if b then update_progress incr_successful else update_progress incr_failed) ;; k).
Proof.
  intros Hk w [Ht Hp].
  destruct b; cbv [mbind update_progress get_world set_progress]; cbn;
    apply Hk; split; simpl; lia.
Qed.

Lemma stays_save_checkpoint_prog n t cfg env ids g : stays (prog_inv n t) (save_checkpoint cfg env ids g).
Proof.
  apply stays_prog_of_progress. intro w. unfold save_checkpoint.
  destruct (configured_file cfg); [|reflexivity].
  cbv [mbind get_world lift]. destruct (json_dumps _); reflexivity.
Qed.

Lemma stays_narrative_body_prog n t cfg env setup g key text :
  (forall k t, stays (log_frame is_db_write) (setup k t)) ->
  stays (prog_inv n t) (narrative_body cfg env setup g key text).
Proof.
  intro Hs. unfold narrative_body.
  apply stays_bind.
  { eapply stays_weaken; [|apply Hs]. intros w w'. apply log_frame_prog_inv. }
  intros [nid eid].
  apply stays_bind.
  { eapply stays_weaken; [|apply stays_process_single_narrative]. intros w w'. apply log_frame_prog_inv. }
  intro r.
  apply stays_bind; [apply stays_prog_of_progress; reflexivity|intro].
  apply stays_bind; [apply stays_prog_of_progress; reflexivity|intro].
  apply stays_prog_update_pair.
  apply stays_bind; [apply stays_get_world|intro].
  apply stays_bind; [apply stays_lift|intro].
  destruct (_ =? 0).
  - apply stays_bind; [apply stays_get_world|intro]. apply stays_save_checkpoint_prog.
  - apply stays_ret.
Qed.

Lemma stays_narrative_failed_prog n t key : stays (prog_inv n t) (narrative_failed key).
Proof.
  intros w [Ht Hp]. cbv [narrative_failed mbind update_progress get_world set_progress
    append_processed_id set_processed_ids]. split; simpl; lia.
Qed.

Lemma stays_batch_loop_prog n t cfg env setup g items :
  (forall k t, stays (log_frame is_db_write) (setup k t)) ->
  stays (prog_inv n t) (batch_loop cfg env setup g items).
Proof.
  intro Hs. induction items as [|[key text] rest IH]; cbn [batch_loop]; [apply stays_ret|].
  apply stays_bind; [apply stays_get_world|intro w].
  destruct (existsb _ _); [exact IH|].
  apply stays_bind.
  { intros w0 [Ht Hp]. split; assumption. }
  intro. apply stays_bind.
  { apply stays_prog_of_progress. reflexivity. }
  intro. apply stays_bind; [|intro; exact IH].
  apply stays_try; [apply stays_narrative_body_prog; exact Hs|intro; apply stays_narrative_failed_prog].
Qed.

(** the run-counts invariant *)

Lemma stays_runc_of P t {A} (m : M A) :
  (forall w, w_progress (snd (m w)) = w_progress w /\ w_processed_ids (snd (m w)) = w_processed_ids w) ->
  stays (run_counts_inv P t) m.
Proof. intros H w Hr. unfold run_counts in *. destruct (H w) as [-> ->]. exact Hr. Qed.

Lemma log_frame_run_counts (Pe : event -> Prop) P t w w' :
  log_frame Pe w w' -> run_counts_inv P t w w'.
Proof. intros [_ [_ [Hp [Hi _]]]] Hr. unfold run_counts in *. rewrite Hp, Hi. exact Hr. Qed.

Lemma stays_runc_update_block P t key (b : bool) (k : M unit) :
  stays (run_counts_inv P t) k ->
  stays (run_counts_inv P t)
    (_ <- append_processed_id key ;;
     _ <- update_progress incr_processed ;;
     _ <- (if b then update_progress incr_successful else update_progress incr_failed) ;; k).
Proof.
  intros Hk w [[Ht Hp] [new [Hi Hc]]].
  destruct b; cbv [mbind append_processed_id update_progress get_world set_progress
    set_processed_ids]; cbn; apply Hk;
    (split; [split; simpl; lia|]);
    exists (new ++ [PInt key])%list; simpl; rewrite Hi, List.app_assoc, List.length_app; simpl;
    split; [reflexivity|lia| |]; try reflexivity; lia.
Qed.

Lemma stays_save_checkpoint_runc P t cfg env ids g :
  stays (run_counts_inv P t) (save_checkpoint cfg env ids g).
Proof.
  apply stays_runc_of. intro w. unfold save_checkpoint.
  destruct (configured_file cfg); [|split; reflexivity].
  cbv [mbind get_world lift]. destruct (json_dumps _); split; reflexivity.
Qed.

Lemma stays_narrative_body_runc P t cfg env setup g key text :
  (forall k t, stays (log_frame is_db_write) (setup k t)) ->
  stays (run_counts_inv P t) (narrative_body cfg env setup g key text).
Proof.
  intro Hs. unfold narrative_body.
  apply stays_bind.
  { eapply stays_weaken; [|apply Hs]. intros w w'. apply log_frame_run_counts. }
  intros [nid eid].
  apply stays_bind.
  { eapply stays_weaken; [|apply stays_process_single_narrative]. intros w w'. apply log_frame_run_counts. }
  intro r.
  apply stays_bind; [apply stays_runc_of; intro; split; reflexivity|intro].
  apply stays_runc_update_block.
  apply stays_bind; [apply stays_get_world|intro].
  apply stays_bind; [apply stays_lift|intro].
  destruct (_ =? 0).
  - apply stays_bind; [apply stays_get_world|intro]. apply stays_save_checkpoint_runc.
  - apply stays_ret.
Qed.

Lemma stays_narrative_failed_runc P t key : stays (run_counts_inv P t) (narrative_failed key).
Proof.
  intros w [[Ht Hp] [new [Hi Hc]]].
  cbv [narrative_failed mbind update_progress get_world set_progress
    append_processed_id set_processed_ids]; cbn.
  split; [split; simpl; lia|].
  exists (new ++ [PInt key])%list; simpl. rewrite Hi, List.app_assoc, List.length_app. simpl.
  split; [reflexivity|lia].
Qed.

Lemma stays_batch_loop_runc P t cfg env setup g items :
  (forall k t, stays (log_frame is_db_write) (setup k t)) ->
  stays (run_counts_inv P t) (batch_loop cfg env setup g items).
Proof.
  intro Hs. induction items as [|[key text] rest IH]; cbn [batch_loop]; [apply stays_ret|].
  apply stays_bind; [apply stays_get_world|intro w].
  destruct (existsb _ _); [exact IH|].
  apply stays_bind.
  { intros w0 [[Ht Hp] Hn]. split; [split; assumption|exact Hn]. }
  intro. apply stays_bind.
  { apply stays_runc_of. intro; split; reflexivity. }
  intro. apply stays_bind; [|intro; exact IH].
  apply stays_try; [apply stays_narrative_body_runc; exact Hs|intro; apply stays_narrative_failed_runc].
Qed.

Lemma stays_batch_tail_runc P t cfg env setup g items :
  (forall k t, stays (log_frame is_db_write) (setup g k t)) ->
  stays (run_counts_inv P t) (batch_tail cfg env setup g items).
Proof.
  intro Hs. unfold batch_tail.
  apply stays_bind; [apply stays_batch_loop_runc; exact Hs|intro].
  apply stays_bind; [apply stays_get_world|intro].
  apply stays_bind; [apply stays_save_checkpoint_runc|intro].
  apply stays_bind; [apply stays_runc_of; intro; split; reflexivity|intro].
  apply stays_bind; [apply stays_get_world|intro]. apply stays_ret.
Qed.

Lemma load_checkpoint_world cfg w : snd (load_checkpoint cfg w) = w.
Proof.
  unfold load_checkpoint. destruct (configured_file cfg); [|reflexivity].
  cbv [mbind get_world]. destruct (fs_read _ _); [|reflexivity].
  destruct (json_loads _); reflexivity.
Qed.

Lemma run_batch_common_resume_eq cfg env setup items w ck P g :
  fst (load_checkpoint cfg w) = Ok ck -> py_truthy ck = true ->
  py_get ck (PStr "processed_ids") (PList []) = Ok (PList P) ->
  py_get ck (PStr "group_id") PNone = Ok g ->
  run_batch_common cfg env setup items true w =
  (_ <- batch_loop cfg env (setup g) g items ;;
   w1 <- get_world ;;
   _ <- save_checkpoint cfg env (w_processed_ids w1) g ;;
   _ <- db_insert (WGroupConcluded g) ;;
   w' <- get_world ;;
   ret (w_results w'))
  (mkWorld (w_log w) (w_fs w)
     (mkBatchProgress (Z.of_nat (List.length items)) (Z.of_nat (List.length P)) 0 0 None) P []).
Proof.
  intros Hl Ht Hp Hg.
  unfold run_batch_common.
  remember (_ <- batch_loop cfg env (setup g) g items ;;
   w1 <- get_world ;;
   _ <- save_checkpoint cfg env (w_processed_ids w1) g ;;
   _ <- db_insert (WGroupConcluded g) ;;
   w' <- get_world ;;
   ret (w_results w')) as tail eqn:Et.
  unfold mbind at 1.
  rewrite (surjective_pairing (load_checkpoint cfg w)), Hl, load_checkpoint_world.
  rewrite Ht. cbn [andb].
  unfold mbind at 1. cbv [lift]. rewrite Hp. cbn. rewrite Hg. cbn.
  subst tail. reflexivity.
Qed.

Lemma batch_loop_cons_eq cfg env setup g key text rest w :
  batch_loop cfg env setup g ((key, text) :: rest) w =
  if existsb (py_key_eq (PInt key)) (w_processed_ids w) then batch_loop cfg env setup g rest w
  else match try_except (narrative_body cfg env setup g key text) (fun _ => narrative_failed key)
               (mkWorld (w_log w ++ [Started key])%list (w_fs w) (with_current key (w_progress w))
                        (w_processed_ids w) (w_results w)) with
       | (Ok _, w3) => batch_loop cfg env setup g rest w3
       | (Raise e, w3) => (Raise e, w3)
       end.
Proof.
  cbn [batch_loop]. cbv [mbind get_world].
  destruct (existsb _ _); [reflexivity|].
  cbv [update_progress emit set_progress get_world mbind]. reflexivity.
Qed.

Lemma try_failed_ok (m : M unit) key w :
  fst (try_except m (fun _ => narrative_failed key) w) = Ok tt.
Proof. unfold try_except. destruct (m w) as [[[]|e] w']; reflexivity. Qed.

Lemma started_keys_app l1 l2 : started_keys (l1 ++ l2)%list = (started_keys l1 ++ started_keys l2)%list.
Proof. induction l1 as [|[] l1 IH]; simpl; try rewrite IH; reflexivity. Qed.

Lemma started_keys_key_events key l : Forall (key_event key) l -> started_keys l = [].
Proof. induction 1 as [|[] l He _ IH]; simpl in *; auto; contradiction. Qed.

Lemma existsb_key_extra key k extra :
  k <> key -> Forall (eq (PInt key)) extra -> existsb (py_key_eq (PInt k)) extra = false.
Proof.
  intros Hne HF. induction HF as [|x l Hx _ IH]; [reflexivity|].
  subst x. simpl. rewrite IH. apply Z.eqb_neq in Hne. rewrite Hne. reflexivity.
Qed.

Lemma batch_loop_resume cfg env setup g P items w :
  (forall k t, stays (log_frame is_db_write) (setup k t)) ->
  NoDup (map fst items) ->
  (forall k, In k (map fst items) -> existsb (py_key_eq (PInt k)) (w_processed_ids w) = inP P k) ->
  exists new, w_log (snd (batch_loop cfg env setup g items w)) = (w_log w ++ new)%list /\
    started_keys new = filter (fun k => negb (inP P k)) (map fst items) /\
    (forall k st, In (ModelCall k st) new -> In k (map fst items) /\ inP P k = false).
Proof.
  intros Hs. revert w. induction items as [|[key text] rest IH]; intros w Hnd Hin.
  - exists []. simpl. rewrite List.app_nil_r. split; [reflexivity|split; [reflexivity|intros; contradiction]].
  - simpl in Hnd. inversion Hnd as [|? ? Hnotin Hnd']; subst.
    rewrite batch_loop_cons_eq.
    assert (Hk := Hin key (or_introl eq_refl)).
    destruct (existsb _ _) eqn:Ex.
    + destruct (IH w Hnd' (fun k H => Hin k (or_intror H))) as [new [L [S C]]].
      exists new. split; [exact L|split].
      * simpl. rewrite <- Hk. exact S.
      * intros k st H. destruct (C k st H). split; [right|]; assumption.
    + set (w1 := mkWorld (w_log w ++ [Started key])%list (w_fs w) (with_current key (w_progress w))
                         (w_processed_ids w) (w_results w)).
      assert (Hst : key_step key w1
                (snd (try_except (narrative_body cfg env setup g key text)
                        (fun _ => narrative_failed key) w1))).
      { apply stays_try; [apply stays_narrative_body_key; exact Hs|intro; apply stays_narrative_failed_key]. }
      assert (Hok := try_failed_ok (narrative_body cfg env setup g key text) key w1).
      destruct (try_except _ _ w1) as [r w3]. simpl in Hok, Hst. subst r.
      destruct Hst as [new3 [extra [L3 [F3 [I3 G3]]]]].
      assert (Hin' : forall k, In k (map fst rest) ->
                       existsb (py_key_eq (PInt k)) (w_processed_ids w3) = inP P k).
      { intros k H. rewrite I3, existsb_app. simpl.
        rewrite (existsb_key_extra key k extra); [|intro; subst; contradiction|exact G3].
        rewrite orb_false_r. apply Hin. right. exact H. }
      destruct (IH w3 Hnd' Hin') as [new [L [S C]]].
      exists ([Started key] ++ new3 ++ new)%list. split; [|split].
      * rewrite L, L3. simpl. rewrite <- !List.app_assoc. reflexivity.
      * simpl. rewrite started_keys_app, (started_keys_key_events key new3 F3), S, <- Hk. reflexivity.
      * intros k st H. simpl in H. destruct H as [H|H]; [discriminate|].
        apply in_app_or in H. destruct H as [H|H].
        -- rewrite Forall_forall in F3. specialize (F3 _ H). simpl in F3. subst k.
           split; [left; reflexivity|congruence].
        -- destruct (C k st H). split; [right|]; assumption.
Qed.

Lemma stays_setup_new_narrative env g k t :
  stays (log_frame is_db_write) (setup_new_narrative env g k t).
Proof. unfold setup_new_narrative. stays_tac2. Qed.

Lemma stays_setup_existing_narrative env g k t :
  stays (log_frame is_db_write) (setup_existing_narrative env g k t).
Proof. unfold setup_existing_narrative. stays_tac2. Qed.

Lemma save_checkpoint_log cfg env ids g w :
  w_log (snd (save_checkpoint cfg env ids g w)) = w_log w.
Proof.
  unfold save_checkpoint. destruct (configured_file cfg); [|reflexivity].
  cbv [mbind get_world lift write_file]. destruct (json_dumps _); reflexivity.
Qed.

Lemma run_batch_common_resume cfg env setup items w ck P g :
  (forall g k t, stays (log_frame is_db_write) (setup g k t)) ->
  NoDup (map fst items) ->
  fst (load_checkpoint cfg w) = Ok ck -> py_truthy ck = true ->
  py_get ck (PStr "processed_ids") (PList []) = Ok (PList P) ->
  py_get ck (PStr "group_id") PNone = Ok g ->
  resumed_only P (map fst items) w (snd (run_batch_common cfg env setup items true w)).
Proof.
  intros Hs Hnd Hl Ht Hp Hg.
  rewrite (run_batch_common_resume_eq cfg env setup items w ck P g Hl Ht Hp Hg).
  set (w0 := mkWorld (w_log w) (w_fs w) _ P []).
  destruct (batch_loop_resume cfg env (setup g) g P items w0 (Hs g) Hnd (fun k _ => eq_refl))
    as [new [L [S C]]].
  unfold mbind at 1. destruct (batch_loop cfg env (setup g) g items w0) as [r w1].
  simpl in L. destruct r as [[]|e].
  - cbv [mbind get_world db_insert ret].
    pose proof (save_checkpoint_log cfg env (w_processed_ids w1) g w1) as Ls.
    destruct (save_checkpoint cfg env (w_processed_ids w1) g w1) as [[[]|e] w2]; simpl in Ls |- *.
    + exists (new ++ [DbWrite (WGroupConcluded g)])%list. split; [|split].
      * rewrite Ls, L, List.app_assoc. reflexivity.
      * rewrite started_keys_app, S. simpl. apply List.app_nil_r.
      * intros k st H. apply in_app_or in H. destruct H as [H|[H|[]]]; [exact (C k st H)|discriminate].
    + exists new. rewrite Ls. auto.
  - exists new. simpl. auto.
Qed.

(** C1: resuming [run_batch] or [run_batch_with_existing_narratives] from a
    checkpoint whose processed_ids is the list [P] (narrative ids pairwise
    distinct): the narratives started by the run are exactly those whose id
    is not in [P], in order, and every model call of the run is for such an
    id, so no narrative recorded in [P] is sent to the model again. *)
Lemma resume_skips_processed cfg env rows w ck P g :
  NoDup (map fst rows) ->
  fst (load_checkpoint cfg w) = Ok ck -> py_truthy ck = true ->
  py_get ck (PStr "processed_ids") (PList []) = Ok (PList P) ->
  py_get ck (PStr "group_id") PNone = Ok g ->
  resumed_only P (map fst rows) w (snd (run_batch cfg env rows true w)) /\
  resumed_only P (map fst rows) w (snd (run_batch_with_existing_narratives cfg env rows true w)).
Proof.
  intros. split; apply (run_batch_common_resume cfg env _ rows w ck P g); auto.
  - apply stays_setup_new_narrative.
  - apply stays_setup_existing_narrative.
Qed.

(** C6 (amended): on resume with a valid checkpoint, both entry points run
    the loop from a BatchProgress re-created with total = the number of
    narratives, processed = len(processed_ids) and successful = failed = 0:
    the start world [resumed_start] depends on the checkpoint only through
    its processed_ids and group_id, so its progress counts are ignored.  At
    the end of the run total is the number of narratives,
    processed = len(checkpoint processed_ids) + successful + failed
    (= len(processed_ids) at the end), and processed_ids
    is the checkpoint's list followed by the ids appended in this run, whose
    number is successful + failed: these count only this run. *)
Lemma resume_restarts_counts cfg env rows w ck P g :
  fst (load_checkpoint cfg w) = Ok ck -> py_truthy ck = true ->
  py_get ck (PStr "processed_ids") (PList []) = Ok (PList P) ->
  py_get ck (PStr "group_id") PNone = Ok g ->
  run_batch cfg env rows true w
    = batch_tail cfg env (setup_new_narrative env) g rows (resumed_start w P (List.length rows)) /\
  run_batch_with_existing_narratives cfg env rows true w
    = batch_tail cfg env (setup_existing_narrative env) g rows (resumed_start w P (List.length rows)) /\
  run_counts P (Z.of_nat (List.length rows)) (snd (run_batch cfg env rows true w)) /\
  run_counts P (Z.of_nat (List.length rows))
    (snd (run_batch_with_existing_narratives cfg env rows true w)).
Proof.
  intros Hl Ht Hp Hg. unfold run_batch, run_batch_with_existing_narratives.
  rewrite !(run_batch_common_resume_eq cfg env _ rows w ck P g Hl Ht Hp Hg).
  fold (batch_tail cfg env (setup_new_narrative env) g rows).
  fold (batch_tail cfg env (setup_existing_narrative env) g rows).
  fold (resumed_start w P (List.length rows)).
  assert (H0 : run_counts P (Z.of_nat (List.length rows)) (resumed_start w P (List.length rows))).
  { split; [split; simpl; lia|]. exists []. rewrite List.app_nil_r. split; reflexivity. }
  split; [reflexivity|]. split; [reflexivity|]. split.
  - apply (stays_batch_tail_runc P _ cfg env _ g rows); [apply stays_setup_new_narrative|exact H0].
  - apply (stays_batch_tail_runc P _ cfg env _ g rows); [apply stays_setup_existing_narrative|exact H0].
Qed.

(** C3 (counterexample): with a client whose every response is not JSON,
    the PCS questionnaire of the narrative exhausts its 3 attempts and ends
    as a failed result with the JSON-decode error, and the batch completes;
    yet no database write records that PCS result (neither a questionnaire
    row nor an evaluation row for "PCS"). *)
Lemma failed_pcs_not_recorded :
  let w := snd (run_batch cfg_default (stub_env (fun _ => CReturn not_json_response))
                  [(0, PStr "It hurts")] false empty_world) in
  map (fun r => option_map (fun q => (success q, error q)) (pcs_result r)) (w_results w)
    = [Some (false, Some "Could not parse JSON response: Expecting value: char 0")] /\
  existsb (records_questionnaire "PCS") (w_log w) = false.
Proof. vm_compute. split; reflexivity. Qed.

(** C4: two runs of one narrative where the counts of BatchProgress break
    the rule "exactly one of successful and failed increments, successful
    iff dimension_success or PCS success".  (1) Default configuration; the
    PCS result is successful (and written), but the BPI-IS response carries
    the value "3" as a string, so computing its total raises TypeError inside
    process_single_narrative: the narrative is counted as failed.  (2) With
    checkpoint_interval = 0 and a successful dimension evaluation, the
    narrative is counted successful, then [processed % 0] raises
    ZeroDivisionError and the except branch counts it again: processed = 2,
    successful = 1, failed = 1, and its id is recorded twice. *)
Theorem success_counting_violations :
  (let w := snd (run_batch cfg_default (stub_env client_pcs_then_bpi_text)
                  [(0, PStr "It hurts")] false empty_world) in
   existsb (records_questionnaire "PCS") (w_log w) = true /\
   w_progress w = mkBatchProgress 1 1 0 1 (Some 0)) /\
  match fst (run_questionnaire_with_retry cfg_default (stub_env client_pcs_then_bpi_text)
               0 (PStr "It hurts") "PCS"
               (mkWorld [ModelCall 0 "dimensions"] [] (mkBatchProgress 1 0 0 0 (Some 0)) [] [])) with
  | Ok q => success q
  | Raise _ => false
  end = true /\
  (let w := snd (run_batch cfg_interval0 (stub_env (fun _ => CReturn object_response))
                  [(0, PStr "It hurts")] false empty_world) in
   w_progress w = mkBatchProgress 1 2 1 1 (Some 0) /\ w_processed_ids w = [PInt 0; PInt 0]).
Proof. vm_compute. repeat split; reflexivity. Qed.

Lemma resume_skips_processed_witness :
  NoDup (map fst [(0, PStr "a"); (1, PStr "b"); (2, PStr "c")]) /\
  fst (load_checkpoint cfg_checkpointed checkpointed_world) = Ok saved_checkpoint /\
  py_truthy saved_checkpoint = true /\
  py_get saved_checkpoint (PStr "processed_ids") (PList []) = Ok (PList [PInt 0]) /\
  py_get saved_checkpoint (PStr "group_id") PNone = Ok (PInt 7) /\
  resumed_only [PInt 0] (map fst [(0, PStr "a"); (1, PStr "b"); (2, PStr "c")]) checkpointed_world
    (snd (run_batch cfg_checkpointed (stub_env (fun _ => CReturn object_response))
            [(0, PStr "a"); (1, PStr "b"); (2, PStr "c")] true checkpointed_world)) /\
  resumed_only [PInt 0] (map fst [(0, PStr "a"); (1, PStr "b"); (2, PStr "c")]) checkpointed_world
    (snd (run_batch_with_existing_narratives cfg_checkpointed
            (stub_env (fun _ => CReturn object_response))
            [(0, PStr "a"); (1, PStr "b"); (2, PStr "c")] true checkpointed_world)).
Proof.
  assert (Hnd : NoDup (map fst [(0, PStr "a"); (1, PStr "b"); (2, PStr "c")]))
    by (simpl; repeat constructor; simpl; intuition discriminate).
  assert (Hl : fst (load_checkpoint cfg_checkpointed checkpointed_world) = Ok saved_checkpoint)
    by (vm_compute; reflexivity).
  assert (Hp : py_get saved_checkpoint (PStr "processed_ids") (PList []) = Ok (PList [PInt 0]))
    by (vm_compute; reflexivity).
  assert (Hg : py_get saved_checkpoint (PStr "group_id") PNone = Ok (PInt 7))
    by (vm_compute; reflexivity).
  split; [exact Hnd|]. split; [exact Hl|]. split; [reflexivity|].
  split; [exact Hp|]. split; [exact Hg|].
  exact (resume_skips_processed cfg_checkpointed (stub_env (fun _ => CReturn object_response))
           [(0, PStr "a"); (1, PStr "b"); (2, PStr "c")] checkpointed_world saved_checkpoint
           [PInt 0] (PInt 7) Hnd Hl eq_refl Hp Hg).
Defined.

(** C6 (counterexample): a run that processed narrative 0 successfully saved
    a checkpoint with progress processed = 1, successful = 1, failed = 0.
    Resuming on narratives 0 and 1, where narrative 1 also succeeds, ends with
    successful = 1, not 2: the count restarted from 0. *)
Lemma resume_counts_counterexample :
  fst (load_checkpoint cfg_checkpointed checkpointed_world) = Ok saved_checkpoint /\
  w_progress (snd (run_batch cfg_checkpointed (stub_env (fun _ => CReturn object_response))
                     [(0, PStr "a"); (1, PStr "b")] true checkpointed_world))
    = mkBatchProgress 2 2 1 0 (Some 1).
Proof. split; vm_compute; reflexivity. Qed.

Lemma resume_restarts_counts_witness :
  fst (load_checkpoint cfg_checkpointed checkpointed_world) = Ok saved_checkpoint /\
  py_truthy saved_checkpoint = true /\
  py_get saved_checkpoint (PStr "processed_ids") (PList []) = Ok (PList [PInt 0]) /\
  py_get saved_checkpoint (PStr "group_id") PNone = Ok (PInt 7) /\
  run_counts [PInt 0] 2
    (snd (run_batch cfg_checkpointed (stub_env (fun _ => CReturn object_response))
            [(0, PStr "a"); (1, PStr "b")] true checkpointed_world)) /\
  run_counts [PInt 0] 2
    (snd (run_batch_with_existing_narratives cfg_checkpointed
            (stub_env (fun _ => CReturn object_response))
            [(0, PStr "a"); (1, PStr "b")] true checkpointed_world)).
Proof.
  assert (Hl : fst (load_checkpoint cfg_checkpointed checkpointed_world) = Ok saved_checkpoint)
    by (vm_compute; reflexivity).
  assert (Hp : py_get saved_checkpoint (PStr "processed_ids") (PList []) = Ok (PList [PInt 0]))
    by (vm_compute; reflexivity).
  assert (Hg : py_get saved_checkpoint (PStr "group_id") PNone = Ok (PInt 7))
    by (vm_compute; reflexivity).
  split; [exact Hl|]. split; [reflexivity|]. split; [exact Hp|]. split; [exact Hg|].
  destruct (resume_restarts_counts cfg_checkpointed (stub_env (fun _ => CReturn object_response))
           [(0, PStr "a"); (1, PStr "b")] checkpointed_world saved_checkpoint [PInt 0] (PInt 7)
           Hl eq_refl Hp Hg) as [_ [_ [H1 H2]]].
  split; [exact H1|exact H2].
Defined.


(** ** parse_questionnaire_response *)



(** ** run_questionnaire: one model call *)


(** X3: When the model client raises an exception with message msg, run_questionnaire catches it and returns, after that one call, an unsuccessful result with empty data, an empty raw response, the two prompt messages and error msg. *)
Lemma run_questionnaire_transport_failure env key qtype text sr ins w msg :
  env_client env (count_calls (w_log w)) = CRaise msg ->
  run_questionnaire env key (PStr text) qtype (PStr sr) (PStr ins) w =
    (Ok (mkQR qtype false [] (PDict [])
           [("system", PStr sr); ("user", PStr (str_replace ins "{narrative}" text))] (Some msg)),
     call_world key qtype w).
Proof.
  intro H. unfold run_questionnaire. cbv [mbind ret lift py_replace try_except create_completion].
  rewrite H. reflexivity.
Qed.


(** ** Model calls: bounds *)

Section Within.

Lemma within_of_log {A} (m : M A) :
  (forall w, w_log (snd (m w)) = w_log w) -> within 0 m.
Proof. intros H w. exists []. rewrite H, List.app_nil_r. auto. Qed.

Lemma within_of_stays (Pe : event -> Prop) {A} (m : M A) :
  (forall e, Pe e -> is_model_call e = false) -> stays (log_frame Pe) m -> within 0 m.
Proof.
  intros HP Hm w. destruct (Hm w) as [[new [L F]] _]. exists new. split; [exact L|].
  unfold count_calls. enough (filter is_model_call new = []) as -> by auto.
  clear L. induction F as [|e l He _ IH]; [reflexivity|]. simpl. rewrite (HP e He). exact IH.
Qed.

Lemma within_mono (a b : nat) {A} (m : M A) : (a <= b)%nat -> within a m -> within b m.
Proof. intros Hab H w. destruct (H w) as [new [L C]]. exists new. split; [exact L|lia]. Qed.

Lemma within_bind (a b n : nat) {A B} (m : M A) (k : A -> M B) :
  (a + b <= n)%nat -> within a m -> (forall x, within b (k x)) -> within n (mbind m k).
Proof.
  intros Hn Hm Hk w. unfold mbind. destruct (Hm w) as [n1 [L1 C1]].
  destruct (m w) as [[x|e] w1]; simpl in *.
  - destruct (Hk x w1) as [n2 [L2 C2]]. exists (n1 ++ n2)%list.
    rewrite L2, L1, List.app_assoc, count_calls_app. split; [reflexivity|lia].
  - exists n1. split; [exact L1|lia].
Qed.

Lemma within_try (a b n : nat) {A} (m : M A) (h : py_exn -> M A) :
  (a + b <= n)%nat -> within a m -> (forall e, within b (h e)) -> within n (try_except m h).
Proof.
  intros Hn Hm Hh w. unfold try_except. destruct (Hm w) as [n1 [L1 C1]].
  destruct (m w) as [[x|e] w1]; simpl in *.
  - exists n1. split; [exact L1|lia].
  - destruct (Hh e w1) as [n2 [L2 C2]]. exists (n1 ++ n2)%list.
    rewrite L2, L1, List.app_assoc, count_calls_app. split; [reflexivity|lia].
Qed.

Lemma within_create_completion env key stage : within 1 (create_completion env key stage).
Proof.
  intro w. exists [ModelCall key stage]. unfold create_completion.
  destruct (env_client env _); split; reflexivity || (cbv; lia).
Qed.

Lemma within_retry_loop (n : nat) r (attempt : M QuestionnaireResult) :
  within 1 attempt -> within n (retry_loop n r attempt).
Proof.
  intro Ha. revert r. induction n as [|n IH]; intros r w; simpl.
  - exists []. rewrite List.app_nil_r. destruct r; simpl; split; auto.
  - destruct (Ha w) as [n1 [L1 C1]].
    destruct (attempt w) as [[q|e] w1]; simpl in *.
    + destruct (success q).
      * exists n1. split; [exact L1|lia].
      * destruct (IH (Some q) w1) as [n2 [L2 C2]]. exists (n1 ++ n2)%list.
        rewrite L2, L1, List.app_assoc, count_calls_app. split; [reflexivity|lia].
    + destruct (IH r w1) as [n2 [L2 C2]]. exists (n1 ++ n2)%list.
      rewrite L2, L1, List.app_assoc, count_calls_app. split; [reflexivity|lia].
Qed.

End Within.

Lemma db_write_not_call e : is_db_write e -> is_model_call e = false.
Proof. destruct e; simpl; tauto. Qed.

Ltac within0 := eapply within_of_stays; [exact db_write_not_call|].

Lemma within_run_questionnaire env key text qtype sr ins :
  within 1 (run_questionnaire env key text qtype sr ins).
Proof.
  unfold run_questionnaire.
  apply (within_bind 0 1); [lia| |intros [sr' ins']].
  { within0. stays_tac. }
  apply (within_bind 0 1); [lia| |intro prompt].
  { within0. stays_tac. }
  apply (within_try 1 0); [lia| |intro; within0; stays_tac].
  apply (within_bind 1 0); [lia|apply within_create_completion|intro].
  within0. stays_tac.
Qed.

Lemma within_retry cfg env key text qtype :
  within (Z.to_nat (max_retries cfg)) (run_questionnaire_with_retry cfg env key text qtype).
Proof.
  unfold run_questionnaire_with_retry. apply within_retry_loop.
  apply (within_bind 0 1); [lia|within0; stays_tac|intro].
  apply (within_bind 0 1); [lia|within0; stays_tac|intro].
  apply within_run_questionnaire.
Qed.

Lemma within_dimension_stage cfg env key eid :
  within (if include_dimensions cfg then 1 else 0) (dimension_stage cfg env key eid).
Proof.
  unfold dimension_stage. destruct (include_dimensions cfg); [|within0; stays_tac].
  apply (within_try 1 0); [lia| |intro; within0; stays_tac].
  apply (within_bind 1 0); [lia| |intro; within0; stays_tac].
  unfold run_dimension_evaluation.
  apply (within_bind 1 0); [lia|apply within_create_completion|intro; within0; stays_tac].
Qed.

Lemma within_questionnaire_stage cfg env (b : bool) qtype key text eid g nid :
  within (if b then Z.to_nat (max_retries cfg) else 0)
    (questionnaire_stage cfg env b qtype key text eid g nid).
Proof.
  unfold questionnaire_stage. destruct b; [|within0; stays_tac].
  apply (within_bind (Z.to_nat (max_retries cfg)) 0); [lia|apply within_retry|intro].
  within0. unfold save_questionnaire_result. stays_tac.
Qed.

Lemma within_process_single_narrative cfg env key text nid eid g :
  within (per_narrative_calls cfg) (process_single_narrative cfg env key text nid eid g).
Proof.
  unfold process_single_narrative, per_narrative_calls.
  set (r := Z.to_nat (max_retries cfg)).
  set (d := if include_dimensions cfg then 1%nat else 0%nat).
  set (p := if include_pcs cfg then r else 0%nat).
  set (b := if include_bpi_is cfg then r else 0%nat).
  set (t := if include_tsk_11sv cfg then r else 0%nat).
  apply (within_bind d (p + b + t)); [lia|apply within_dimension_stage|intros [[dok dres] derr]].
  apply (within_bind p (b + t)); [lia|apply within_questionnaire_stage|intro].
  apply (within_bind b t); [lia|apply within_questionnaire_stage|intro].
  apply (within_bind t 0); [lia|apply within_questionnaire_stage|intro].
  apply within_of_log. reflexivity.
Qed.

(** ** Model calls of a whole run *)

Lemma within_update_progress f : within 0 (update_progress f).
Proof. apply within_of_log. reflexivity. Qed.

Lemma within_save_checkpoint cfg env ids g : within 0 (save_checkpoint cfg env ids g).
Proof. apply within_of_log. intro w. apply save_checkpoint_log. Qed.

Lemma within_narrative_body cfg env setup g key text :
  (forall k t, stays (log_frame is_db_write) (setup k t)) ->
  within (per_narrative_calls cfg) (narrative_body cfg env setup g key text).
Proof.
  intro Hs. unfold narrative_body.
  apply (within_bind 0 (per_narrative_calls cfg)); [lia|within0; apply Hs|intros [nid eid]].
  apply (within_bind (per_narrative_calls cfg) 0); [lia|apply within_process_single_narrative|intro r].
  apply (within_bind 0 0); [lia|apply within_of_log; reflexivity|intro].
  apply (within_bind 0 0); [lia|apply within_of_log; reflexivity|intro].
  apply (within_bind 0 0); [lia|apply within_update_progress|intro].
  apply (within_bind 0 0); [lia|destruct (counts_as_success r); apply within_update_progress|intro].
  apply (within_bind 0 0); [lia|apply within_of_log; reflexivity|intro].
  apply (within_bind 0 0); [lia|apply within_of_log; reflexivity|intro].
  destruct (_ =? 0); [|apply within_of_log; reflexivity].
  apply (within_bind 0 0); [lia|apply within_of_log; reflexivity|intro].
  apply within_save_checkpoint.
Qed.

Lemma within_narrative_failed key : within 0 (narrative_failed key).
Proof. apply within_of_log. reflexivity. Qed.

Lemma within_batch_loop cfg env setup g items :
  (forall k t, stays (log_frame is_db_write) (setup k t)) ->
  within (List.length items * per_narrative_calls cfg) (batch_loop cfg env setup g items).
Proof.
  intro Hs. induction items as [|[key text] rest IH]; cbn [batch_loop List.length].
  - apply within_of_log. reflexivity.
  - apply (within_bind 0 (S (List.length rest) * per_narrative_calls cfg)%nat);
      [lia|apply within_of_log; reflexivity|intro w].
    destruct (existsb _ _); [eapply within_mono; [|exact IH]; lia|].
    apply (within_bind 0 (S (List.length rest) * per_narrative_calls cfg)%nat);
      [lia|apply within_update_progress|intro].
    apply (within_bind 0 (S (List.length rest) * per_narrative_calls cfg)%nat);
      [lia|apply (within_of_stays (fun e => e = Started key));
       [intros e ->; reflexivity|apply stays_emit; reflexivity]|intro].
    apply (within_bind (per_narrative_calls cfg) (List.length rest * per_narrative_calls cfg));
      [lia| |intro; exact IH].
    apply (within_try (per_narrative_calls cfg) 0); [lia|apply within_narrative_body; exact Hs|].
    intro. apply within_narrative_failed.
Qed.

Lemma within_run_batch_common cfg env setup items resume :
  (forall g k t, stays (log_frame is_db_write) (setup g k t)) ->
  within (List.length items * per_narrative_calls cfg) (run_batch_common cfg env setup items resume).
Proof.
  intro Hs. unfold run_batch_common.
  set (N := (List.length items * per_narrative_calls cfg)%nat).
  apply (within_bind 0 N); [lia| |intro ck].
  { destruct resume; [|apply within_of_log; reflexivity].
    apply within_of_log. intro w. rewrite load_checkpoint_world. reflexivity. }
  apply (within_bind 0 N); [lia| |intros [P g]].
  { destruct (py_truthy ck && resume).
    - within0. stays_tac.
    - within0. unfold create_experiment_group. stays_tac. }
  apply (within_bind 0 N); [lia|apply within_of_log; reflexivity|intro].
  apply (within_bind 0 N); [lia|apply within_of_log; reflexivity|intro].
  apply (within_bind 0 N); [lia|apply within_of_log; reflexivity|intro].
  apply (within_bind N 0); [lia|apply within_batch_loop; apply Hs|intro].
  apply (within_bind 0 0); [lia|apply within_of_log; reflexivity|intro].
  apply (within_bind 0 0); [lia|apply within_save_checkpoint|intro].
  apply (within_bind 0 0); [lia|within0; stays_tac|intro].
  apply (within_bind 0 0); [lia|apply within_of_log; reflexivity|intro].
  apply within_of_log; reflexivity.
Qed.

Lemma per_narrative_le_estimate cfg n avg :
  (per_narrative_calls cfg <=
   Z.to_nat (calls_per_narrative (estimate_batch_cost cfg n avg)) * Nat.max 1 (Z.to_nat (max_retries cfg)))%nat.
Proof.
  unfold per_narrative_calls, estimate_batch_cost. cbn [calls_per_narrative].
  set (r := Z.to_nat (max_retries cfg)).
  destruct (include_dimensions cfg), (include_pcs cfg), (include_bpi_is cfg), (include_tsk_11sv cfg);
    cbn -[Nat.max]; lia.
Qed.

Lemma run_batch_common_calls_within_estimate cfg env setup rows resume avg w :
  (forall g k t, stays (log_frame is_db_write) (setup g k t)) ->
  exists new, w_log (snd (run_batch_common cfg env setup rows resume w)) = (w_log w ++ new)%list /\
    (count_calls new <=
     Z.to_nat (total_api_calls (estimate_batch_cost cfg (Z.of_nat (List.length rows)) avg))
       * Nat.max 1 (Z.to_nat (max_retries cfg)))%nat.
Proof.
  intro Hs.
  destruct (within_run_batch_common cfg env setup rows resume Hs w) as [new [L C]].
  exists new. split; [exact L|].
  eapply Nat.le_trans; [exact C|].
  pose proof (per_narrative_le_estimate cfg (Z.of_nat (List.length rows)) avg) as Hp.
  unfold estimate_batch_cost in *. cbn [total_api_calls calls_per_narrative] in *.
  rewrite Z2Nat.inj_mul by (try apply Nat2Z.is_nonneg;
    destruct (include_dimensions cfg), (include_pcs cfg), (include_bpi_is cfg), (include_tsk_11sv cfg);
    cbn; lia).
  rewrite Nat2Z.id, <- Nat.mul_assoc. apply Nat.mul_le_mono_l. exact Hp.
Qed.

(** X6: A run of run_batch or run_batch_with_existing_narratives over n narratives (resumed or not) makes at most total_api_calls of estimate_batch_cost(n) times max(1, max_retries) model calls. *)
Lemma run_calls_within_estimate cfg env rows resume avg w :
  (exists new, w_log (snd (run_batch cfg env rows resume w)) = (w_log w ++ new)%list /\
    (count_calls new <=
     Z.to_nat (total_api_calls (estimate_batch_cost cfg (Z.of_nat (List.length rows)) avg))
       * Nat.max 1 (Z.to_nat (max_retries cfg)))%nat) /\
  (exists new, w_log (snd (run_batch_with_existing_narratives cfg env rows resume w)) = (w_log w ++ new)%list /\
    (count_calls new <=
     Z.to_nat (total_api_calls (estimate_batch_cost cfg (Z.of_nat (List.length rows)) avg))
       * Nat.max 1 (Z.to_nat (max_retries cfg)))%nat).
Proof.
  split; apply run_batch_common_calls_within_estimate.
  - exact (stays_setup_new_narrative env).
  - exact (stays_setup_existing_narrative env).
Qed.

(** X5: process_single_narrative only appends to the log, and makes at most (1 if dimensions are included) plus max_retries for each included questionnaire model calls. *)
Lemma process_single_narrative_calls_bounded cfg env key text nid eid g w :
  exists new, w_log (snd (process_single_narrative cfg env key text nid eid g w)) = (w_log w ++ new)%list /\
    (count_calls new <= per_narrative_calls cfg)%nat.
Proof. exact (within_process_single_narrative cfg env key text nid eid g w). Qed.

(** ** Dimension evaluation and _save_questionnaire_result *)

(** X7: For a successful PCS result, _save_questionnaire_result first writes the questionnaire result; if calculating the total score or the subscales raises, the exception propagates and no evaluation result is written; otherwise it writes the evaluation result and returns the questionnaire id. *)
Lemma save_pcs_result r eid g nid w :
  success r = true ->
  (forall e, calculate_pcs_total_score r = Raise e ->
     save_questionnaire_result r "PCS" eid g nid w =
       (Raise e, log_world [DbWrite (WQuestionnaire eid "PCS" (data r))] w)) /\
  (forall t e, calculate_pcs_total_score r = Ok t -> calculate_pcs_subscales r = Raise e ->
     save_questionnaire_result r "PCS" eid g nid w =
       (Raise e, log_world [DbWrite (WQuestionnaire eid "PCS" (data r))] w)) /\
  (forall t s, calculate_pcs_total_score r = Ok t -> calculate_pcs_subscales r = Ok s ->
     save_questionnaire_result r "PCS" eid g nid w =
       (Ok (Some (Z.of_nat (List.length (w_log w)))),
        log_world [DbWrite (WQuestionnaire eid "PCS" (data r)); DbWrite (WEvaluation eid "PCS")] w)).
Proof.
  intro Hs. unfold save_questionnaire_result. rewrite Hs. cbn [negb].
  split; [|split].
  - intros e He. cbv [mbind db_insert lift ret]. cbn. rewrite He. reflexivity.
  - intros t e Ht He. cbv [mbind db_insert lift ret]. cbn. rewrite Ht, He. reflexivity.
  - intros t s Ht He. cbv [mbind db_insert lift ret]. cbn. rewrite Ht, He.
    unfold log_world. cbn. rewrite <- List.app_assoc. reflexivity.
Qed.

(** X8: When dimensions are included and the model client raises with message msg, the dimension step of process_single_narrative records (False, {}, msg) after the one model call and writes nothing to the database. *)
Lemma dimension_stage_transport_failure cfg env key eid w msg :
  include_dimensions cfg = true ->
  env_client env (count_calls (w_log w)) = CRaise msg ->
  dimension_stage cfg env key eid w =
    (Ok (false, PDict [], Some msg), log_world [ModelCall key "dimensions"] w).
Proof.
  intros Hd Hc. unfold dimension_stage. rewrite Hd.
  cbv [try_except mbind run_dimension_evaluation create_completion]. rewrite Hc. reflexivity.
Qed.

(** ** Fresh runs and resuming without a checkpoint *)

Lemma run_batch_common_fresh_eq cfg env setup items w :
  run_batch_common cfg env setup items false w =
  batch_tail cfg env setup (PInt (env_new_group env)) items
    (mkWorld (w_log w ++ [DbWrite (WExperimentsGroup (env_new_group env))])%list (w_fs w)
       (mkBatchProgress (Z.of_nat (List.length items)) 0 0 0 None) [] []).
Proof. reflexivity. Qed.

Lemma run_batch_common_no_checkpoint cfg env setup items w :
  (forall ck, fst (load_checkpoint cfg w) = Ok ck -> py_truthy ck = false) ->
  run_batch_common cfg env setup items true w = run_batch_common cfg env setup items false w.
Proof.
  intro H. unfold run_batch_common at 1. unfold mbind at 1.
  rewrite (surjective_pairing (load_checkpoint cfg w)).
  assert (Hl : exists ck, fst (load_checkpoint cfg w) = Ok ck).
  { unfold load_checkpoint. destruct (configured_file cfg); [|eexists; reflexivity].
    cbv [mbind get_world]. destruct (fs_read _ _); [|eexists; reflexivity].
    destruct (json_loads _); eexists; reflexivity. }
  destruct Hl as [ck Hck]. rewrite Hck, load_checkpoint_world, (H ck Hck). reflexivity.
Qed.

Lemma batch_tail_resumed cfg env setup g items P w0 :
  (forall g k t, stays (log_frame is_db_write) (setup g k t)) ->
  NoDup (map fst items) ->
  (forall k, In k (map fst items) -> existsb (py_key_eq (PInt k)) (w_processed_ids w0) = inP P k) ->
  resumed_only P (map fst items) w0 (snd (batch_tail cfg env setup g items w0)).
Proof.
  intros Hs Hnd Hin. unfold batch_tail.
  destruct (batch_loop_resume cfg env (setup g) g P items w0 (Hs g) Hnd Hin)
    as [new [L [S C]]].
  unfold mbind at 1. destruct (batch_loop cfg env (setup g) g items w0) as [r w1].
  simpl in L. destruct r as [[]|e].
  - cbv [mbind get_world db_insert ret].
    pose proof (save_checkpoint_log cfg env (w_processed_ids w1) g w1) as Ls.
    destruct (save_checkpoint cfg env (w_processed_ids w1) g w1) as [[[]|e] w2]; simpl in Ls |- *.
    + exists (new ++ [DbWrite (WGroupConcluded g)])%list. split; [|split].
      * rewrite Ls, L, List.app_assoc. reflexivity.
      * rewrite started_keys_app, S. simpl. apply List.app_nil_r.
      * intros k st H. apply in_app_or in H. destruct H as [H|[H|[]]]; [exact (C k st H)|discriminate].
    + exists new. rewrite Ls. auto.
  - exists new. simpl. auto.
Qed.

Lemma filter_negb_nil (keys : list Z) : filter (fun k => negb (inP [] k)) keys = keys.
Proof. induction keys as [|k ks IH]; [reflexivity|]. cbn [filter]. rewrite IH. reflexivity. Qed.

Lemma run_batch_common_fresh cfg env setup items w :
  (forall g k t, stays (log_frame is_db_write) (setup g k t)) ->
  NoDup (map fst items) ->
  exists new, w_log (snd (run_batch_common cfg env setup items false w)) = (w_log w ++ new)%list /\
    started_keys new = map fst items /\
    (forall k st, In (ModelCall k st) new -> In k (map fst items)).
Proof.
  intros Hs Hnd. rewrite run_batch_common_fresh_eq.
  set (w0 := mkWorld (w_log w ++ [DbWrite (WExperimentsGroup (env_new_group env))])%list (w_fs w)
       (mkBatchProgress (Z.of_nat (List.length items)) 0 0 0 None) [] []).
  destruct (batch_tail_resumed cfg env setup (PInt (env_new_group env)) items [] w0 Hs Hnd
              (fun _ _ => eq_refl)) as [new [L [S C]]].
  rewrite filter_negb_nil in S. cbn [w_log] in L.
  exists (DbWrite (WExperimentsGroup (env_new_group env)) :: new). split; [|split].
  - rewrite L. subst w0. cbn [w_log]. rewrite <- List.app_assoc. reflexivity.
  - exact S.
  - intros k st [H|H]; [discriminate|]. apply (C k st H).
Qed.

Lemma run_batch_common_fresh_counts cfg env setup items w :
  (forall g k t, stays (log_frame is_db_write) (setup g k t)) ->
  counts_ok 0 (Z.of_nat (List.length items))
    (w_progress (snd (run_batch_common cfg env setup items false w))).
Proof.
  intros Hs. rewrite run_batch_common_fresh_eq. unfold batch_tail.
  match goal with |- counts_ok ?n ?t (w_progress (snd (?m ?w0))) =>
    enough (Hst : stays (prog_inv n t) m) by (apply Hst; split; simpl; lia) end.
  apply stays_bind; [apply stays_batch_loop_prog; intros; apply Hs|intro].
  apply stays_bind; [apply stays_get_world|intro].
  apply stays_bind; [apply stays_save_checkpoint_prog|intro].
  apply stays_bind; [apply stays_prog_of_progress; reflexivity|intro].
  apply stays_bind; [apply stays_get_world|intro]. apply stays_ret.
Qed.

(** X11: If no checkpoint file is configured, or the configured file is missing or holds a falsy JSON value, run_batch and run_batch_with_existing_narratives with resume=True behave exactly as with resume=False. *)
Lemma resume_without_usable_checkpoint cfg env rows w :
  (configured_file cfg = None \/
   exists path, configured_file cfg = Some path /\
     forall text v, fs_read (w_fs w) path = Some text -> json_loads text = Ok v -> py_truthy v = false) ->
  run_batch cfg env rows true w = run_batch cfg env rows false w /\
  run_batch_with_existing_narratives cfg env rows true w =
    run_batch_with_existing_narratives cfg env rows false w.
Proof.
  intro H.
  assert (Hl : forall ck, fst (load_checkpoint cfg w) = Ok ck -> py_truthy ck = false).
  { intros ck. unfold load_checkpoint. destruct H as [H|[path [Hp H]]].
    - rewrite H. intro E. inversion E. reflexivity.
    - rewrite Hp. cbv [mbind get_world]. destruct (fs_read _ _) as [text|] eqn:Ef.
      + destruct (json_loads text) as [v|e] eqn:Ej; intro E; inversion E; subst; [|reflexivity].
        exact (H text ck eq_refl Ej).
      + intro E. inversion E. reflexivity. }
  split; apply run_batch_common_no_checkpoint; exact Hl.
Qed.

(** X12: A fresh (non-resumed) run of run_batch or run_batch_with_existing_narratives over narratives with distinct keys starts each narrative exactly once, in input order, and makes model calls only for those narratives. *)
Lemma fresh_run_starts_each_narrative cfg env rows w :
  NoDup (map fst rows) ->
  (exists new, w_log (snd (run_batch cfg env rows false w)) = (w_log w ++ new)%list /\
     started_keys new = map fst rows /\
     (forall k st, In (ModelCall k st) new -> In k (map fst rows))) /\
  (exists new, w_log (snd (run_batch_with_existing_narratives cfg env rows false w)) = (w_log w ++ new)%list /\
     started_keys new = map fst rows /\
     (forall k st, In (ModelCall k st) new -> In k (map fst rows))).
Proof.
  intro Hnd. split; apply run_batch_common_fresh; auto.
  - intros; apply stays_setup_new_narrative.
  - intros; apply stays_setup_existing_narrative.
Qed.

(** X13: At the end of a fresh run of run_batch or run_batch_with_existing_narratives, the progress total is the number of narratives and processed = successful + failed. *)
Lemma fresh_run_counts cfg env rows w :
  counts_ok 0 (Z.of_nat (List.length rows)) (w_progress (snd (run_batch cfg env rows false w))) /\
  counts_ok 0 (Z.of_nat (List.length rows))
    (w_progress (snd (run_batch_with_existing_narratives cfg env rows false w))).
Proof.
  split; apply run_batch_common_fresh_counts.
  - intros; apply stays_setup_new_narrative.
  - intros; apply stays_setup_existing_narrative.
Qed.

(** ** Resuming after a completed run *)

#[export] Instance ids_keep_Frame v : Frame (ids_keep v).
Proof. split; unfold ids_keep; auto. Qed.

Lemma stays_ids_same v {A} (m : M A) :
  (forall w, w_processed_ids (snd (m w)) = w_processed_ids w) -> stays (ids_keep v) m.
Proof. intros H w Hw. rewrite H. exact Hw. Qed.

Lemma bind_ok_inv {A B} (m : M A) (k : A -> M B) w x w' :
  mbind m k w = (Ok x, w') -> exists a w1, m w = (Ok a, w1) /\ k a w1 = (Ok x, w').
Proof.
  unfold mbind. destruct (m w) as [[a|e] w1]; intro H; [eauto|discriminate].
Qed.

Lemma narrative_body_ok_in cfg env setup g key text w :
  fst (narrative_body cfg env setup g key text w) = Ok tt ->
  In (PInt key) (w_processed_ids (snd (narrative_body cfg env setup g key text w))).
Proof.
  destruct (narrative_body cfg env setup g key text w) as [r w'] eqn:E. simpl. intro Hr. subst r.
  unfold narrative_body in E.
  apply bind_ok_inv in E as [[nid eid] [w1 [_ E]]]. cbv beta iota in E.
  apply bind_ok_inv in E as [r [w2 [_ E]]].
  apply bind_ok_inv in E as [u [w3 [_ E]]].
  apply bind_ok_inv in E as [u' [w4 [E5 E]]].
  assert (H4 : In (PInt key) (w_processed_ids w4)).
  { cbv [append_processed_id mbind get_world set_processed_ids] in E5. inversion E5.
    cbn [w_processed_ids]. apply in_or_app. right. left. reflexivity. }
  enough (Hst : stays (ids_keep (PInt key))
                  (_ <- update_progress incr_processed ;;
                   _ <- (if counts_as_success r then update_progress incr_successful
                         else update_progress incr_failed) ;;
                   w <- get_world ;;
                   m <- lift (py_mod (processed (w_progress w)) (checkpoint_interval cfg)) ;;
                   if Z.eqb m 0 then
                     w' <- get_world ;; save_checkpoint cfg env (w_processed_ids w') g
                   else ret tt)).
  { specialize (Hst w4 H4). rewrite E in Hst. exact Hst. }
  apply stays_bind; [apply stays_ids_same; reflexivity|intro].
  apply stays_bind; [destruct (counts_as_success r); apply stays_ids_same; reflexivity|intro].
  apply stays_bind; [apply stays_get_world|intro].
  apply stays_bind; [apply stays_lift|intro].
  destruct (_ =? 0); [|apply stays_ret].
  apply stays_bind; [apply stays_get_world|intro].
  apply stays_ids_same. intro w0. unfold save_checkpoint.
  destruct (configured_file cfg); [|reflexivity].
  cbv [mbind get_world lift write_file]. destruct (json_dumps _); reflexivity.
Qed.

Lemma iteration_records_key cfg env setup g key text w :
  In (PInt key) (w_processed_ids
    (snd (try_except (narrative_body cfg env setup g key text) (fun _ => narrative_failed key) w))).
Proof.
  pose proof (narrative_body_ok_in cfg env setup g key text w) as H.
  unfold try_except. destruct (narrative_body cfg env setup g key text w) as [[[]|e] w1].
  - exact (H eq_refl).
  - cbv [narrative_failed mbind update_progress get_world set_progress append_processed_id
         set_processed_ids]. cbn. apply in_or_app. right. left. reflexivity.
Qed.


Lemma int_ids_existsb key l :
  int_ids l -> existsb (py_key_eq (PInt key)) l = true -> In (PInt key) l.
Proof.
  intros [zs ->] H. apply existsb_exists in H as [x [Hx He]].
  apply in_map_iff in Hx as [z [<- Hz]]. simpl in He. apply Z.eqb_eq in He. subst z.
  apply in_map. exact Hz.
Qed.

Lemma int_ids_extra key l extra :
  int_ids l -> Forall (eq (PInt key)) extra -> int_ids (l ++ extra)%list.
Proof.
  intros [zs ->] HF. exists (zs ++ map (fun _ => key) extra)%list.
  rewrite map_app. f_equal.
  induction HF as [|x l' Hx _ IH]; [reflexivity|]. subst x. simpl. f_equal. exact IH.
Qed.

Lemma batch_loop_covers cfg env setup g items w :
  (forall k t, stays (log_frame is_db_write) (setup k t)) ->
  int_ids (w_processed_ids w) ->
  fst (batch_loop cfg env setup g items w) = Ok tt /\
  int_ids (w_processed_ids (snd (batch_loop cfg env setup g items w))) /\
  (forall v, In v (w_processed_ids w) -> In v (w_processed_ids (snd (batch_loop cfg env setup g items w)))) /\
  (forall k, In k (map fst items) -> In (PInt k) (w_processed_ids (snd (batch_loop cfg env setup g items w)))).
Proof.
  intros Hs. revert w. induction items as [|[key text] rest IH]; intros w Hi.
  - simpl. repeat split; auto. intros k [].
  - rewrite batch_loop_cons_eq. destruct (existsb _ _) eqn:Ex.
    + destruct (IH w Hi) as [O [I [K C]]]. repeat split; auto.
      intros k [Hk|Hk]; [subst k; apply K, int_ids_existsb; assumption|auto].
    + set (w1 := mkWorld (w_log w ++ [Started key])%list (w_fs w) (with_current key (w_progress w))
                         (w_processed_ids w) (w_results w)).
      assert (Hst : key_step key w1
                (snd (try_except (narrative_body cfg env setup g key text)
                        (fun _ => narrative_failed key) w1))).
      { apply stays_try; [apply stays_narrative_body_key; exact Hs|intro; apply stays_narrative_failed_key]. }
      assert (Hok := try_failed_ok (narrative_body cfg env setup g key text) key w1).
      assert (Hin := iteration_records_key cfg env setup g key text w1).
      destruct (try_except _ _ w1) as [r w3]. simpl in Hok, Hst, Hin. subst r.
      destruct Hst as [new3 [extra [L3 [F3 [I3 G3]]]]].
      assert (Hi3 : int_ids (w_processed_ids w3)) by (rewrite I3; apply (int_ids_extra key); assumption).
      destruct (IH w3 Hi3) as [O [I [K C]]]. repeat split; auto.
      * intros v Hv. apply K. rewrite I3. apply in_or_app. left. exact Hv.
      * intros k [Hk|Hk]; [subst k; apply K; exact Hin|auto].
Qed.

Lemma count_calls_none (l : list event) :
  (forall k st, ~ In (ModelCall k st) l) -> count_calls l = 0%nat.
Proof.
  intro H. induction l as [|e l IH]; [reflexivity|].
  destruct e as [k st| |]; [exfalso; apply (H k st); left; reflexivity| |];
    unfold count_calls in *; simpl; apply IH; intros k st Hk; apply (H k st); right; exact Hk.
Qed.

Lemma filter_all_in (P : list pyval) (keys : list Z) :
  (forall k, In k keys -> inP P k = true) -> filter (fun k => negb (inP P k)) keys = [].
Proof.
  intro H. induction keys as [|k ks IH]; [reflexivity|]. cbn [filter].
  rewrite (H k (or_introl eq_refl)). apply IH. intros; apply H; right; assumption.
Qed.

Lemma inP_of_in (P : list pyval) (k : Z) : In (PInt k) P -> inP P k = true.
Proof.
  intro H. unfold inP. apply existsb_exists. exists (PInt k). split; [exact H|]. apply Z.eqb_refl.
Qed.

Lemma completed_common_then_resume cfg env setup items w path :
  (forall g k t, stays (log_frame is_db_write) (setup g k t)) ->
  configured_file cfg = Some path -> NoDup (map fst items) ->
  let w1 := snd (run_batch_common cfg env setup items false w) in
  exists new, w_log (snd (run_batch_common cfg env setup items true w1)) = (w_log w1 ++ new)%list /\
    started_keys new = [] /\ count_calls new = 0%nat.
Proof.
  intros Hs Hc Hnd w1.
  set (g := env_new_group env).
  set (w0 := mkWorld (w_log w ++ [DbWrite (WExperimentsGroup g)])%list (w_fs w)
       (mkBatchProgress (Z.of_nat (List.length items)) 0 0 0 None) [] []).
  assert (Hw1 : w1 = snd (batch_tail cfg env setup (PInt g) items w0))
    by (unfold w1; rewrite run_batch_common_fresh_eq; reflexivity).
  destruct (batch_loop_covers cfg env (setup (PInt g)) (PInt g) items w0 (Hs (PInt g)) (ex_intro _ [] eq_refl))
    as [O [[zs Hzs] [_ Cov]]].
  destruct (batch_loop cfg env (setup (PInt g)) (PInt g) items w0) as [r2 w2] eqn:E2.
  simpl in O, Hzs, Cov. subst r2.
  destruct (save_load_checkpoint cfg env w2 path zs g Hc) as [text [Es Ej]].
  assert (Hw1' : w1 = mkWorld (w_log w2 ++ [DbWrite (WGroupConcluded (PInt g))])%list
                             ((path, text) :: w_fs w2) (w_progress w2) (w_processed_ids w2) (w_results w2)).
  { rewrite Hw1. unfold batch_tail. unfold mbind at 1. rewrite E2.
    cbv [mbind get_world]. rewrite Hzs in Es |- *. rewrite Es. reflexivity. }
  set (ck := checkpoint_data (map PInt zs) (PInt g) (env_now env) (w_progress w2)).
  assert (Hl : fst (load_checkpoint cfg w1) = Ok ck).
  { erewrite (load_checkpoint_file cfg w1 path text); [reflexivity|exact Hc| |exact Ej].
    rewrite Hw1'. simpl. rewrite String.eqb_refl. reflexivity. }
  destruct (run_batch_common_resume cfg env setup items w1 ck (map PInt zs) (PInt g) Hs Hnd Hl
              eq_refl eq_refl eq_refl) as [new [L [S C]]].
  exists new. split; [exact L|]. split.
  - rewrite S. apply filter_all_in. intros k Hk. apply inP_of_in. rewrite <- Hzs. apply Cov, Hk.
  - apply count_calls_none. intros k st Hk. destruct (C k st Hk) as [Hin Hn].
    rewrite inP_of_in in Hn; [discriminate|]. rewrite <- Hzs. apply Cov, Hin.
Qed.

(** X14: With a checkpoint file configured and distinct narrative keys, resuming right after a completed fresh run of run_batch or run_batch_with_existing_narratives starts no narrative and makes no model call. *)
Lemma completed_run_then_resume_idle cfg env rows w path :
  configured_file cfg = Some path -> NoDup (map fst rows) ->
  (let w1 := snd (run_batch cfg env rows false w) in
   exists new, w_log (snd (run_batch cfg env rows true w1)) = (w_log w1 ++ new)%list /\
     started_keys new = [] /\ count_calls new = 0%nat) /\
  (let w1 := snd (run_batch_with_existing_narratives cfg env rows false w) in
   exists new, w_log (snd (run_batch_with_existing_narratives cfg env rows true w1)) = (w_log w1 ++ new)%list /\
     started_keys new = [] /\ count_calls new = 0%nat).
Proof.
  intros Hc Hnd. split.
  - exact (completed_common_then_resume cfg env _ rows w path (stays_setup_new_narrative env) Hc Hnd).
  - exact (completed_common_then_resume cfg env _ rows w path (stays_setup_existing_narrative env) Hc Hnd).
Qed.

(** ** load_narratives_from_multiple_groups *)

Lemma existsb_seen (seen : list Z) (acc : list (Z * pyval)) (z : Z) :
  (forall x, In x seen <-> In x (map fst acc)) ->
  existsb (Z.eqb z) seen = existsb (Z.eqb z) (map fst acc).
Proof.
  intro H. apply eq_true_iff_eq. rewrite !existsb_exists. split; intros [x [Hx E]];
    apply Z.eqb_eq in E; subst x; exists z; split; try apply Z.eqb_refl; apply H; assumption.
Qed.

Lemma add_unseen_dedup (seen : list Z) (acc : list (Z * pyval)) (rows : list (Z * Z * pyval)) :
  (forall x, In x seen <-> In x (map fst acc)) ->
  (forall x, In x (fst (add_unseen seen acc rows)) <-> In x (map fst (snd (add_unseen seen acc rows)))) /\
  snd (add_unseen seen acc rows) = dedup_rows acc (map (fun '(_, nid, text) => (nid, text)) rows).
Proof.
  revert seen acc. induction rows as [|[[e nid] text] rows IH]; intros seen acc H; [simpl; auto|].
  cbn [add_unseen map dedup_rows fst]. rewrite (existsb_seen seen acc nid H).
  destruct (existsb _ _); [apply IH; exact H|].
  apply IH. intro x. rewrite map_app. simpl. rewrite in_app_iff. simpl.
  rewrite H. tauto.
Qed.

Lemma dedup_rows_app (acc r1 r2 : list (Z * pyval)) :
  dedup_rows acc (r1 ++ r2)%list = dedup_rows (dedup_rows acc r1) r2.
Proof.
  revert acc. induction r1 as [|r r1 IH]; intro acc; [reflexivity|].
  simpl. destruct (existsb _ _); apply IH.
Qed.

Lemma load_groups_dedup query (seen : list Z) (acc : list (Z * pyval)) (gs : list Z) :
  (forall x, In x seen <-> In x (map fst acc)) ->
  load_groups query seen acc gs = dedup_rows acc (flat_map (load_narratives_from_group query) gs).
Proof.
  revert seen acc. induction gs as [|g gs IH]; intros seen acc H; [reflexivity|].
  cbn [load_groups flat_map]. rewrite dedup_rows_app.
  destruct (add_unseen_dedup seen acc (query g) H) as [H1 H2].
  destruct (add_unseen seen acc (query g)) as [seen' acc'] eqn:E. simpl in H1, H2.
  rewrite IH by exact H1. rewrite H2. reflexivity.
Qed.

Lemma multiple_groups_dedup query gs :
  load_narratives_from_multiple_groups query gs =
  dedup_rows [] (flat_map (load_narratives_from_group query) gs).
Proof. apply load_groups_dedup. simpl. tauto. Qed.

Lemma dedup_rows_nodup (acc rows : list (Z * pyval)) :
  NoDup (map fst acc) -> NoDup (map fst (dedup_rows acc rows)).
Proof.
  revert acc. induction rows as [|r rs IH]; intros acc H; [exact H|].
  simpl. destruct (existsb _ _) eqn:E; apply IH; [exact H|].
  rewrite map_app. simpl. apply NoDup_app; [exact H|constructor; [intros []|constructor]|].
  intros x Hx [Hy|[]]. subst x.
  assert (existsb (Z.eqb (fst r)) (map fst acc) = true)
    by (apply existsb_exists; exists (fst r); split; [exact Hx|apply Z.eqb_refl]).
  congruence.
Qed.

Lemma dedup_rows_ids (acc rows : list (Z * pyval)) (z : Z) :
  In z (map fst (dedup_rows acc rows)) <-> In z (map fst acc) \/ In z (map fst rows).
Proof.
  revert acc. induction rows as [|r rs IH]; intros acc; [simpl; tauto|].
  simpl. destruct (existsb _ _) eqn:E; rewrite IH.
  - split; [tauto|]. intros [H|[H|H]]; auto. left. subst z.
    apply existsb_exists in E as [x [Hx Ex]]. apply Z.eqb_eq in Ex. subst x. exact Hx.
  - rewrite map_app, in_app_iff. simpl. tauto.
Qed.

Lemma dedup_rows_first (acc rows : list (Z * pyval)) (z : Z) (t : pyval) :
  In (z, t) (dedup_rows acc rows) ->
  In (z, t) acc \/ (~ In z (map fst acc) /\ find (fun r => Z.eqb (fst r) z) rows = Some (z, t)).
Proof.
  revert acc. induction rows as [|r rs IH]; intros acc H; [left; exact H|].
  simpl in H |- *. destruct (existsb _ _) eqn:E.
  - destruct (IH acc H) as [H1|[H1 H2]]; [left; exact H1|right; split; [exact H1|]].
    destruct (Z.eqb (fst r) z) eqn:Ez; [|exact H2].
    apply Z.eqb_eq in Ez. subst z. exfalso. apply H1.
    apply existsb_exists in E as [x [Hx Ex]]. apply Z.eqb_eq in Ex. subst x. exact Hx.
  - destruct (IH _ H) as [H1|[H1 H2]].
    + apply in_app_or in H1. destruct H1 as [H1|[H1|[]]]; [left; exact H1|].
      right. subst r. simpl. rewrite Z.eqb_refl. split; [|reflexivity].
      intro Hin. assert (existsb (Z.eqb z) (map fst acc) = true)
        by (apply existsb_exists; exists z; split; [exact Hin|apply Z.eqb_refl]). simpl in E. congruence.
    + right. rewrite map_app, in_app_iff in H1. simpl in H1. split; [tauto|].
      destruct (Z.eqb (fst r) z) eqn:Ez; [|exact H2].
      apply Z.eqb_eq in Ez. exfalso. apply H1. right. left. exact Ez.
Qed.

Lemma dedup_rows_distinct (acc rows : list (Z * pyval)) :
  NoDup (map fst (acc ++ rows)) -> dedup_rows acc rows = (acc ++ rows)%list.
Proof.
  revert acc. induction rows as [|r rs IH]; intros acc H; [symmetry; apply List.app_nil_r|].
  simpl. destruct (existsb _ _) eqn:E.
  - exfalso. apply existsb_exists in E as [x [Hx Ex]]. apply Z.eqb_eq in Ex. subst x.
    rewrite map_app in H. simpl in H. apply NoDup_remove_2 in H. apply H. apply in_or_app. left. exact Hx.
  - rewrite IH; [rewrite <- List.app_assoc; reflexivity|rewrite <- List.app_assoc; exact H].
Qed.

(** X15: load_narratives_from_multiple_groups returns each narrative id at most once, returns exactly the ids found in the given groups, and keeps for each id the text of its first occurrence in group order. *)
Lemma multiple_groups_unique query gs :
  let out := load_narratives_from_multiple_groups query gs in
  NoDup (map fst out) /\
  (forall nid, In nid (map fst out) <->
     exists g, In g gs /\ In nid (map fst (load_narratives_from_group query g))) /\
  (forall nid text, In (nid, text) out ->
     find (fun r => Z.eqb (fst r) nid) (flat_map (load_narratives_from_group query) gs)
       = Some (nid, text)).
Proof.
  intro out. unfold out. rewrite multiple_groups_dedup. split; [|split].
  - apply dedup_rows_nodup. constructor.
  - intro nid. rewrite dedup_rows_ids. simpl. rewrite flat_map_concat_map, concat_map, map_map.
    rewrite <- flat_map_concat_map, in_flat_map. split; [intros [[]|H]; exact H|intro H; right; exact H].
  - intros nid text H. destruct (dedup_rows_first [] _ nid text H) as [[]|[_ H2]]. exact H2.
Qed.

(** X16: When the given groups hold no narrative id twice, load_narratives_from_multiple_groups returns the concatenation of load_narratives_from_group over the groups, in order. *)
Lemma multiple_groups_distinct query gs :
  NoDup (map fst (flat_map (load_narratives_from_group query) gs)) ->
  load_narratives_from_multiple_groups query gs = flat_map (load_narratives_from_group query) gs.
Proof. intro H. rewrite multiple_groups_dedup. apply dedup_rows_distinct. exact H. Qed.

(** ** Witnesses of the statements about the remaining code *)

Lemma run_questionnaire_transport_failure_witness :
  env_client (stub_env (fun _ => CRaise "timeout")) (count_calls (w_log empty_world)) = CRaise "timeout" /\
  run_questionnaire (stub_env (fun _ => CRaise "timeout")) 1 (PStr "It hurts") "PCS"
    (PStr "sys") (PStr "Rate: {narrative}") empty_world =
    (Ok (mkQR "PCS" false [] (PDict [])
           [("system", PStr "sys"); ("user", PStr (str_replace "Rate: {narrative}" "{narrative}" "It hurts"))]
           (Some "timeout")),
     call_world 1 "PCS" empty_world).
Proof.
  split; [reflexivity|]. apply run_questionnaire_transport_failure. reflexivity.
Defined.

Lemma save_pcs_result_witness :
  success (mkQR "PCS" true pcs_payload (PDict []) [] None) = true /\
  save_questionnaire_result (mkQR "PCS" true pcs_payload (PDict []) [] None) "PCS" 100 (PInt 7) 300
    empty_world =
    (Ok (Some 0%Z),
     log_world [DbWrite (WQuestionnaire 100 "PCS" pcs_payload); DbWrite (WEvaluation 100 "PCS")]
       empty_world).
Proof.
  split; [reflexivity|].
  destruct (save_pcs_result (mkQR "PCS" true pcs_payload (PDict []) [] None) 100 (PInt 7) 300
              empty_world eq_refl) as [_ [_ H]].
  destruct (calculate_pcs_total_score (mkQR "PCS" true pcs_payload (PDict []) [] None)) as [t|e] eqn:Et;
    [|vm_compute in Et; discriminate].
  destruct (calculate_pcs_subscales (mkQR "PCS" true pcs_payload (PDict []) [] None)) as [s|e] eqn:Es;
    [|vm_compute in Es; discriminate].
  rewrite (H t s eq_refl eq_refl). reflexivity.
Defined.

Lemma dimension_stage_transport_failure_witness :
  include_dimensions cfg_default = true /\
  env_client (stub_env (fun _ => CRaise "timeout")) (count_calls (w_log empty_world)) = CRaise "timeout" /\
  dimension_stage cfg_default (stub_env (fun _ => CRaise "timeout")) 0 100 empty_world =
    (Ok (false, PDict [], Some "timeout"), log_world [ModelCall 0 "dimensions"] empty_world).
Proof.
  split; [reflexivity|]. split; [reflexivity|].
  apply dimension_stage_transport_failure; reflexivity.
Defined.

Lemma resume_without_usable_checkpoint_witness :
  configured_file cfg_checkpointed = Some "batch_checkpoint.json" /\
  fs_read (w_fs empty_world) "batch_checkpoint.json" = None /\
  run_batch cfg_checkpointed (stub_env client_pcs_then_bpi_text) [(0, PStr "It hurts")] true empty_world =
    run_batch cfg_checkpointed (stub_env client_pcs_then_bpi_text) [(0, PStr "It hurts")] false empty_world /\
  run_batch_with_existing_narratives cfg_checkpointed (stub_env client_pcs_then_bpi_text)
    [(0, PStr "It hurts")] true empty_world =
    run_batch_with_existing_narratives cfg_checkpointed (stub_env client_pcs_then_bpi_text)
      [(0, PStr "It hurts")] false empty_world.
Proof.
  split; [reflexivity|]. split; [reflexivity|].
  apply resume_without_usable_checkpoint.
  right. exists "batch_checkpoint.json". split; [reflexivity|].
  intros text v H. discriminate H.
Defined.

Lemma fresh_run_starts_each_narrative_witness :
  NoDup (map fst [(0, PStr "It hurts"); (1, PStr "My knee")]) /\
  (exists new, w_log (snd (run_batch cfg_default (stub_env client_pcs_then_bpi_text)
                             [(0, PStr "It hurts"); (1, PStr "My knee")] false empty_world))
                 = (w_log empty_world ++ new)%list /\
     started_keys new = [0; 1] /\
     (forall k st, In (ModelCall k st) new -> In k [0; 1])) /\
  (exists new, w_log (snd (run_batch_with_existing_narratives cfg_default (stub_env client_pcs_then_bpi_text)
                             [(0, PStr "It hurts"); (1, PStr "My knee")] false empty_world))
                 = (w_log empty_world ++ new)%list /\
     started_keys new = [0; 1] /\
     (forall k st, In (ModelCall k st) new -> In k [0; 1])).
Proof.
  assert (Hnd : NoDup (map fst [(0, PStr "It hurts"); (1, PStr "My knee")])).
  { apply NoDup_cons; [simpl; lia|]. apply NoDup_cons; [simpl; lia|]. apply NoDup_nil. }
  split; [exact Hnd|].
  exact (fresh_run_starts_each_narrative cfg_default (stub_env client_pcs_then_bpi_text)
           [(0, PStr "It hurts"); (1, PStr "My knee")] empty_world Hnd).
Defined.

Lemma completed_run_then_resume_idle_witness :
  configured_file cfg_checkpointed = Some "batch_checkpoint.json" /\
  NoDup (map fst [(0, PStr "It hurts"); (1, PStr "My knee")]) /\
  (let w1 := snd (run_batch cfg_checkpointed (stub_env client_pcs_then_bpi_text)
                    [(0, PStr "It hurts"); (1, PStr "My knee")] false empty_world) in
   exists new, w_log (snd (run_batch cfg_checkpointed (stub_env client_pcs_then_bpi_text)
                             [(0, PStr "It hurts"); (1, PStr "My knee")] true w1)) = (w_log w1 ++ new)%list /\
     started_keys new = [] /\ count_calls new = 0%nat) /\
  (let w1 := snd (run_batch_with_existing_narratives cfg_checkpointed (stub_env client_pcs_then_bpi_text)
                    [(0, PStr "It hurts"); (1, PStr "My knee")] false empty_world) in
   exists new, w_log (snd (run_batch_with_existing_narratives cfg_checkpointed
                             (stub_env client_pcs_then_bpi_text)
                             [(0, PStr "It hurts"); (1, PStr "My knee")] true w1)) = (w_log w1 ++ new)%list /\
     started_keys new = [] /\ count_calls new = 0%nat).
Proof.
  assert (Hnd : NoDup (map fst [(0, PStr "It hurts"); (1, PStr "My knee")])).
  { apply NoDup_cons; [simpl; lia|]. apply NoDup_cons; [simpl; lia|]. apply NoDup_nil. }
  split; [reflexivity|]. split; [exact Hnd|].
  exact (completed_run_then_resume_idle cfg_checkpointed (stub_env client_pcs_then_bpi_text)
           [(0, PStr "It hurts"); (1, PStr "My knee")] empty_world "batch_checkpoint.json" eq_refl Hnd).
Defined.

Lemma multiple_groups_distinct_witness :
  NoDup (map fst (flat_map (load_narratives_from_group two_groups) [1; 2])) /\
  load_narratives_from_multiple_groups two_groups [1; 2] =
    flat_map (load_narratives_from_group two_groups) [1; 2].
Proof.
  assert (Hnd : NoDup (map fst (flat_map (load_narratives_from_group two_groups) [1; 2]))).
  { simpl. apply NoDup_cons; [simpl; lia|]. apply NoDup_cons; [simpl; lia|]. apply NoDup_nil. }
  split; [exact Hnd|]. exact (multiple_groups_distinct two_groups [1; 2] Hnd).
Defined.

